(** * VR-Backend: the room registry, the per-room tick and the socket events

    A shallow embedding of [src/room.ts] and of the registry and the event
    handlers of [src/index.ts].

    - A JavaScript [number] is an IEEE 754 binary64 value: Rocq's primitive
      [float], with the same rounding, infinities and NaN. Where a statement
      is about the exact value of a double, the value is counted in quanta
      of [2 ^ -1074], and the rounding of [+], [-], [* 2] and [%] is derived
      from the specification of the operations.
    - A [Person] and a [Room] are JavaScript objects, shared by reference
      between the registry, the maps of the rooms and the closures of the
      socket handlers: both live in a store and are named by an address.
    - A handler either returns or throws; nothing in the source catches. *)

From Stdlib Require Import Floats ZArith.
From stdpp Require Import gmap strings list.

(** ** JavaScript numbers *)

Module Number.

Abbreviation number := float.

(** [x < y] and [x > y] of JavaScript: false as soon as one side is NaN. *)
Definition lt (x y : number) : bool := PrimFloat.ltb x y.
Definition gt (x y : number) : bool := PrimFloat.ltb y x.
(** [x >= y] of JavaScript. *)
Definition ge (x y : number) : bool := PrimFloat.leb y x.

(** [x === y] on numbers: false as soon as one side is NaN, and true of
    [0] and [-0]. *)
Definition strict_eq (x y : number) : bool := PrimFloat.eqb x y.

Definition isNaN (x : number) : bool := PrimFloat.is_nan x.

(** The [%] operator on numbers (ECMAScript Number::remainder): the result
    takes the sign of the dividend and is exact. Both operands are brought
    to the smaller of the two exponents, where the remainder is the one of
    the integer mantissas. *)
Definition remainder (n d : number) : number :=
  let sn := Prim2SF n in
  let sd := Prim2SF d in
  match sn, sd with
  | S754_nan, _ | _, S754_nan => nan
  | S754_infinity _, _ => nan
  | _, S754_infinity _ => n
  | _, S754_zero _ => nan
  | S754_zero _, _ => n
  | S754_finite s mn en, S754_finite _ md ed =>
      let e := Z.min en ed in
      let N := (Z.pos mn * 2 ^ (en - e))%Z in
      let D := (Z.pos md * 2 ^ (ed - e))%Z in
      match (N mod D)%Z with
      | Z.pos r => SF2Prim (S754_finite s r e)
      | _ => if s then neg_zero else zero
      end
  end.

End Number.

(** [Math.PI]: the double nearest to the number pi. *)
Definition Math_PI : float := 0x1.921fb54442d18p+1%float.

(** ** [index.d.ts]: the [VRChats] namespace *)

Module VRChats.

Record VRVector3D := { x : float; y : float; z : float }.

(** [Person] extends [VRObject]; the two interfaces are flattened. The two
    vectors are held by value: [createPerson] gives every Person vectors of
    its own and no handler ever assigns to [position] or [velocity]
    themselves, only to their components. *)
Record Person := {
  position : VRVector3D;
  velocity : VRVector3D;
  yaw : float;
  pitch : float;
  username : string;
  flying : bool;
  color : string;
  shape : string
}.

Definition set_x (v : VRVector3D) (a : float) : VRVector3D :=
  {| x := a; y := y v; z := z v |}.
Definition set_y (v : VRVector3D) (a : float) : VRVector3D :=
  {| x := x v; y := a; z := z v |}.
Definition set_z (v : VRVector3D) (a : float) : VRVector3D :=
  {| x := x v; y := y v; z := a |}.

Definition set_position (p : Person) (v : VRVector3D) : Person :=
  {| position := v; velocity := velocity p; yaw := yaw p; pitch := pitch p;
     username := username p; flying := flying p; color := color p;
     shape := shape p |}.
Definition set_velocity (p : Person) (v : VRVector3D) : Person :=
  {| position := position p; velocity := v; yaw := yaw p; pitch := pitch p;
     username := username p; flying := flying p; color := color p;
     shape := shape p |}.
Definition set_yaw (p : Person) (a : float) : Person :=
  {| position := position p; velocity := velocity p; yaw := a;
     pitch := pitch p; username := username p; flying := flying p;
     color := color p; shape := shape p |}.
Definition set_pitch (p : Person) (a : float) : Person :=
  {| position := position p; velocity := velocity p; yaw := yaw p;
     pitch := a; username := username p; flying := flying p;
     color := color p; shape := shape p |}.
Definition set_username (p : Person) (s : string) : Person :=
  {| position := position p; velocity := velocity p; yaw := yaw p;
     pitch := pitch p; username := s; flying := flying p;
     color := color p; shape := shape p |}.
Definition set_flying (p : Person) (b : bool) : Person :=
  {| position := position p; velocity := velocity p; yaw := yaw p;
     pitch := pitch p; username := username p; flying := b;
     color := color p; shape := shape p |}.
Definition set_color (p : Person) (s : string) : Person :=
  {| position := position p; velocity := velocity p; yaw := yaw p;
     pitch := pitch p; username := username p; flying := flying p;
     color := s; shape := shape p |}.
Definition set_shape (p : Person) (s : string) : Person :=
  {| position := position p; velocity := velocity p; yaw := yaw p;
     pitch := pitch p; username := username p; flying := flying p;
     color := color p; shape := s |}.

End VRChats.
Import VRChats.

(** ** [room.ts] *)

(** Used to accurately simulate gravity and velocities. *)
Definition TICK_LENGTH : float := (1 / 60)%float.

(** The y-value that no person should ever go under. *)
Definition FLOOR_Y : float := 0%float.

(** Addresses of the objects in the store. *)
Abbreviation PersonRef := positive.
Abbreviation RoomRef := positive.
Abbreviation SocketId := positive.
Abbreviation IntervalId := positive.

(** The one kind of function the program ever registers with [onTick]: the
    closure built in the ["room"] handler of a socket, which reads that
    socket's [roomID] variable when it runs. *)
Inductive TickCallback :=
  | SendRoomInfo (socket : SocketId).

(** The class [Room]. [people] maps a user id to a Person object;
    [tickerHandle] is undefined until [start]. [serverTime] is a number as
    every other one: a double, which [tick] adds 1 to. *)
Record Room := {
  people : gmap string PersonRef;
  gravity : float;
  tickerHandle : option IntervalId;
  serverTime : float;
  tickCallbacks : list TickCallback
}.

Module RoomFields.

Definition set_people (r : Room) (m : gmap string PersonRef) : Room :=
  {| people := m; gravity := gravity r; tickerHandle := tickerHandle r;
     serverTime := serverTime r; tickCallbacks := tickCallbacks r |}.
Definition set_tickerHandle (r : Room) (h : option IntervalId) : Room :=
  {| people := people r; gravity := gravity r; tickerHandle := h;
     serverTime := serverTime r; tickCallbacks := tickCallbacks r |}.
Definition set_serverTime (r : Room) (t : float) : Room :=
  {| people := people r; gravity := gravity r;
     tickerHandle := tickerHandle r; serverTime := t;
     tickCallbacks := tickCallbacks r |}.
Definition set_tickCallbacks (r : Room) (l : list TickCallback) : Room :=
  {| people := people r; gravity := gravity r;
     tickerHandle := tickerHandle r; serverTime := serverTime r;
     tickCallbacks := l |}.

End RoomFields.
Import RoomFields.

(** [new Room(gravity)]; the parameter defaults to 9.8. *)
Definition Room_new (g : option float) : Room :=
  {| people := ∅;
     gravity := default 0x1.399999999999ap+3%float g;
     tickerHandle := None;
     serverTime := 0;
     tickCallbacks := [] |}.

(** [onTick(callback)]. *)
Definition onTick (r : Room) (callback : TickCallback) : Room :=
  set_tickCallbacks r (tickCallbacks r ++ [callback]).

(** Two callbacks are the same function when they are the same closure. *)
Global Instance TickCallback_eq_dec : EqDecision TickCallback.
Proof. solve_decision. Defined.

(** [offTick(callback)]: keeps the callbacks that are [!= callback]. *)
Definition offTick (r : Room) (callback : TickCallback) : Room :=
  set_tickCallbacks r
    (filter (fun callback_ => callback_ <> callback) (tickCallbacks r)).

(** *** The body of [tick], Person by Person *)

(** First loop:
    [if (!person.flying) person.velocity.y -= gravity * TICK_LENGTH]. *)
Definition enact_force (g : float) (person : Person) : Person :=
  if flying person then person
  else set_velocity person
         (set_y (velocity person) (y (velocity person) - g * TICK_LENGTH)).

(** Second loop, the three [+=]. *)
Definition enact_velocity (person : Person) : Person :=
  let p1 := set_position person
              (set_x (position person)
                 (x (position person) + x (velocity person) * TICK_LENGTH)) in
  let p2 := set_position p1
              (set_y (position p1)
                 (y (position p1) + y (velocity p1) * TICK_LENGTH)) in
  set_position p2
    (set_z (position p2) (z (position p2) + z (velocity p2) * TICK_LENGTH)).

(** Second loop, the floor check. *)
Definition floor_check (person : Person) : Person :=
  if Number.lt (y (position person)) FLOOR_Y then
    let p1 := set_velocity person (set_y (velocity person) 0) in
    set_position p1 (set_y (position p1) FLOOR_Y)
  else person.

Definition move_person (person : Person) : Person :=
  floor_check (enact_velocity person).

(** [for (let person of Array.from(people.values())) { body }], the body
    writing to the visited Person only. The Map is walked in insertion order;
    [map_to_list] walks it in another one, which [visit_lookup] below shows
    to be immaterial. *)
Definition visit (body : Person -> Person) (refs : list PersonRef)
    (store : gmap PersonRef Person) : gmap PersonRef Person :=
  foldl (fun s l => alter body l s) store refs.

Definition values (m : gmap string PersonRef) : list PersonRef :=
  (map_to_list m).*2.

(** What [tick] does to the Persons: forces on all people, then velocities
    on all people. *)
Definition tick_people (room : Room) (store : gmap PersonRef Person)
    : gmap PersonRef Person :=
  let store1 :=
    visit (enact_force (gravity room)) (values (people room)) store in
  visit move_person (values (people room)) store1.

(** [this.serverTime += 1], in doubles. *)
Definition tick_time (room : Room) : Room :=
  set_serverTime room (serverTime room + 1)%float.


(** ** [index.ts] *)

(** The variables of one [io.on("connection", ...)] closure: [userID] and
    [person] are set once, [roomID] is assigned by the ["room"] handler. *)
Record Socket := {
  userID : string;
  roomID : string;
  person : PersonRef
}.

(** A timer made by [setInterval]: the Room whose [tick] it calls, and
    whether it is still running ([clearInterval] not yet called on it). *)
Record Interval := {
  target : RoomRef;
  running : bool
}.

(** The state of the process. [rooms] is the registry, [const rooms = new
    Map<string, Room>()]; the two stores hold the objects. *)
Record World := {
  rooms : gmap string RoomRef;
  room_store : gmap RoomRef Room;
  person_store : gmap PersonRef Person;
  sockets : gmap SocketId Socket;
  intervals : gmap IntervalId Interval
}.

Module WorldFields.

Definition set_rooms (w : World) (m : gmap string RoomRef) : World :=
  {| rooms := m; room_store := room_store w;
     person_store := person_store w; sockets := sockets w;
     intervals := intervals w |}.
Definition set_room_store (w : World) (m : gmap RoomRef Room) : World :=
  {| rooms := rooms w; room_store := m; person_store := person_store w;
     sockets := sockets w; intervals := intervals w |}.
Definition set_person_store (w : World) (m : gmap PersonRef Person) : World :=
  {| rooms := rooms w; room_store := room_store w; person_store := m;
     sockets := sockets w; intervals := intervals w |}.
Definition set_sockets (w : World) (m : gmap SocketId Socket) : World :=
  {| rooms := rooms w; room_store := room_store w;
     person_store := person_store w; sockets := m;
     intervals := intervals w |}.
Definition set_intervals (w : World) (m : gmap IntervalId Interval) : World :=
  {| rooms := rooms w; room_store := room_store w;
     person_store := person_store w; sockets := sockets w;
     intervals := m |}.
Definition set_roomID (c : Socket) (s : string) : Socket :=
  {| userID := userID c; roomID := s; person := person c |}.

End WorldFields.
Import WorldFields.

(** The process as it starts: an empty registry, no object, no socket. *)
Definition World_init : World :=
  {| rooms := ∅; room_store := ∅; person_store := ∅; sockets := ∅;
     intervals := ∅ |}.

(** What a function can throw: [new Error(message)], or the TypeError of a
    property read on [undefined]. *)
Inductive exn :=
  | Error (message : string)
  | TypeError.

(** How a function ends, with the state it leaves. An exception that leaves
    a handler or a timer is caught by nothing. *)
Inductive Result :=
  | Return (w : World)
  | Throw (e : exn) (w : World).

Definition world_of (r : Result) : World :=
  match r with
  | Return w | Throw _ w => w
  end.

(** Factory method for a person; every parameter has a default. *)
Definition createPerson (username : option string)
    (position velocity : option VRVector3D) (yaw pitch : option float)
    (flying : option bool) (color shape : option string) : Person :=
  {| VRChats.position := default {| x := 0; y := 0; z := 0 |} position;
     VRChats.velocity := default {| x := 0; y := 0; z := 0 |} velocity;
     VRChats.username := default "Person" username;
     VRChats.yaw := default 0%float yaw;
     VRChats.pitch := default 0%float pitch;
     VRChats.flying := default false flying;
     VRChats.color := default "#ff7700" color;
     VRChats.shape := default "cube" shape |}.

(** [new]: a Person object at an address no object has. *)
Definition new_person (w : World) (p : Person) : PersonRef * World :=
  let l := fresh (dom (person_store w)) in
  (l, set_person_store w (<[l := p]> (person_store w))).

(** [clearInterval(handle)]; nothing happens on [undefined]. *)
Definition clearInterval (w : World) (handle : option IntervalId) : World :=
  match handle with
  | Some h =>
      set_intervals w
        (alter (fun i => {| target := target i; running := false |}) h
           (intervals w))
  | None => w
  end.

(** [Room.start]: [this.tickerHandle = setInterval(() => this.tick(), ...)]. *)
Definition start (w : World) (r : RoomRef) : World :=
  let h := fresh (dom (intervals w)) in
  let w1 := set_intervals w
              (<[h := {| target := r; running := true |}]> (intervals w)) in
  set_room_store w1
    (alter (fun room => set_tickerHandle room (Some h)) r (room_store w1)).

(** [Room.stop]: [clearInterval(this.tickerHandle)]. *)
Definition stop (w : World) (r : RoomRef) : World :=
  match room_store w !! r with
  | Some room => clearInterval w (tickerHandle room)
  | None => w
  end.

(** The callback of the ["room"] handler. When [room.serverTime % 2 === 0]
    it reads
    [rooms.get(roomID).people], [roomID] being the variable of the socket
    that built it: a TypeError when that id is not registered. What it sends
    is the transport's; [true] when it returns. *)
Definition run_callback (w : World) (room : Room) (fn : TickCallback) : bool :=
  match fn with
  | SendRoomInfo s =>
      if Number.strict_eq (Number.remainder (serverTime room) 2) 0 then
        match sockets w !! s with
        | Some c => bool_decide (is_Some (rooms w !! roomID c))
        | None => true
        end
      else true
  end.

(** [Room.tick] on the Room at [r]: the two loops, the clock, the callbacks. *)
Definition tick (w : World) (r : RoomRef) : Result :=
  match room_store w !! r with
  | Some room =>
      let w1 := set_person_store w (tick_people room (person_store w)) in
      let w2 := set_room_store w1 (<[r := tick_time room]> (room_store w1)) in
      if forallb (run_callback w2 (tick_time room)) (tickCallbacks room)
      then Return w2
      else Throw TypeError w2
  | None => Return w
  end.

Section Program.

(** [GRAVITY.EARTH] of ["./gravity"], a module that is not among the
    sources, and the two library functions [Math.cos] and [Math.sin], whose
    results the language leaves to the implementation. *)
Variable DEFAULT_GRAVITY : float.
Variables Math_cos Math_sin : float -> float.

(** *** The registry *)

(** Adds a user with a given id to a room with a given id. The Person
    defaults to [createPerson()], made before the body runs. *)
Definition addToRoom (w : World) (roomId userId : string)
    (person : option PersonRef) : Result :=
  let '(l, w1) :=
    match person with
    | Some l => (l, w)
    | None =>
        new_person w (createPerson None None None None None None None None)
    end in
  match rooms w1 !! roomId with
  | None => Throw (Error ("Room does not exist: " ++ roomId)) w1
  | Some r =>
      Return
        (set_room_store w1
           (alter (fun room => set_people room (<[userId := l]> (people room)))
              r (room_store w1)))
  end.

(** Cleans up all room physics, and removes from the room registry. *)
Definition removeRoom (w : World) (roomId : string) : World :=
  match rooms w !! roomId with
  | Some r =>
      let w1 := stop w r in
      set_rooms w1 (delete roomId (rooms w1))
  | None => w
  end.

(** Removes a user with a given id from a room with a given id. *)
Definition removeFromRoom (w : World) (roomId userId : string) : World :=
  match rooms w !! roomId with
  | Some r =>
      let w1 :=
        set_room_store w
          (alter (fun room => set_people room (delete userId (people room)))
             r (room_store w)) in
      match room_store w1 !! r with
      | Some room =>
          if bool_decide (size (people room) = 0) then removeRoom w1 roomId
          else w1
      | None => w1
      end
  | None => w
  end.

(** *** The handlers of a socket, on its Person *)

(** ["set-flying"] *)
Definition set_flying_event (flying : bool) (person : Person) : Person :=
  set_flying person flying.

(** ["jump"]; the speed defaults to 2. *)
Definition jump_event (speed : option float) (person : Person) : Person :=
  set_velocity person (set_y (velocity person) (default 2%float speed)).

(** ["fly"]: [person.position.y += magnitude]. *)
Definition fly_event (magnitude : float) (person : Person) : Person :=
  set_position person
    (set_y (position person) (y (position person) + magnitude)).

(** ["color"] and ["shape"] *)
Definition color_event (color : string) (person : Person) : Person :=
  set_color person color.
Definition shape_event (shape : string) (person : Person) : Person :=
  set_shape person shape.

(** ["move-forwards-backwards"]: dZ = cos(Yaw), dX = -sin(Yaw). *)
Definition move_forwards_backwards_event (magnitude : float)
    (person : Person) : Person :=
  let p1 := set_position person
              (set_z (position person)
                 (z (position person) + magnitude * Math_cos (yaw person))) in
  set_position p1
    (set_x (position p1)
       (x (position p1) - magnitude * Math_sin (yaw p1))).

(** ["move-right-left"]: dZ = sin(Yaw), dX = cos(Yaw). *)
Definition move_right_left_event (magnitude : float)
    (person : Person) : Person :=
  let p1 := set_position person
              (set_z (position person)
                 (z (position person) + magnitude * Math_sin (yaw person))) in
  set_position p1
    (set_x (position p1)
       (x (position p1) + magnitude * Math_cos (yaw p1))).

(** ["rotate-counterclockwise"] *)
Definition rotate_counterclockwise_event (radians : float)
    (person : Person) : Person :=
  let p1 := set_yaw person (yaw person + radians) in
  if Number.gt (yaw p1) (Math_PI * 2) then
    set_yaw p1 (Number.remainder (yaw p1) Math_PI * 2)
  else p1.

(** ["set-yaw"] and ["set-pitch"] *)
Definition set_yaw_event (yaw : float) (person : Person) : Person :=
  set_yaw person yaw.
Definition set_pitch_event (pitch : float) (person : Person) : Person :=
  set_pitch person pitch.

(** A handler that writes to the [person] of its closure. *)
Definition on_person (w : World) (s : SocketId) (f : Person -> Person)
    : World :=
  match sockets w !! s with
  | Some c => set_person_store w (alter f (person c) (person_store w))
  | None => w
  end.

(** *** The handlers that go through the registry *)

(** [io.on("connection")]: [userID = uuidv4()], [roomID = ""],
    [person = createPerson(userID)]. The identifier drawn is an input. *)
Definition on_connection (w : World) (uuid : string) : World :=
  let '(l, w1) :=
    new_person w
      (createPerson (Some uuid) None None None None None None None) in
  let s := fresh (dom (sockets w1)) in
  set_sockets w1
    (<[s := {| userID := uuid; roomID := ""; person := l |}]> (sockets w1)).

(** ["room"]: leave the old room if [roomID] is truthy, set [roomID], create
    and start the Room when the registry has none under that id, add the
    Person. *)
Definition on_room (w : World) (s : SocketId) (roomID_ : string) : Result :=
  match sockets w !! s with
  | Some c =>
      let w1 := if bool_decide (roomID c = "") then w
                else removeFromRoom w (roomID c) (userID c) in
      let w2 := set_sockets w1 (<[s := set_roomID c roomID_]> (sockets w1)) in
      let w3 :=
        match rooms w2 !! roomID_ with
        | Some _ => w2
        | None =>
            let r := fresh (dom (room_store w2)) in
            let room := onTick (Room_new (Some DEFAULT_GRAVITY))
                          (SendRoomInfo s) in
            let w21 := set_room_store w2 (<[r := room]> (room_store w2)) in
            let w22 := start w21 r in
            set_rooms w22 (<[roomID_ := r]> (rooms w22))
        end in
      addToRoom w3 roomID_ (userID c) (Some (person c))
  | None => Return w
  end.

(** ["disconnect"] *)
Definition on_disconnect (w : World) (s : SocketId) : World :=
  match sockets w !! s with
  | Some c => removeFromRoom w (roomID c) (userID c)
  | None => w
  end.

(** ["username"]: [if (roomID) rooms[roomID].people.get(userID).username =
    username]. [rooms] is the [Map] and [rooms[roomID]] reads a property of
    that object, not an entry of the map: it is [undefined], or a member of
    [Map.prototype] when [roomID] is such a name, which has no [people];
    the chain of reads throws a TypeError either way, before any write. *)
Definition on_username (w : World) (s : SocketId) (username : string)
    : Result :=
  match sockets w !! s with
  | Some c => if bool_decide (roomID c = "") then Return w
              else Throw TypeError w
  | None => Return w
  end.

(** *** The process *)

(** What the event loop delivers: a new connection, a message of a socket,
    or a timer that fires. *)
Inductive Event :=
  | Connection (uuid : string)
  | OnRoom (s : SocketId) (roomID_ : string)
  | OnDisconnect (s : SocketId)
  | OnSetFlying (s : SocketId) (flying : bool)
  | OnJump (s : SocketId) (speed : option float)
  | OnFly (s : SocketId) (magnitude : float)
  | OnColor (s : SocketId) (color : string)
  | OnShape (s : SocketId) (shape : string)
  | OnMoveForwardsBackwards (s : SocketId) (magnitude : float)
  | OnMoveRightLeft (s : SocketId) (magnitude : float)
  | OnRotateCounterclockwise (s : SocketId) (radians : float)
  | OnSetYaw (s : SocketId) (yaw : float)
  | OnSetPitch (s : SocketId) (pitch : float)
  | OnUsername (s : SocketId) (username : string)
  | IntervalFires (h : IntervalId).

(** The Room a timer ticks when it fires: none once it is cleared. *)
Definition ticked (w : World) (e : Event) : option RoomRef :=
  match e with
  | IntervalFires h =>
      match intervals w !! h with
      | Some i => if running i then Some (target i) else None
      | None => None
      end
  | _ => None
  end.

(** One turn of the event loop. An event that cannot occur (a socket that
    does not exist, a timer that is cleared) leaves the state as it is. *)
Definition step (w : World) (e : Event) : Result :=
  match e with
  | Connection uuid => Return (on_connection w uuid)
  | OnRoom s roomID_ => on_room w s roomID_
  | OnDisconnect s => Return (on_disconnect w s)
  | OnSetFlying s b => Return (on_person w s (set_flying_event b))
  | OnJump s speed => Return (on_person w s (jump_event speed))
  | OnFly s m => Return (on_person w s (fly_event m))
  | OnColor s c => Return (on_person w s (color_event c))
  | OnShape s c => Return (on_person w s (shape_event c))
  | OnMoveForwardsBackwards s m =>
      Return (on_person w s (move_forwards_backwards_event m))
  | OnMoveRightLeft s m => Return (on_person w s (move_right_left_event m))
  | OnRotateCounterclockwise s a =>
      Return (on_person w s (rotate_counterclockwise_event a))
  | OnSetYaw s a => Return (on_person w s (set_yaw_event a))
  | OnSetPitch s a => Return (on_person w s (set_pitch_event a))
  | OnUsername s name => on_username w s name
  | IntervalFires h =>
      match ticked w e with
      | Some r => tick w r
      | None => Return w
      end
  end.

(** A run of the process: it ends at the first exception. *)
Fixpoint run (w : World) (es : list Event) : Result :=
  match es with
  | [] => Return w
  | e :: es' =>
      match step w e with
      | Return w' => run w' es'
      | Throw x w' => Throw x w'
      end
  end.

End Program.

(** ** Notions the statements below use *)

(** How many times a loop over [refs] visits the Person at [l]. *)
Definition visits (l : PersonRef) (refs : list PersonRef) : nat :=
  length (filter (eq l) refs).

(** No Person object sits in the room under two user ids. *)
Definition distinct_persons (room : Room) : Prop :=
  forall k1 k2 l,
    people room !! k1 = Some l -> people room !! k2 = Some l -> k1 = k2.

(** One tick as a Person visited once by each loop goes through it. *)
Definition tick_person (g : float) (person : Person) : Person :=
  move_person (enact_force g person).

(** The floor check of that tick fires: the [position.y] that the
    integration leaves is below the floor. *)
Definition clamped (g : float) (person : Person) : bool :=
  Number.lt (y (position (enact_velocity (enact_force g person)))) FLOOR_Y.

(** The floor check fires in none of the next [n] ticks. *)
Fixpoint never_clamped (g : float) (n : nat) (person : Person) : bool :=
  match n with
  | O => true
  | S n' => negb (clamped g person) && never_clamped g n' (tick_person g person)
  end.

(** [n] consecutive ticks of the Room at [r], nothing in between. *)
Definition ticks (n : nat) (w : World) (r : RoomRef) : World :=
  Nat.iter n (fun w' => world_of (tick w' r)) w.

(** [n] times [v -= d]. *)
Definition repeat_sub (n : nat) (d v : float) : float :=
  Nat.iter n (fun v' => (v' - d)%float) v.

(** The fields no statement of [tick] assigns to. *)
Definition kept (p p' : Person) : Prop :=
  x (velocity p') = x (velocity p) /\ z (velocity p') = z (velocity p) /\
  yaw p' = yaw p /\ pitch p' = pitch p /\ username p' = username p /\
  flying p' = flying p /\ color p' = color p /\ shape p' = shape p.

(** *** Doubles as exact numbers *)

(** The value of a finite double, in quanta: every finite double is a whole
    multiple of [2 ^ -1074], the smallest positive one. Infinities and NaN
    have none. *)
Definition SFquanta (x : spec_float) : option Z :=
  match x with
  | S754_zero _ => Some 0%Z
  | S754_finite s m e => Some (cond_Zopp s (Z.pos m * 2 ^ (e + 1074)))%Z
  | _ => None
  end.

Definition quanta (x : float) : option Z := SFquanta (Prim2SF x).

(** [V] quanta are a double: an integer of at most 53 bits, scaled. *)
Definition representable (V : Z) : Prop :=
  exists q t, (0 < q < 2 ^ 53 /\ 0 <= t /\ V = q * 2 ^ t)%Z.

(** What an addition or a subtraction returns, against its exact result of
    [V] quanta: a double within [2 ^ -53] of it in relative terms, the very
    result when that is a double; an infinity only when [V] is beyond the
    doubles. *)
Definition rounds (V : Z) (r : option Z) : Prop :=
  match r with
  | Some c =>
      (2 ^ 53 * Z.abs (c - V) <= Z.abs V)%Z /\
      (representable (Z.abs V) -> c = V)
  | None => representable (Z.abs V) -> (2 ^ 2098 <= Z.abs V)%Z
  end.

(** What [j] right shifts leave of [M] in a record of [shr]: the bits that
    remain, and of the bits [R] shifted out whether they reach one half and
    whether they are anything else than zero or one half. *)
Definition shr_inv (M j : Z) (mrs : shr_record) : Prop :=
  (0 <= shr_m mrs)%Z /\
  exists R, (0 <= R < 2 ^ j)%Z /\ (M = shr_m mrs * 2 ^ j + R)%Z /\
    (shr_r mrs = true <-> (2 ^ j <= 2 * R)%Z) /\
    (shr_s mrs = true <-> R <> 0%Z /\ (2 * R)%Z <> (2 ^ j)%Z).

(** The double of the integer [n], for [0 <= n < 2 ^ 63]. *)
Definition count (n : Z) : float := PrimFloat.of_uint63 (Uint63.of_Z n).

(** [v] and the next [n] results of [v -= d] are finite and at most [B]
    quanta in magnitude. *)
Fixpoint bounded_by (B : Z) (n : nat) (d v : float) : bool :=
  match quanta v with
  | Some f => (Z.abs f <=? B)%Z
  | None => false
  end &&
  match n with
  | O => true
  | S n' => bounded_by B n' d (v - d)
  end.

(** *** The clock of a Room *)

(** The methods of the class [Room]. *)
Inductive RoomOp :=
  | Start
  | Stop
  | Tick
  | OnTick (callback : TickCallback)
  | OffTick (callback : TickCallback).

(** A call of a method on the Room at [r]; there is no call without the
    object. *)
Definition room_op (w : World) (r : RoomRef) (op : RoomOp) : Result :=
  match room_store w !! r with
  | Some room =>
      match op with
      | Start => Return (start w r)
      | Stop => Return (stop w r)
      | Tick => tick w r
      | OnTick callback =>
          Return (set_room_store w
                    (<[r := onTick room callback]> (room_store w)))
      | OffTick callback =>
          Return (set_room_store w
                    (<[r := offTick room callback]> (room_store w)))
      end
  | None => Return w
  end.

(** What can happen to the state: a method of some Room is called, or the
    event loop delivers an event. *)
Inductive Action :=
  | Method (r : RoomRef) (op : RoomOp)
  | Deliver (e : Event).

Definition act (g : float) (cos sin : float -> float) (w : World)
    (a : Action) : Result :=
  match a with
  | Method r op => room_op w r op
  | Deliver e => step g cos sin w e
  end.

(** Any sequence of them, an exception ending the action that throws it and
    nothing else. *)
Definition acts (g : float) (cos sin : float -> float) (w : World)
    (l : list Action) : World :=
  foldl (fun w' a => world_of (act g cos sin w' a)) w l.

(** The Room has been ticked [n] times since it was made, or more than
    [2 ^ 53] times when [n] is [2 ^ 53]. *)
Definition clock_at (n : Z) (room : Room) : Prop :=
  (0 <= n <= 2 ^ 53)%Z /\ serverTime room = count n.

(** The clock of every Room of the store is a count. *)
Definition counted (s : gmap RoomRef Room) : Prop :=
  forall r room, s !! r = Some room -> exists n, clock_at n room.

(** Every Room of the first store is in the second, its clock not behind. *)
Definition clock_advances (s s' : gmap RoomRef Room) : Prop :=
  forall r room n, s !! r = Some room -> clock_at n room ->
    exists room' n', s' !! r = Some room' /\ clock_at n' room' /\
                     (n <= n')%Z.

(** The registry, the Rooms and the timers agree: a registered Room holds the
    handle of a running timer that ticks it; no Room is registered twice;
    and a running timer ticks a registered Room, which holds its handle. *)
Definition Timers_ok (w : World) : Prop :=
  (forall name r,
     rooms w !! name = Some r ->
     exists room h,
       room_store w !! r = Some room /\ tickerHandle room = Some h /\
       intervals w !! h = Some {| target := r; running := true |}) /\
  (forall n1 n2 r,
     rooms w !! n1 = Some r -> rooms w !! n2 = Some r -> n1 = n2) /\
  (forall h i,
     intervals w !! h = Some i -> running i = true ->
     exists name room,
       rooms w !! name = Some (target i) /\
       room_store w !! target i = Some room /\
       tickerHandle room = Some h).

(** No registered Room is empty. *)
Definition inhabited (w : World) : Prop :=
  forall name r room,
    rooms w !! name = Some r -> room_store w !! r = Some room ->
    people room <> ∅.

(** Every entry of a Room is the [userID] and the [person] of a socket; the
    sockets have a Person each, which is in the store. *)
Definition Sockets_ok (w : World) : Prop :=
  (forall r room k l,
     room_store w !! r = Some room -> people room !! k = Some l ->
     exists s c, sockets w !! s = Some c /\ userID c = k /\ person c = l) /\
  (forall s1 s2 c1 c2,
     sockets w !! s1 = Some c1 -> sockets w !! s2 = Some c2 ->
     person c1 = person c2 -> s1 = s2) /\
  (forall s c, sockets w !! s = Some c -> is_Some (person_store w !! person c)).

(** What holds between two turns of the event loop. *)
Definition World_ok (w : World) : Prop :=
  Timers_ok w /\ inhabited w /\ Sockets_ok w.

(** The Room at [r] is out of the program: no id of the registry names it
    and no timer ticks it. *)
Definition discarded (w : World) (r : RoomRef) : Prop :=
  is_Some (room_store w !! r) /\
  (forall name, rooms w !! name <> Some r) /\
  (forall h i, intervals w !! h = Some i -> running i = true ->
               target i <> r).

(** The Room that [removeFromRoom] leaves at the address. *)
Definition without (userId : string) (room : Room) : Room :=
  set_people room (delete userId (people room)).

(** ** Examples the statements are tried on *)

(** The gravity of the Earth, 9.8, for [GRAVITY.EARTH]; and [Math.cos] and
    [Math.sin] at the yaw 0, the only yaw of these examples. *)
Definition EARTH : float := 0x1.399999999999ap+3%float.
Definition cos0 (yaw : float) : float := 1%float.
Definition sin0 (yaw : float) : float := 0%float.

(** One connection, with the identifier ["u1"], joins the room ["A"]. *)
Definition joining : list Event := [Connection "u1"; OnRoom 1 "A"].

Definition joined_person : Person :=
  createPerson (Some "u1") None None None None None None None.

Definition joined_socket : Socket :=
  {| userID := "u1"; roomID := "A"; person := 1 |}.

Definition joined_room : Room :=
  {| people := {["u1" := 1%positive]};
     gravity := EARTH;
     tickerHandle := Some 1%positive;
     serverTime := 0;
     tickCallbacks := [SendRoomInfo 1] |}.

Definition joined_world : World :=
  {| rooms := {["A" := 1%positive]};
     room_store := {[1%positive := joined_room]};
     person_store := {[1%positive := joined_person]};
     sockets := {[1%positive := joined_socket]};
     intervals := {[1%positive := {| target := 1; running := true |}]} |}.

(** The same world with the Person moved: where a ["fly"] event with the
    magnitude [m] leaves it. *)
Definition flown_person (m : float) : Person :=
  set_position joined_person (set_y (position joined_person) m).

Definition flown_world (m : float) : World :=
  set_person_store joined_world {[1%positive := flown_person m]}.

(** [n] times [a += d]. *)
Definition repeat_add (n : nat) (d a : float) : float :=
  Nat.iter n (fun a' => (a' + d)%float) a.

(** The events whose handler only writes to the [person] of its closure,
    with the socket and what the handler does to the Person. *)
Definition person_event (Math_cos Math_sin : float -> float) (e : Event)
    : option (SocketId * (Person -> Person)) :=
  match e with
  | OnSetFlying s b => Some (s, set_flying_event b)
  | OnJump s speed => Some (s, jump_event speed)
  | OnFly s m => Some (s, fly_event m)
  | OnColor s c => Some (s, color_event c)
  | OnShape s c => Some (s, shape_event c)
  | OnMoveForwardsBackwards s m =>
      Some (s, move_forwards_backwards_event Math_cos Math_sin m)
  | OnMoveRightLeft s m =>
      Some (s, move_right_left_event Math_cos Math_sin m)
  | OnRotateCounterclockwise s a => Some (s, rotate_counterclockwise_event a)
  | OnSetYaw s a => Some (s, set_yaw_event a)
  | OnSetPitch s a => Some (s, set_pitch_event a)
  | Connection _ | OnRoom _ _ | OnDisconnect _ | OnUsername _ _
  | IntervalFires _ => None
  end.

(** What the callback of the ["room"] handler sends when it returns: when
    [serverTime % 2 === 0], one ["person-update"] for each entry of
    [rooms.get(roomID).people], to the sockets that are in [roomID]; each is
    given as the id it is sent to, the user id and the Person. *)
Definition callback_sends (w : World) (room : Room) (fn : TickCallback)
    : list (string * string * PersonRef) :=
  match fn with
  | SendRoomInfo s =>
      if Number.strict_eq (Number.remainder (serverTime room) 2) 0 then
        match sockets w !! s with
        | Some c =>
            match rooms w !! roomID c with
            | Some r' =>
                match room_store w !! r' with
                | Some room' =>
                    (fun e => (roomID c, e.1, e.2))
                      <$> map_to_list (people room')
                | None => []
                end
            | None => []
            end
        | None => []
        end
      else []
  end.

(** The state that a run of these examples reaches. *)
Definition reached (es : list Event) : World :=
  world_of (run EARTH cos0 sin0 World_init es).

(** A Room made and not started. *)
Definition made_world : World :=
  set_room_store World_init {[1%positive := Room_new None]}.

(** A second connection joins ["A"]; then the first moves to ["B"]; then it
    disconnects and the timer of ["A"] fires once. *)
Definition sharing : list Event :=
  joining ++ [Connection "u2"; OnRoom 2 "A"].
Definition moving : list Event := sharing ++ [OnRoom 1 "B"].
Definition abandoning : list Event :=
  moving ++ [OnDisconnect 1; IntervalFires 1].

Definition shared_room : Room :=
  {| people := {["u1" := 1%positive; "u2" := 2%positive]};
     gravity := EARTH;
     tickerHandle := Some 1%positive;
     serverTime := 0;
     tickCallbacks := [SendRoomInfo 1] |}.

Definition left_room (t : float) : Room :=
  {| people := {["u2" := 2%positive]};
     gravity := EARTH;
     tickerHandle := Some 1%positive;
     serverTime := t;
     tickCallbacks := [SendRoomInfo 1] |}.

Definition moved_socket : Socket :=
  {| userID := "u1"; roomID := "B"; person := 1 |}.

(** The Person of ["u1"] after [jump(2 ^ 53)] and [fly(2 ^ 110)]. *)
Definition heavy_person : Person :=
  set_position
    (set_velocity joined_person (set_y (velocity joined_person) 0x1p+53))
    (set_y (position joined_person) 0x1p+110).

Definition heavy_world : World :=
  set_person_store joined_world {[1%positive := heavy_person]}.

(** The Person of ["u1"] after [set-flying(true)] and [jump(3)]. *)
Definition hovering_person : Person :=
  set_velocity (set_flying joined_person true)
    (set_y (velocity joined_person) 3).

Definition hovering_world : World :=
  set_person_store joined_world {[1%positive := hovering_person]}.

(** The Room of ["A"] with a clock of [2 ^ 53], 9007199254740992. *)
Definition aged_room : Room := set_serverTime joined_room 0x1p+53.

Definition aged_world : World :=
  set_room_store joined_world {[1%positive := aged_room]}.

(** The Person of ["u1"] with a velocity along x and z. *)
Definition drifting_person : Person :=
  set_velocity joined_person {| x := 3; y := 0; z := -3 |}.

Definition drifting_world : World :=
  set_person_store joined_world {[1%positive := drifting_person]}.

(** * Properties *)

(** ** Doubles as exact numbers *)

Section Doubles.
Local Open Scope Z_scope.

(** *** The number of bits of a mantissa *)

Lemma digits2_size p : digits2_pos p = Pos.size p.
Proof. induction p; simpl; congruence. Qed.

Lemma Zdigits2_log2 p : Zdigits2 (Z.pos p) = Z.log2 (Z.pos p) + 1.
Proof. simpl. rewrite digits2_size. destruct p; simpl; lia. Qed.

Lemma Zdigits2_spec M :
  0 < M -> 2 ^ (Zdigits2 M - 1) <= M < 2 ^ Zdigits2 M.
Proof.
  intros HM. destruct M as [|p|p]; try lia.
  rewrite Zdigits2_log2.
  replace (Z.log2 (Z.pos p) + 1 - 1) with (Z.log2 (Z.pos p)) by lia.
  replace (Z.log2 (Z.pos p) + 1) with (Z.succ (Z.log2 (Z.pos p))) by lia.
  apply Z.log2_spec. lia.
Qed.

Lemma Zdigits2_unique M d :
  2 ^ (d - 1) <= M < 2 ^ d -> 0 < M -> Zdigits2 M = d.
Proof.
  intros H HM. destruct M as [|p|p]; try lia.
  rewrite Zdigits2_log2.
  assert (0 <= d - 1).
  { destruct (Z_lt_le_dec (d - 1) 0) as [Hd|Hd]; [|lia].
    assert (d <= 0) by lia.
    assert (2 ^ d <= 1); [|lia].
    destruct (Z.eq_dec d 0) as [->|]; [simpl; lia|].
    rewrite Z.pow_neg_r by lia. lia. }
  rewrite (Z.log2_unique (Z.pos p) (d - 1)); try lia.
  replace (Z.succ (d - 1)) with d by lia. done.
Qed.

(** *** Shifting right and rounding to nearest, ties to even *)

Lemma shr_1_inv M j mrs :
  0 <= j -> shr_inv M j mrs -> shr_inv M (j + 1) (shr_1 mrs).
Proof.
  intros Hj (Hm & R & HR & HM & Hr & Hs). unfold shr_inv.
  destruct mrs as [m r s]. simpl in *.
  assert (0 < 2 ^ j) as HP by (apply Z.pow_pos_nonneg; lia).
  rewrite Z.pow_add_r by lia. change (2 ^ 1) with 2.
  assert (r || s = true <-> R <> 0) as Hrs.
  { rewrite orb_true_iff, Hr, Hs. lia. }
  destruct m as [|[p|p|]|p]; simpl; try lia.
  - split; [lia|]. exists R. rewrite Hrs. lia.
  - split; [lia|]. exists (2 ^ j + R). rewrite Hrs. lia.
  - split; [lia|]. exists R. rewrite Hrs. lia.
  - split; [lia|]. exists (2 ^ j + R). rewrite Hrs. lia.
Qed.

Lemma iter_pos_inv {A} (f : A -> A) (P : Z -> A -> Prop) :
  (forall j x, 0 <= j -> P j x -> P (j + 1) (f x)) ->
  forall p j x, 0 <= j -> P j x -> P (j + Z.pos p) (@SpecFloat.iter_pos A f p x).
Proof.
  intros Hf p. induction p as [p IH|p IH|]; intros j x Hj Hx; simpl.
  - replace (j + Z.pos p~1) with (j + 1 + Z.pos p + Z.pos p) by lia.
    apply IH; [lia|]. apply IH; [lia|]. by apply Hf.
  - replace (j + Z.pos p~0) with (j + Z.pos p + Z.pos p) by lia.
    apply IH; [lia|]. by apply IH.
  - by apply Hf.
Qed.

Lemma shr_inv_0 M : 0 <= M -> shr_inv M 0 (shr_record_of_loc M loc_Exact).
Proof. intros HM. split; [done|]. exists 0. simpl. lia. Qed.

(** Rounding to nearest, ties to even, after [j] shifts. *)
Lemma round_nearest_even_inv M j mrs :
  0 <= j -> shr_inv M j mrs ->
  let m2 := round_nearest_even (shr_m mrs) (loc_of_shr_record mrs) in
  shr_m mrs <= m2 <= shr_m mrs + 1 /\
  2 * Z.abs (m2 * 2 ^ j - M) <= 2 ^ j /\
  ((2 ^ j | M) -> m2 * 2 ^ j = M).
Proof.
  intros Hj (Hm & R & HR & HM & Hr & Hs).
  destruct mrs as [m r s]. simpl in *.
  assert (0 < 2 ^ j) as HP by (apply Z.pow_pos_nonneg; lia).
  assert ((2 ^ j | M) -> R = 0) as Hdiv.
  { intros [c Hc]. assert (R = (c - m) * 2 ^ j) as HRc by lia.
    assert (0 <= c - m < 1); [nia|]. assert (c - m = 0) as H0 by lia.
    rewrite H0 in HRc. lia. }
  destruct r, s; simpl.
  - assert (2 ^ j <= 2 * R) by (by apply Hr).
    assert (R <> 0 /\ 2 * R <> 2 ^ j) by (by apply Hs).
    split; [lia|]. split; [lia|]. intros HD. apply Hdiv in HD. lia.
  - assert (2 ^ j <= 2 * R) by (by apply Hr).
    assert (~ (R <> 0 /\ 2 * R <> 2 ^ j)) by (rewrite <- Hs; done).
    destruct (Z.even m); (split; [lia|]; split; [lia|]);
      intros HD; apply Hdiv in HD; lia.
  - assert (~ 2 ^ j <= 2 * R) by (rewrite <- Hr; done).
    split; [lia|]. split; [lia|]. intros HD. apply Hdiv in HD. lia.
  - assert (~ 2 ^ j <= 2 * R) by (rewrite <- Hr; done).
    assert (~ (R <> 0 /\ 2 * R <> 2 ^ j)) by (rewrite <- Hs; done).
    split; [lia|]. split; [lia|]. intros HD. lia.
Qed.

(** The exponent that a binary64 value of [e] bits above the quantum of
    its mantissa takes. *)
Lemma fexp_eq e : fexp prec emax e = Z.max (e - 53) (-1074).
Proof. reflexivity. Qed.

Lemma shr_fexp_spec M e :
  0 < M -> -1074 <= e ->
  exists mrs,
    shr_fexp prec emax M e loc_Exact
      = (mrs, e + Z.max 0 (Zdigits2 M - 53)) /\
    shr_inv M (Z.max 0 (Zdigits2 M - 53)) mrs.
Proof.
  intros HM He. unfold shr_fexp, shr. rewrite fexp_eq.
  pose proof (shr_inv_0 M ltac:(lia)) as H0.
  destruct (Z.max (Zdigits2 M + e - 53) (-1074) - e) as [|p|p] eqn:Hn.
  - exists (shr_record_of_loc M loc_Exact).
    replace (Z.max 0 (Zdigits2 M - 53)) with 0 by lia.
    by rewrite Z.add_0_r.
  - eexists. split.
    + f_equal. lia.
    + replace (Z.max 0 (Zdigits2 M - 53)) with (0 + Z.pos p) by lia.
      apply (iter_pos_inv shr_1 (shr_inv M)); [|lia|done].
      intros. by apply shr_1_inv.
  - exists (shr_record_of_loc M loc_Exact).
    replace (Z.max 0 (Zdigits2 M - 53)) with 0 by lia.
    by rewrite Z.add_0_r.
Qed.

(** Rounding [M * 2 ^ e]: the result is within [2 ^ -53] of it in relative
    terms, and is [M * 2 ^ e] when that has at most 53 bits. *)
Lemma binary_round_aux_spec s M e :
  0 < M -> -1074 <= e ->
  exists m' e',
    binary_round_aux prec emax s M e loc_Exact =
      (if e' <=? 971 then S754_finite s m' e' else S754_infinity s) /\
    e <= e' /\
    2 ^ 53 * Z.abs (Z.pos m' * 2 ^ (e' - e) - M) <= M /\
    ((2 ^ Z.max 0 (Zdigits2 M - 53) | M) -> Z.pos m' * 2 ^ (e' - e) = M) /\
    (e' = e \/ 2 ^ 52 <= Z.pos m').
Proof.
  intros HM He.
  destruct (shr_fexp_spec M e HM He) as (mrs & Heq & Hinv).
  unfold binary_round_aux. rewrite Heq.
  set (k := Z.max 0 (Zdigits2 M - 53)) in *.
  assert (0 <= k) as Hk by lia.
  destruct (round_nearest_even_inv M k mrs Hk Hinv) as (Hm2 & Herr & Hex).
  set (m2 := round_nearest_even (shr_m mrs) (loc_of_shr_record mrs)) in *.
  destruct Hinv as (Hm1 & R & HR & HMR & _).
  pose proof (Zdigits2_spec M HM) as Hd.
  assert (0 < 2 ^ k) as HP by (apply Z.pow_pos_nonneg; lia).
  assert (0 < m2 /\ (k = 0 -> m2 = M) /\
          (0 < k -> 2 ^ 52 <= m2 <= 2 ^ 53 /\ 2 ^ 52 * 2 ^ k <= M))
    as (Hm2p & Hk0 & Hkp).
  { destruct (Z.eq_dec k 0) as [Hz|Hz].
    - rewrite Hz in *. change (2 ^ 0) with 1 in *.
      assert (m2 = M) by (rewrite <- Hex; [lia | apply Z.divide_1_l]).
      split; [lia|]. split; [done|]. lia.
    - assert (Zdigits2 M = k + 53) as HdM by lia.
      rewrite HdM in Hd.
      replace (k + 53 - 1) with (52 + k) in Hd by lia.
      replace (k + 53) with (53 + k) in Hd by lia.
      rewrite !Z.pow_add_r in Hd by lia.
      assert (2 ^ 52 <= shr_m mrs < 2 ^ 53) by nia.
      split; [lia|]. split; [lia|]. intros _. split; [lia|]. lia. }
  destruct (shr_fexp_spec m2 (e + k) Hm2p ltac:(lia)) as (mrs2 & Heq2 & Hinv2).
  rewrite Heq2.
  set (k2 := Z.max 0 (Zdigits2 m2 - 53)) in *.
  destruct Hinv2 as (Hm3 & R2 & HR2 & HMR2 & _).
  assert (k2 = 0 /\ shr_m mrs2 = m2 \/
          k2 = 1 /\ 0 < k /\ m2 = 2 ^ 53 /\ shr_m mrs2 = 2 ^ 52) as Hcase.
  { destruct (Z.eq_dec k 0) as [Hz|Hz].
    - left. assert (m2 = M) as HmM by (by apply Hk0).
      assert (k2 = 0) as Hk2.
      { unfold k2. rewrite HmM. lia. }
      split; [done|]. rewrite Hk2 in *. change (2 ^ 0) with 1 in *. lia.
    - destruct (Hkp ltac:(lia)) as (Hr2 & _).
      destruct (Z.eq_dec m2 (2 ^ 53)) as [He2|He2].
      + right. assert (k2 = 1) as Hk2.
        { unfold k2. rewrite He2. reflexivity. }
        rewrite Hk2 in *. change (2 ^ 1) with 2 in *.
        split; [done|]. split; [lia|]. split; [done|]. lia.
      + left. assert (Zdigits2 m2 = 53) as Hd2.
        { apply Zdigits2_unique; [|lia]. change (53 - 1) with 52. lia. }
        assert (k2 = 0) as Hk2 by (unfold k2; lia).
        split; [done|]. rewrite Hk2 in *. change (2 ^ 0) with 1 in *. lia. }
  assert (0 < shr_m mrs2) as Hpos.
  { destruct Hcase as [(_ & ->)|(_ & _ & _ & ->)]; lia. }
  destruct (shr_m mrs2) as [|m3|m3] eqn:Hm3eq; try lia.
  exists m3, (e + k + k2).
  split; [reflexivity|]. split; [lia|].
  replace (e + k + k2 - e) with (k + k2) by lia.
  assert (Z.pos m3 * 2 ^ (k + k2) = m2 * 2 ^ k) as Hval.
  { destruct Hcase as [(-> & ->)|(-> & _ & -> & Hm)].
    - by rewrite Z.add_0_r.
    - rewrite Hm, Z.pow_add_r by lia. change (2 ^ 1) with 2. lia. }
  rewrite Hval.
  split; [|split].
  - destruct (Z.eq_dec k 0) as [Hz|Hz].
    + rewrite Hz in *. change (2 ^ 0) with 1 in *. rewrite Hk0 by done. lia.
    + destruct (Hkp ltac:(lia)) as (_ & HMk). lia.
  - done.
  - destruct Hcase as [(Hk2 & Hm)|(Hk2 & Hkpos & _ & Hm)].
    + destruct (Z.eq_dec k 0) as [Hz|Hz]; [left; lia|].
      right. destruct (Hkp ltac:(lia)) as (Hr2 & _). lia.
    + right. lia.
Qed.

(** *** Aligning two exponents *)

Lemma iter_xO_spec m d : Z.pos (Pos.iter xO m d) = Z.pos m * 2 ^ Z.pos d.
Proof.
  induction d as [|d IH] using Pos.peano_ind.
  - simpl. lia.
  - rewrite Pos.iter_succ, Pos2Z.inj_xO, IH, Pos2Z.inj_succ, Z.pow_succ_r by lia.
    lia.
Qed.

Lemma shl_align_spec m e e' :
  snd (shl_align m e e') = Z.min e e' /\
  Z.pos (fst (shl_align m e e')) = Z.pos m * 2 ^ (e - Z.min e e').
Proof.
  unfold shl_align. destruct (e' - e) as [|d|d] eqn:Hd; simpl.
  - replace (Z.min e e') with e by lia. rewrite Z.sub_diag. simpl. lia.
  - replace (Z.min e e') with e by lia. rewrite Z.sub_diag. simpl. lia.
  - replace (Z.min e e') with e' by lia. split; [done|].
    rewrite iter_xO_spec. f_equal. f_equal. lia.
Qed.

Lemma pow2_split a b : 0 <= a -> 0 <= b -> 2 ^ (a + b) = 2 ^ a * 2 ^ b.
Proof. intros. by apply Z.pow_add_r. Qed.

Lemma binary_round_spec s m e :
  -1074 <= e ->
  exists m' e',
    binary_round prec emax s m e =
      (if e' <=? 971 then S754_finite s m' e' else S754_infinity s) /\
    -1074 <= e' /\
    2 ^ 53 * Z.abs (Z.pos m' * 2 ^ (e' + 1074) - Z.pos m * 2 ^ (e + 1074))
      <= Z.pos m * 2 ^ (e + 1074) /\
    (representable (Z.pos m * 2 ^ (e + 1074)) ->
     Z.pos m' * 2 ^ (e' + 1074) = Z.pos m * 2 ^ (e + 1074)) /\
    (e' <= e \/ 2 ^ 52 <= Z.pos m').
Proof.
  intros He. unfold binary_round. rewrite fexp_eq.
  set (E1 := Z.max (Z.pos (digits2_pos m) + e - 53) (-1074)).
  destruct (shl_align_spec m e E1) as (Hez & Hmz).
  destruct (shl_align m e E1) as [mz ez]. simpl in Hez, Hmz.
  assert (-1074 <= ez <= e) as Hez' by lia.
  destruct (binary_round_aux_spec s (Z.pos mz) ez ltac:(lia) ltac:(lia))
    as (m' & e' & Heq & Hee & Herr & Hex & Hlast).
  exists m', e'. split; [done|]. split; [lia|].
  set (Q := 2 ^ (ez + 1074)).
  assert (0 < Q) as HQ by (apply Z.pow_pos_nonneg; lia).
  assert (Z.pos m * 2 ^ (e + 1074) = Z.pos mz * Q) as HV.
  { rewrite Hmz. unfold Q. rewrite <- Z.mul_assoc, <- Z.pow_add_r by lia.
    f_equal. f_equal. lia. }
  assert (Z.pos m' * 2 ^ (e' + 1074) = Z.pos m' * 2 ^ (e' - ez) * Q) as HV'.
  { unfold Q. rewrite <- Z.mul_assoc, <- Z.pow_add_r by lia.
    f_equal. f_equal. lia. }
  rewrite HV, HV'. split; [|split].
  - rewrite <- Z.mul_sub_distr_r, Z.abs_mul, (Z.abs_eq Q) by lia.
    rewrite Z.mul_assoc. apply Z.mul_le_mono_nonneg_r; lia.
  - intros (q & t & Hq & Ht & HVq). rewrite Hex; [done|].
    set (K := Z.max 0 (Zdigits2 (Z.pos mz) - 53)).
    destruct (Z.eq_dec K 0) as [->|HK]; [apply Z.divide_1_l|].
    assert (K = Zdigits2 (Z.pos mz) - 53 /\ 0 < K) as (HKd & HKp) by lia.
    pose proof (Zdigits2_spec (Z.pos mz) ltac:(lia)) as Hd.
    replace (Zdigits2 (Z.pos mz) - 1) with (52 + K) in Hd by lia.
    assert (2 ^ (52 + K + (ez + 1074)) < 2 ^ (53 + t)) as Hlt.
    { rewrite (pow2_split (52 + K)) by lia. fold Q.
      rewrite (pow2_split 53) by lia.
      assert (0 < 2 ^ t) by (apply Z.pow_pos_nonneg; lia). nia. }
    apply Z.pow_lt_mono_r_iff in Hlt; [|lia|lia].
    exists (q * 2 ^ (t - (ez + 1074) - K)).
    rewrite <- Z.mul_assoc, <- Z.pow_add_r by lia.
    replace (t - (ez + 1074) - K + K) with (t - (ez + 1074)) by lia.
    apply (Z.mul_cancel_r _ _ Q); [lia|].
    unfold Q at 2. rewrite <- Z.mul_assoc, <- Z.pow_add_r by lia.
    replace (t - (ez + 1074) + (ez + 1074)) with t by lia. lia.
  - lia.
Qed.

(** *** Addition and subtraction *)

Lemma rounds_exact V : rounds V (Some V).
Proof. split; [|done]. rewrite Z.sub_diag. simpl. lia. Qed.

Lemma binary_normalize_rounds M e :
  -1074 <= e <= 971 ->
  rounds (M * 2 ^ (e + 1074)) (SFquanta (binary_normalize prec emax M e false)).
Proof.
  intros [He He9].
  assert (0 < 2 ^ (e + 1074)) as HQ by (apply Z.pow_pos_nonneg; lia).
  assert (forall s m,
    rounds (cond_Zopp s (Z.pos m * 2 ^ (e + 1074)))
      (SFquanta (binary_round prec emax s m e))) as Hround.
  { intros s m.
    destruct (binary_round_spec s m e He)
      as (m' & e' & -> & He' & Herr & Hex & Hlast).
    assert (0 < 2 ^ (e' + 1074)) as HQ' by (apply Z.pow_pos_nonneg; lia).
    assert (Z.abs (cond_Zopp s (Z.pos m * 2 ^ (e + 1074)))
            = Z.pos m * 2 ^ (e + 1074)) as Habs.
    { destruct s; simpl; lia. }
    destruct (Z.leb_spec e' 971) as [Hle|Hgt]; simpl.
    - rewrite Habs. split.
      + destruct s; simpl; [|done].
        replace (- (Z.pos m' * 2 ^ (e' + 1074)) - - (Z.pos m * 2 ^ (e + 1074)))
          with (- (Z.pos m' * 2 ^ (e' + 1074) - Z.pos m * 2 ^ (e + 1074)))
          by lia.
        by rewrite Z.abs_opp.
      + intros Hr. rewrite (Hex Hr). done.
    - rewrite Habs. intros Hr. rewrite <- (Hex Hr).
      destruct Hlast as [Hlast|Hlast]; [lia|].
      assert (2 ^ 2098 = 2 ^ 52 * 2 ^ (972 + 1074)) as -> by (by rewrite <- Z.pow_add_r).
      assert (2 ^ (972 + 1074) <= 2 ^ (e' + 1074))
        by (apply Z.pow_le_mono_r; lia).
      apply Z.mul_le_mono_nonneg; [lia | lia | by apply Z.pow_nonneg | done]. }
  destruct M as [|m|m]; simpl binary_normalize.
  - simpl. split; [lia|done].
  - apply (Hround false).
  - replace (Z.neg m * 2 ^ (e + 1074))
      with (cond_Zopp true (Z.pos m * 2 ^ (e + 1074))) by (simpl; lia).
    apply (Hround true).
Qed.

(** A finite double: its exponent, and its mantissa of 53 bits unless the
    exponent is the least one. *)
Lemma valid_finite s m e :
  valid_binary (S754_finite s m e) = true ->
  -1074 <= e <= 971 /\ Z.pos m < 2 ^ 53 /\ (e = -1074 \/ 2 ^ 52 <= Z.pos m).
Proof.
  simpl. unfold bounded, canonical_mantissa. rewrite fexp_eq.
  intros H. apply andb_true_iff in H as [Hc Hb].
  apply Z.eqb_eq in Hc. apply Z.leb_le in Hb.
  change (emax - prec) with 971 in Hb.
  pose proof (Zdigits2_spec (Z.pos m) ltac:(lia)) as Hd. simpl Zdigits2 in Hd.
  split; [lia|]. split.
  - assert (2 ^ Z.pos (digits2_pos m) <= 2 ^ 53); [|lia].
    apply Z.pow_le_mono_r; lia.
  - destruct (Z.eq_dec e (-1074)) as [|Hne]; [by left|right].
    assert (Z.pos (digits2_pos m) = 53) as Hd53 by lia.
    rewrite Hd53 in Hd. change (53 - 1) with 52 in Hd. lia.
Qed.

Lemma SFquanta_finite s m e a :
  SFquanta (S754_finite s m e) = Some a ->
  -1074 <= e -> forall ez, -1074 <= ez <= e ->
  a = cond_Zopp s (Z.pos m * 2 ^ (e - ez)) * 2 ^ (ez + 1074).
Proof.
  simpl. intros [= <-] He ez Hez.
  assert (2 ^ (e + 1074) = 2 ^ (e - ez) * 2 ^ (ez + 1074)) as ->.
  { rewrite <- Z.pow_add_r by lia. f_equal. lia. }
  destruct s; simpl; lia.
Qed.

Lemma SFadd_rounds X Y a b :
  valid_binary X = true -> valid_binary Y = true ->
  SFquanta X = Some a -> SFquanta Y = Some b ->
  rounds (a + b) (SFquanta (SFadd prec emax X Y)).
Proof.
  intros HX HY Ha Hb.
  destruct X as [sx|sx| |sx mx ex], Y as [sy|sy| |sy my ey]; try done.
  - simpl in Ha, Hb. injection Ha as <-. injection Hb as <-.
    destruct sx, sy; apply rounds_exact.
  - simpl in Ha. injection Ha as <-. simpl SFadd. rewrite Hb.
    apply rounds_exact.
  - simpl in Hb. injection Hb as <-. simpl SFadd. rewrite Ha, Z.add_0_r.
    apply rounds_exact.
  - apply valid_finite in HX as (HeX & _). apply valid_finite in HY as (HeY & _).
    unfold SFadd. set (ez := Z.min ex ey).
    destruct (shl_align_spec mx ex ez) as (_ & ->).
    destruct (shl_align_spec my ey ez) as (_ & ->).
    replace (Z.min ex ez) with ez by lia. replace (Z.min ey ez) with ez by lia.
    rewrite (SFquanta_finite _ _ _ _ Ha ltac:(lia) ez ltac:(lia)).
    rewrite (SFquanta_finite _ _ _ _ Hb ltac:(lia) ez ltac:(lia)).
    rewrite <- Z.mul_add_distr_r.
    apply binary_normalize_rounds. lia.
Qed.

Lemma SFsub_rounds X Y a b :
  valid_binary X = true -> valid_binary Y = true ->
  SFquanta X = Some a -> SFquanta Y = Some b ->
  rounds (a - b) (SFquanta (SFsub prec emax X Y)).
Proof.
  intros HX HY Ha Hb.
  destruct X as [sx|sx| |sx mx ex], Y as [sy|sy| |sy my ey]; try done.
  - simpl in Ha, Hb. injection Ha as <-. injection Hb as <-.
    destruct sx, sy; apply rounds_exact.
  - simpl in Ha, Hb. injection Ha as <-. injection Hb as <-. simpl.
    replace (0 - cond_Zopp sy (Z.pos my * 2 ^ (ey + 1074)))
      with (cond_Zopp (negb sy) (Z.pos my * 2 ^ (ey + 1074)))
      by (destruct sy; simpl; lia).
    apply rounds_exact.
  - simpl in Hb. injection Hb as <-. simpl SFsub. rewrite Ha, Z.sub_0_r.
    apply rounds_exact.
  - apply valid_finite in HX as (HeX & _). apply valid_finite in HY as (HeY & _).
    unfold SFsub. set (ez := Z.min ex ey).
    destruct (shl_align_spec mx ex ez) as (_ & ->).
    destruct (shl_align_spec my ey ez) as (_ & ->).
    replace (Z.min ex ez) with ez by lia. replace (Z.min ey ez) with ez by lia.
    rewrite (SFquanta_finite _ _ _ _ Ha ltac:(lia) ez ltac:(lia)).
    rewrite (SFquanta_finite _ _ _ _ Hb ltac:(lia) ez ltac:(lia)).
    rewrite <- Z.mul_sub_distr_r.
    apply binary_normalize_rounds. lia.
Qed.

(** [x + y] and [x - y] on doubles. *)
Lemma add_rounds x y a b :
  quanta x = Some a -> quanta y = Some b -> rounds (a + b) (quanta (x + y)).
Proof.
  unfold quanta. intros Ha Hb. rewrite add_spec.
  apply SFadd_rounds; auto using Prim2SF_valid.
Qed.

Lemma sub_rounds x y a b :
  quanta x = Some a -> quanta y = Some b -> rounds (a - b) (quanta (x - y)).
Proof.
  unfold quanta. intros Ha Hb. rewrite sub_spec.
  apply SFsub_rounds; auto using Prim2SF_valid.
Qed.

(** *** Comparing *)

Lemma canonical_lt s1 m1 e1 s2 m2 e2 :
  valid_binary (S754_finite s1 m1 e1) = true ->
  valid_binary (S754_finite s2 m2 e2) = true ->
  e1 < e2 ->
  Z.pos m1 * 2 ^ (e1 + 1074) < Z.pos m2 * 2 ^ (e2 + 1074).
Proof.
  intros H1 H2 Hlt.
  apply valid_finite in H1 as (He1 & Hm1 & _).
  apply valid_finite in H2 as (He2 & _ & [?|Hm2]); [lia|].
  assert (0 < 2 ^ (e1 + 1074)) as HQ by (apply Z.pow_pos_nonneg; lia).
  assert (2 ^ (e2 + 1074) = 2 ^ (e2 - e1 - 1) * (2 * 2 ^ (e1 + 1074))) as ->.
  { rewrite <- (Z.pow_succ_r 2), <- Z.pow_add_r by lia. f_equal. lia. }
  assert (0 < 2 ^ (e2 - e1 - 1)) by (apply Z.pow_pos_nonneg; lia).
  set (Q := 2 ^ (e1 + 1074)) in *. set (P := 2 ^ (e2 - e1 - 1)) in *.
  assert (Z.pos m1 * Q < 2 ^ 53 * Q) by (apply Z.mul_lt_mono_pos_r; lia).
  assert (2 ^ 52 * (2 * Q) <= Z.pos m2 * (2 * Q))
    by (apply Z.mul_le_mono_nonneg_r; lia).
  assert (Z.pos m2 * (2 * Q) * 1 <= Z.pos m2 * (2 * Q) * P)
    by (apply Z.mul_le_mono_nonneg_l; lia).
  lia.
Qed.

(** Comparing doubles is comparing their quanta. *)
Lemma SFcompare_quanta X Y a b :
  valid_binary X = true -> valid_binary Y = true ->
  SFquanta X = Some a -> SFquanta Y = Some b ->
  SFcompare X Y = Some (a ?= b).
Proof.
  intros HX HY Ha Hb.
  destruct X as [sx|sx| |sx mx ex], Y as [sy|sy| |sy my ey]; try done.
  - simpl in Ha, Hb. by injection Ha as <-; injection Hb as <-.
  - pose proof (valid_finite _ _ _ HY) as (He & _).
    assert (0 < 2 ^ (ey + 1074)) by (apply Z.pow_pos_nonneg; lia).
    simpl in Ha, Hb. injection Ha as <-. injection Hb as <-.
    cbn [SFcompare]. f_equal. symmetry.
    destruct sy; cbn [cond_Zopp];
      [apply Z.compare_gt_iff | apply Z.compare_lt_iff]; lia.
  - pose proof (valid_finite _ _ _ HX) as (He & _).
    assert (0 < 2 ^ (ex + 1074)) by (apply Z.pow_pos_nonneg; lia).
    simpl in Ha, Hb. injection Ha as <-. injection Hb as <-.
    cbn [SFcompare]. f_equal. symmetry.
    destruct sx; cbn [cond_Zopp];
      [apply Z.compare_lt_iff | apply Z.compare_gt_iff]; lia.
  - pose proof (valid_finite _ _ _ HX) as (HeX & _).
    pose proof (valid_finite _ _ _ HY) as (HeY & _).
    assert (0 < 2 ^ (ex + 1074)) by (apply Z.pow_pos_nonneg; lia).
    assert (0 < 2 ^ (ey + 1074)) by (apply Z.pow_pos_nonneg; lia).
    simpl in Ha, Hb. injection Ha as <-. injection Hb as <-.
    cbn [SFcompare]. f_equal. symmetry.
    assert (ex < ey ->
            Z.pos mx * 2 ^ (ex + 1074) < Z.pos my * 2 ^ (ey + 1074)) as Hlt
      by (by apply (canonical_lt sx _ _ sy)).
    assert (ey < ex ->
            Z.pos my * 2 ^ (ey + 1074) < Z.pos mx * 2 ^ (ex + 1074)) as Hgt
      by (by apply (canonical_lt sy _ _ sx)).
    change (Pos.compare_cont Eq mx my) with (Z.pos mx ?= Z.pos my).
    destruct sx, sy; cbn [cond_Zopp].
    + destruct (Z.compare_spec ex ey) as [->|Hc|Hc].
      * destruct (Z.compare_spec (Z.pos mx) (Z.pos my)) as [Hm|Hm|Hm];
          cbn [CompOpp].
        -- apply Z.compare_eq_iff. rewrite Hm. done.
        -- apply Z.compare_gt_iff. nia.
        -- apply Z.compare_lt_iff. nia.
      * apply Z.compare_gt_iff. specialize (Hlt Hc). lia.
      * apply Z.compare_lt_iff. specialize (Hgt Hc). lia.
    + apply Z.compare_lt_iff. lia.
    + apply Z.compare_gt_iff. lia.
    + destruct (Z.compare_spec ex ey) as [->|Hc|Hc].
      * destruct (Z.compare_spec (Z.pos mx) (Z.pos my)) as [Hm|Hm|Hm].
        -- apply Z.compare_eq_iff. rewrite Hm. done.
        -- apply Z.compare_lt_iff. nia.
        -- apply Z.compare_gt_iff. nia.
      * apply Z.compare_lt_iff. specialize (Hlt Hc). lia.
      * apply Z.compare_gt_iff. specialize (Hgt Hc). lia.
Qed.

Lemma ltb_quanta x y a b :
  quanta x = Some a -> quanta y = Some b -> (x <? y)%float = (a <? b).
Proof.
  intros Ha Hb. rewrite ltb_spec. unfold SFltb.
  rewrite (SFcompare_quanta _ _ a b (Prim2SF_valid x) (Prim2SF_valid y) Ha Hb).
  unfold Z.ltb. by destruct (a ?= b).
Qed.

Lemma leb_quanta x y a b :
  quanta x = Some a -> quanta y = Some b -> (x <=? y)%float = (a <=? b).
Proof.
  intros Ha Hb. rewrite leb_spec. unfold SFleb.
  rewrite (SFcompare_quanta _ _ a b (Prim2SF_valid x) (Prim2SF_valid y) Ha Hb).
  unfold Z.leb. by destruct (a ?= b).
Qed.

(** Two doubles of the same quanta, not zero, are the same double. *)
Lemma quanta_inj x y c :
  c <> 0 -> quanta x = Some c -> quanta y = Some c -> x = y.
Proof.
  unfold quanta. intros Hc Hx Hy. apply Prim2SF_inj.
  pose proof (Prim2SF_valid x) as Vx. pose proof (Prim2SF_valid y) as Vy.
  destruct (Prim2SF x) as [sx|sx| |sx mx ex]; try done;
    [simpl in Hx; injection Hx as <-; done|].
  destruct (Prim2SF y) as [sy|sy| |sy my ey]; try done;
    [simpl in Hy; injection Hy as <-; done|].
  pose proof (valid_finite _ _ _ Vx) as (HeX & _).
  pose proof (valid_finite _ _ _ Vy) as (HeY & _).
  assert (0 < 2 ^ (ex + 1074)) by (apply Z.pow_pos_nonneg; lia).
  assert (0 < 2 ^ (ey + 1074)) by (apply Z.pow_pos_nonneg; lia).
  simpl in Hx, Hy.
  assert (sx = sy) as ->.
  { destruct sx, sy; simpl in *; try done; injection Hx as Hx; injection Hy as Hy; lia. }
  assert (Z.pos mx * 2 ^ (ex + 1074) = Z.pos my * 2 ^ (ey + 1074)) as Heq.
  { destruct sy; simpl in *; injection Hx as Hx; injection Hy as Hy; lia. }
  assert (ex = ey) as ->.
  { destruct (Z.lt_trichotomy ex ey) as [Hlt|[?|Hgt]]; [|done|].
    - pose proof (canonical_lt _ _ _ _ _ _ Vx Vy Hlt). lia.
    - pose proof (canonical_lt _ _ _ _ _ _ Vy Vx Hgt). lia. }
  f_equal. apply Z.mul_cancel_r in Heq; [|lia]. by injection Heq.
Qed.

(** *** The doubles of the integers up to [2 ^ 53] *)

Lemma quanta_count n :
  0 <= n <= 2 ^ 53 -> quanta (count n) = Some (n * 2 ^ 1074).
Proof.
  intros Hn. destruct (Z.eq_dec n 0) as [->|Hn0]; [done|].
  unfold quanta, count. rewrite of_uint63_spec, Uint63.of_Z_spec.
  rewrite Z.mod_small by (change Uint63Axioms.wB with (2 ^ 63); lia).
  pose proof (binary_normalize_rounds n 0 ltac:(lia)) as Hr.
  change (0 + 1074) with 1074 in Hr.
  assert (representable (Z.abs (n * 2 ^ 1074))) as Hrep.
  { rewrite Z.abs_eq by lia.
    destruct (Z.eq_dec n (2 ^ 53)) as [->|Hne].
    - exists 1, 1127. split; [lia|]. split; [lia|]. by rewrite <- Z.pow_add_r.
    - exists n, 1074. lia. }
  destruct (SFquanta _) as [c|]; simpl in Hr.
  - f_equal. by apply Hr.
  - specialize (Hr Hrep). rewrite Z.abs_eq in Hr by lia.
    assert (n * 2 ^ 1074 <= 2 ^ 53 * 2 ^ 1074) by nia.
    assert (2 ^ 53 * 2 ^ 1074 < 2 ^ 2098) by (by rewrite <- Z.pow_add_r).
    lia.
Qed.

(** Below [2 ^ 53], adding 1 to a count is exact. *)
Lemma count_succ n : 0 <= n < 2 ^ 53 -> (count n + 1)%float = count (n + 1).
Proof.
  intros Hn.
  pose proof (quanta_count n ltac:(lia)) as Hq.
  pose proof (quanta_count 1 ltac:(lia)) as H1.
  change (count 1) with 1%float in H1.
  pose proof (add_rounds _ _ _ _ Hq H1) as Hr.
  replace (n * 2 ^ 1074 + 1 * 2 ^ 1074) with ((n + 1) * 2 ^ 1074) in Hr by lia.
  assert (representable (Z.abs ((n + 1) * 2 ^ 1074))) as Hrep.
  { rewrite Z.abs_eq by lia.
    destruct (Z.eq_dec (n + 1) (2 ^ 53)) as [->|Hne].
    - exists 1, 1127. split; [lia|]. split; [lia|]. by rewrite <- Z.pow_add_r.
    - exists (n + 1), 1074. lia. }
  destruct (quanta (count n + 1)) as [c|] eqn:Hc; simpl in Hr.
  - apply (quanta_inj _ _ ((n + 1) * 2 ^ 1074)); [lia| |apply quanta_count; lia].
    rewrite Hc. f_equal. by apply Hr.
  - specialize (Hr Hrep). rewrite Z.abs_eq in Hr by lia.
    assert ((n + 1) * 2 ^ 1074 <= 2 ^ 53 * 2 ^ 1074) by nia.
    assert (2 ^ 53 * 2 ^ 1074 < 2 ^ 2098) by (by rewrite <- Z.pow_add_r).
    lia.
Qed.

(** At [2 ^ 53] it is absorbed. *)
Lemma count_absorbed : (count (2 ^ 53) + 1)%float = count (2 ^ 53).
Proof. reflexivity. Qed.

(** *** Results that are exact, whatever the exponent *)

Lemma Zdigits2_shift q t :
  0 < q -> 0 <= t -> Zdigits2 (q * 2 ^ t) = Zdigits2 q + t.
Proof.
  intros Hq Ht. pose proof (Zdigits2_spec q Hq) as Hd.
  assert (0 < 2 ^ t) by (apply Z.pow_pos_nonneg; lia).
  assert (1 <= Zdigits2 q).
  { destruct q as [|p|p]; try lia. simpl. lia. }
  apply Zdigits2_unique; [|nia].
  replace (Zdigits2 q + t - 1) with (Zdigits2 q - 1 + t) by lia.
  rewrite !Z.pow_add_r by lia. nia.
Qed.

Lemma shr_fexp_gen M e :
  0 < M ->
  exists mrs,
    shr_fexp prec emax M e loc_Exact
      = (mrs, e + Z.max 0 (Z.max (Zdigits2 M + e - 53) (-1074) - e)) /\
    shr_inv M (Z.max 0 (Z.max (Zdigits2 M + e - 53) (-1074) - e)) mrs.
Proof.
  intros HM. unfold shr_fexp, shr. rewrite fexp_eq.
  pose proof (shr_inv_0 M ltac:(lia)) as H0.
  destruct (Z.max (Zdigits2 M + e - 53) (-1074) - e) as [|p|p] eqn:Hn.
  - exists (shr_record_of_loc M loc_Exact). simpl Z.max.
    by rewrite Z.add_0_r.
  - eexists. split; [reflexivity|].
    replace (Z.max 0 (Z.pos p)) with (0 + Z.pos p) by lia.
    apply (iter_pos_inv shr_1 (shr_inv M)); [|lia|done].
    intros. by apply shr_1_inv.
  - exists (shr_record_of_loc M loc_Exact). simpl Z.max.
    by rewrite Z.add_0_r.
Qed.

Lemma binary_round_aux_exact s M e :
  0 < M ->
  let k := Z.max 0 (Z.max (Zdigits2 M + e - 53) (-1074) - e) in
  (2 ^ k | M) ->
  exists m',
    binary_round_aux prec emax s M e loc_Exact =
      (if e + k <=? 971 then S754_finite s m' (e + k)
       else S754_infinity s) /\
    Z.pos m' * 2 ^ k = M /\
    (e + k <= Z.max e (-1074) \/ 2 ^ 52 <= Z.pos m').
Proof.
  intros HM k Hdiv.
  destruct (shr_fexp_gen M e HM) as (mrs & Heq & Hinv). fold k in Heq, Hinv.
  unfold binary_round_aux. rewrite Heq.
  assert (0 <= k) as Hk by lia.
  destruct (round_nearest_even_inv M k mrs Hk Hinv) as (_ & _ & Hex).
  specialize (Hex Hdiv).
  set (m2 := round_nearest_even (shr_m mrs) (loc_of_shr_record mrs)) in *.
  assert (0 < 2 ^ k) as HP by (apply Z.pow_pos_nonneg; lia).
  assert (0 < m2) as Hm2 by nia.
  assert (Zdigits2 M = Zdigits2 m2 + k) as HdM.
  { rewrite <- Hex. by apply Zdigits2_shift. }
  destruct (shr_fexp_gen m2 (e + k) Hm2) as (mrs2 & Heq2 & Hinv2).
  replace (Z.max 0 (Z.max (Zdigits2 m2 + (e + k) - 53) (-1074) - (e + k)))
    with 0 in Heq2, Hinv2 by lia.
  rewrite Heq2, Z.add_0_r.
  destruct Hinv2 as (_ & R2 & HR2 & HMR2 & _).
  change (2 ^ 0) with 1 in *.
  assert (shr_m mrs2 = m2) as -> by lia.
  destruct m2 as [|m'|m'] eqn:Hm2eq; try lia.
  exists m'. split; [done|]. split; [done|].
  destruct (Z_le_gt_dec (e + k) (Z.max e (-1074))) as [|Hgt]; [by left|right].
  assert (k = Zdigits2 M - 53) as Hkd by lia.
  pose proof (Zdigits2_spec (Z.pos m') ltac:(lia)) as Hd.
  replace (Zdigits2 (Z.pos m') - 1) with 52 in Hd by lia. lia.
Qed.

Lemma binary_round_exact s m e q t :
  Z.pos m = q * 2 ^ t -> 0 < q < 2 ^ 53 -> 0 <= t -> -1074 <= e + t ->
  exists m' e',
    binary_round prec emax s m e =
      (if e' <=? 971 then S754_finite s m' e' else S754_infinity s) /\
    -1074 <= e' /\
    Z.pos m' * 2 ^ (e' + 1074) = q * 2 ^ (t + e + 1074) /\
    (e' <= Z.max e (-1074) \/ 2 ^ 52 <= Z.pos m').
Proof.
  intros Hm Hq Ht Het.
  assert (Zdigits2 q <= 53) as Hdq.
  { pose proof (Zdigits2_spec q ltac:(lia)) as Hd.
    destruct (Z_le_gt_dec (Zdigits2 q) 53) as [|Hgt]; [done|].
    assert (2 ^ 53 <= 2 ^ (Zdigits2 q - 1)) by (apply Z.pow_le_mono_r; lia).
    lia. }
  assert (Zdigits2 (Z.pos m) = Zdigits2 q + t) as Hdm.
  { rewrite Hm. apply Zdigits2_shift; lia. }
  unfold binary_round. rewrite fexp_eq.
  change (Z.pos (digits2_pos m)) with (Zdigits2 (Z.pos m)).
  set (E1 := Z.max (Zdigits2 (Z.pos m) + e - 53) (-1074)).
  destruct (shl_align_spec m e E1) as (Hez & Hmz).
  destruct (shl_align m e E1) as [mz ez]. simpl in Hez, Hmz.
  rewrite <- Hez in Hmz.
  assert (Zdigits2 (Z.pos mz) = Zdigits2 (Z.pos m) + (e - ez)) as Hdmz.
  { rewrite Hmz. apply Zdigits2_shift; lia. }
  assert (0 < 2 ^ t) by (apply Z.pow_pos_nonneg; lia).
  destruct (binary_round_aux_exact s (Z.pos mz) ez ltac:(lia))
    as (m' & Heq & Hval & Hlast).
  { destruct (Z_le_gt_dec E1 e) as [Hle|Hgt].
    - replace (Z.max 0 _) with 0 by lia. apply Z.divide_1_l.
    - assert (ez = e) as -> by lia. rewrite Z.sub_diag, Z.mul_1_r in Hmz.
      set (k := Z.max 0 _). assert (0 <= k <= t) as Hk by (unfold k; lia).
      rewrite Hmz, Hm.
      exists (q * 2 ^ (t - k)). rewrite <- Z.mul_assoc, <- Z.pow_add_r by lia.
      f_equal. f_equal. lia. }
  set (k := Z.max 0 (Z.max (Zdigits2 (Z.pos mz) + ez - 53) (-1074) - ez)) in *.
  exists m', (ez + k). split; [done|]. split; [lia|]. split; [|lia].
  assert (0 <= k) by lia.
  replace (ez + k + 1074) with (k + (ez + 1074)) by lia.
  destruct (Z_le_gt_dec E1 e) as [Hle|Hgt].
  - assert (k = 0) as Hk0 by lia. rewrite Hk0 in *. simpl Z.add.
    change (2 ^ 0) with 1 in Hval. rewrite Z.mul_1_r in Hval.
    rewrite Hval, Hmz, Hm, <- !Z.mul_assoc, <- !Z.pow_add_r by lia.
    f_equal. f_equal. lia.
  - assert (ez = e) as Hee by lia. rewrite Hee in *.
    rewrite Z.sub_diag, Z.mul_1_r in Hmz.
    assert (-1074 <= k + e) by lia.
    assert (k <= t) by lia.
    assert (Z.pos m' = q * 2 ^ (t - k)) as ->.
    { apply (Z.mul_cancel_r _ _ (2 ^ k)); [apply Z.pow_nonzero; lia|].
      rewrite Hval, Hmz, Hm, <- Z.mul_assoc, <- Z.pow_add_r by lia.
      f_equal. f_equal. lia. }
    rewrite <- Z.mul_assoc, <- Z.pow_add_r by lia. f_equal. f_equal. lia.
Qed.

(** *** Negation, [===], [%] and [* 2] *)

Lemma quanta_opp x : quanta (- x) = Z.opp <$> quanta x.
Proof.
  unfold quanta. rewrite opp_spec.
  destruct (Prim2SF x) as [s|s| |s m e]; try done.
  simpl. f_equal. destruct s; simpl; lia.
Qed.

Lemma eqb_quanta x y a b :
  quanta x = Some a -> quanta y = Some b -> (x =? y)%float = (a =? b).
Proof.
  intros Ha Hb. rewrite FloatAxioms.eqb_spec. unfold SFeqb.
  rewrite (SFcompare_quanta _ _ a b (Prim2SF_valid x) (Prim2SF_valid y) Ha Hb).
  destruct (Z.compare_spec a b) as [->|Hlt|Hlt]; symmetry;
    [apply Z.eqb_refl | apply Z.eqb_neq; lia..].
Qed.

(** The quanta of a double are a double. *)
Lemma quanta_representable x a :
  quanta x = Some a -> a <> 0 -> representable (Z.abs a).
Proof.
  unfold quanta. intros Ha Hne. pose proof (Prim2SF_valid x) as V.
  destruct (Prim2SF x) as [s|s| |s m e]; try done.
  - simpl in Ha. injection Ha as <-. done.
  - apply valid_finite in V as (He & Hm & _). simpl in Ha. injection Ha as <-.
    exists (Z.pos m), (e + 1074). split; [lia|]. split; [lia|].
    assert (0 < 2 ^ (e + 1074)) by (apply Z.pow_pos_nonneg; lia).
    destruct s; simpl; lia.
Qed.

(** [SF2Prim] on a mantissa that is not normalised. *)
Lemma quanta_SF2Prim s r e :
  Z.pos r < 2 ^ 53 -> -1074 <= e <= 971 ->
  quanta (SF2Prim (S754_finite s r e))
    = Some (cond_Zopp s (Z.pos r * 2 ^ (e + 1074))).
Proof.
  intros Hr He.
  assert (quanta (Z.ldexp (of_uint63 (Uint63.of_Z (Z.pos r))) e)
          = Some (Z.pos r * 2 ^ (e + 1074))) as Hf.
  { unfold quanta. rewrite Z_ldexp_spec.
    pose proof (quanta_count (Z.pos r) ltac:(lia)) as Hq.
    unfold quanta, count in Hq.
    pose proof (Prim2SF_valid (of_uint63 (Uint63.of_Z (Z.pos r)))) as V.
    destruct (Prim2SF (of_uint63 (Uint63.of_Z (Z.pos r))))
      as [sx|sx| |sx mx ex]; try done.
    apply valid_finite in V as (Hex & Hmx & Hnorm).
    cbn [SFquanta] in Hq. injection Hq as Hq.
    assert (0 < 2 ^ 1074) as HQ0 by (by apply Z.pow_pos_nonneg).
    assert (0 < 2 ^ (ex + 1074)) as HQ by (apply Z.pow_pos_nonneg; lia).
    assert (sx = false) as ->
      by (destruct sx; [cbn [cond_Zopp] in Hq; nia | done]).
    cbn [cond_Zopp] in Hq.
    assert (ex <= 0) as Hex0.
    { destruct (Z_le_gt_dec ex 0) as [|Hgt]; [done|].
      destruct Hnorm as [?|Hnorm]; [lia|].
      assert (2 ^ (1 + 1074) <= 2 ^ (ex + 1074))
        by (apply Z.pow_le_mono_r; lia).
      rewrite Z.pow_add_r in H by lia. change (2 ^ 1) with 2 in H.
      change (2 ^ 53) with (2 ^ 52 * 2) in Hr. nia. }
    assert (Z.pos mx = Z.pos r * 2 ^ (- ex)) as Hmxr.
    { apply (Z.mul_cancel_r _ _ (2 ^ (ex + 1074))); [lia|].
      rewrite Hq, <- Z.mul_assoc, <- Z.pow_add_r by lia.
      f_equal. f_equal. lia. }
    simpl SFldexp.
    destruct (binary_round_exact false mx (ex + e) (Z.pos r) (- ex) Hmxr)
      as (m' & e' & -> & He' & Hval & Hlast); [lia..|].
    replace (- ex + (ex + e) + 1074) with (e + 1074) in Hval by lia.
    assert (e' <= 971) as Hle.
    { destruct Hlast as [|Hm']; [lia|].
      destruct (Z_le_gt_dec e' 971) as [|Hgt]; [done|].
      assert (0 < 2 ^ (e + 1074)) by (apply Z.pow_pos_nonneg; lia).
      assert (2 ^ (e + 1 + 1074) <= 2 ^ (e' + 1074))
        by (apply Z.pow_le_mono_r; lia).
      replace (e + 1 + 1074) with (1 + (e + 1074)) in H0 by lia.
      rewrite Z.pow_add_r in H0 by lia. change (2 ^ 1) with 2 in H0.
      change (2 ^ 53) with (2 ^ 52 * 2) in Hr. nia. }
    apply Z.leb_le in Hle. rewrite Hle. simpl. by rewrite Hval. }
  unfold SF2Prim. destruct s; [|exact Hf]. rewrite quanta_opp, Hf. done.
Qed.

(** [n % d] is exact: the remainder of the division of the two values, with
    the sign of the dividend. *)
Lemma remainder_quanta n d a b :
  quanta n = Some a -> quanta d = Some b -> b <> 0 ->
  quanta (Number.remainder n d) = Some (Z.rem a b).
Proof.
  intros Ha Hb Hne. unfold Number.remainder. cbn zeta.
  pose proof (Prim2SF_valid n) as Vn. pose proof (Prim2SF_valid d) as Vd.
  pose proof Ha as Ha'. unfold quanta in Ha, Hb.
  destruct (Prim2SF n) as [sn|sn| |sn mn en] eqn:Hn; try done;
    destruct (Prim2SF d) as [sd|sd| |sd md ed] eqn:Hd; try done.
  - simpl in Hb. injection Hb as <-. done.
  - rewrite Ha'. simpl in Ha. injection Ha as <-. by rewrite Z.rem_0_l.
  - simpl in Hb. injection Hb as <-. done.
  - apply valid_finite in Vn as (Hen & Hmn & _).
    apply valid_finite in Vd as (Hed & Hmd & _).
    simpl in Ha, Hb. injection Ha as <-. injection Hb as <-.
    set (e := Z.min en ed).
    set (N := Z.pos mn * 2 ^ (en - e)). set (D := Z.pos md * 2 ^ (ed - e)).
    set (Q := 2 ^ (e + 1074)).
    assert (0 < Q) as HQ by (apply Z.pow_pos_nonneg; lia).
    assert (0 < 2 ^ (en - e)) by (apply Z.pow_pos_nonneg; lia).
    assert (0 < 2 ^ (ed - e)) by (apply Z.pow_pos_nonneg; lia).
    assert (0 < N) as HN by (unfold N; lia).
    assert (0 < D) as HD by (unfold D; lia).
    assert (Z.pos mn * 2 ^ (en + 1074) = N * Q) as ->.
    { unfold N, Q. rewrite <- Z.mul_assoc, <- Z.pow_add_r by lia.
      f_equal. f_equal. lia. }
    assert (Z.pos md * 2 ^ (ed + 1074) = D * Q) as ->.
    { unfold D, Q. rewrite <- Z.mul_assoc, <- Z.pow_add_r by lia.
      f_equal. f_equal. lia. }
    assert (Z.rem (cond_Zopp sn (N * Q)) (cond_Zopp sd (D * Q))
            = cond_Zopp sn (N mod D * Q)) as ->.
    { assert (Z.rem (N * Q) (D * Q) = N mod D * Q) as Hrem.
      { rewrite Z.rem_mod_nonneg by lia. apply Z.mul_mod_distr_r; lia. }
      destruct sn, sd; simpl;
        rewrite ?Z.rem_opp_l, ?Z.rem_opp_r, Hrem by lia; done. }
    pose proof (Z.mod_pos_bound N D HD) as Hmod.
    destruct (N mod D) as [|r|r] eqn:Hr; try lia.
    + destruct sn; done.
    + apply quanta_SF2Prim; [|lia].
      destruct (Z_le_gt_dec en ed) as [Hle|Hgt].
      * assert (N = Z.pos mn) as HNm.
        { unfold N, e. rewrite Z.min_l, Z.sub_diag by lia. simpl. lia. }
        pose proof (Z.mod_le N D ltac:(lia) HD). lia.
      * assert (D = Z.pos md) as HDm.
        { unfold D, e. rewrite Z.min_r, Z.sub_diag by lia. simpl. lia. }
        lia.
Qed.

(** [x * 2] is exact. *)
Lemma mul2_quanta x a :
  quanta x = Some a -> 2 * Z.abs a < 2 ^ 2098 ->
  quanta (x * 2) = Some (2 * a).
Proof.
  intros Ha Hlt. unfold quanta in *. rewrite mul_spec.
  pose proof (Prim2SF_valid x) as V.
  change (Prim2SF 2) with (S754_finite false 4503599627370496 (-51)).
  destruct (Prim2SF x) as [s|s| |s m e]; try done.
  - simpl in Ha. by injection Ha as <-.
  - pose proof (valid_finite _ _ _ V) as (He & Hm & Hnorm).
    simpl in Ha. injection Ha as <-.
    unfold SF64mul, SFmul. rewrite xorb_false_r.
    assert (0 < 2 ^ (e + 1074)) as HQ by (apply Z.pow_pos_nonneg; lia).
    pose proof (Zdigits2_spec (Z.pos m) ltac:(lia)) as Hd.
    assert (1 <= Zdigits2 (Z.pos m) <= 53) as Hd53.
    { split; [simpl; lia|].
      destruct (Z_le_gt_dec (Zdigits2 (Z.pos m)) 53) as [|Hgt]; [done|].
      assert (2 ^ 53 <= 2 ^ (Zdigits2 (Z.pos m) - 1))
        by (apply Z.pow_le_mono_r; lia). lia. }
    assert (e = -1074 \/ Zdigits2 (Z.pos m) = 53) as Hcan.
    { destruct Hnorm as [|Hn]; [by left|right].
      apply Zdigits2_unique; [|lia]. change (53 - 1) with 52. lia. }
    assert (Zdigits2 (Z.pos (m * 4503599627370496)) = Zdigits2 (Z.pos m) + 52)
      as HdM.
    { rewrite Pos2Z.inj_mul. change (Z.pos 4503599627370496) with (2 ^ 52).
      apply Zdigits2_shift; lia. }
    destruct (binary_round_aux_exact s (Z.pos (m * 4503599627370496)) (e + -51)
                ltac:(lia)) as (m' & -> & Hval & Hlast).
    { rewrite HdM. set (k := Z.max 0 _).
      assert (0 <= k <= 52) as Hk by (unfold k; lia).
      exists (Z.pos m * 2 ^ (52 - k)).
      rewrite <- Z.mul_assoc, <- Z.pow_add_r by lia.
      replace (52 - k + k) with 52 by lia. by rewrite Pos2Z.inj_mul. }
    rewrite HdM in *.
    set (k := Z.max 0 (Z.max (Zdigits2 (Z.pos m) + 52 + (e + -51) - 53) (-1074)
                       - (e + -51))) in *.
    assert (51 <= k <= 52 /\ -1074 <= e + -51 + k) as (Hk & Hek)
      by (unfold k; lia).
    assert (Z.pos m' * 2 ^ (e + -51 + k + 1074)
            = 2 * (Z.pos m * 2 ^ (e + 1074))) as Hv.
    { assert (Z.pos m' = Z.pos m * 2 ^ (52 - k)) as ->.
      { apply (Z.mul_cancel_r _ _ (2 ^ k)); [apply Z.pow_nonzero; lia|].
        rewrite Hval, Pos2Z.inj_mul, <- Z.mul_assoc, <- Z.pow_add_r by lia.
        by replace (52 - k + k) with 52 by lia. }
      rewrite <- Z.mul_assoc, <- Z.pow_add_r by lia.
      replace (52 - k + (e + -51 + k + 1074)) with (1 + (e + 1074)) by lia.
      rewrite Z.pow_add_r by lia. change (2 ^ 1) with 2. lia. }
    assert (Z.abs (cond_Zopp s (Z.pos m * 2 ^ (e + 1074)))
            = Z.pos m * 2 ^ (e + 1074)) as Habs by (destruct s; simpl; lia).
    rewrite Habs in Hlt.
    destruct (Z.leb_spec (e + -51 + k) 971) as [Hle|Hgt].
    + simpl. f_equal. rewrite Hv. destruct s; simpl; lia.
    + exfalso. destruct Hlast as [|Hm']; [lia|].
      assert (2 ^ (972 + 1074) <= 2 ^ (e + -51 + k + 1074))
        by (apply Z.pow_le_mono_r; lia).
      assert (2 ^ 2098 = 2 ^ 52 * 2 ^ (972 + 1074)) as Hp
        by (by rewrite <- Z.pow_add_r).
      assert (2 ^ 52 * 2 ^ (972 + 1074)
              <= Z.pos m' * 2 ^ (e + -51 + k + 1074))
        by (apply Z.mul_le_mono_nonneg;
              [lia | lia | by apply Z.pow_nonneg | done]).
      lia.
Qed.

(** The parity that [serverTime % 2 === 0] tests, on a count. *)
Lemma count_parity n :
  0 <= n <= 2 ^ 53 ->
  Number.strict_eq (Number.remainder (count n) 2) 0 = (n mod 2 =? 0).
Proof.
  intros Hn. unfold Number.strict_eq.
  pose proof (quanta_count n Hn) as Hq.
  pose proof (quanta_count 2 ltac:(lia)) as H2. change (count 2) with 2%float in H2.
  pose proof (remainder_quanta _ _ _ _ Hq H2 ltac:(lia)) as Hr.
  assert (quanta 0 = Some 0) as H0 by reflexivity.
  rewrite (eqb_quanta _ _ _ _ Hr H0).
  rewrite Z.rem_mod_nonneg by lia.
  rewrite Z.mul_mod_distr_r by lia.
  destruct (Z.eqb_spec (n mod 2) 0) as [->|Hne]; [done|].
  apply Z.eqb_neq. lia.
Qed.

End Doubles.

Section Loops.

Implicit Types (store : gmap PersonRef Person) (refs : list PersonRef).

Lemma iter_shift {A} (f : A -> A) n a :
  Nat.iter n f (f a) = f (Nat.iter n f a).
Proof. induction n as [|n IH]; simpl; [done|]. by rewrite IH. Qed.

Lemma visits_cons l a refs :
  visits l (a :: refs) =
    if decide (l = a) then S (visits l refs) else visits l refs.
Proof. unfold visits. rewrite filter_cons. by destruct (decide (l = a)). Qed.

(** A loop leaves of each Person what its body makes of it, applied once per
    visit: in whatever order the Persons are visited. *)
Lemma visit_lookup body refs store l :
  visit body refs store !! l = Nat.iter (visits l refs) body <$> store !! l.
Proof.
  unfold visit, visits. revert store.
  induction refs as [|a refs IH]; intros store; simpl.
  - by destruct (store !! l).
  - rewrite IH. fold (visits l refs). fold (visits l (a :: refs)).
    rewrite visits_cons. destruct (decide (l = a)) as [->|Hne].
    + rewrite lookup_alter_eq. destruct (store !! a); simpl; [|done].
      by rewrite iter_shift.
    + by rewrite lookup_alter_ne.
Qed.

Lemma visit_order body refs1 refs2 store :
  refs1 ≡ₚ refs2 -> visit body refs1 store = visit body refs2 store.
Proof.
  intros Hp. apply map_eq. intros l. rewrite !visit_lookup.
  assert (visits l refs1 = visits l refs2) as ->; [|done].
  unfold visits. apply Permutation_length.
  by apply (filter_Permutation (eq l)).
Qed.

Lemma visits_elem l refs : l ∈ refs -> 0 < visits l refs.
Proof.
  induction refs as [|a refs IH]; [by rewrite elem_of_nil|].
  rewrite elem_of_cons, visits_cons.
  destruct (decide (l = a)); [lia | intros [?|?]; [done | auto]].
Qed.

Lemma visits_not_elem l refs : l ∉ refs -> visits l refs = 0.
Proof.
  induction refs as [|a refs IH]; [done|].
  rewrite not_elem_of_cons, visits_cons. intros [Hne Hni].
  rewrite decide_False; auto.
Qed.

Lemma visits_NoDup l refs : NoDup refs -> l ∈ refs -> visits l refs = 1.
Proof.
  induction 1 as [|a refs Hni _ IH]; [by rewrite elem_of_nil|].
  rewrite elem_of_cons, visits_cons.
  destruct (decide (l = a)) as [->|Hne].
  - intros _. by rewrite (visits_not_elem a refs Hni).
  - intros [?|Hin]; [done | auto].
Qed.

Lemma values_elem (m : gmap string PersonRef) k l :
  m !! k = Some l -> l ∈ values m.
Proof.
  intros Hk. unfold values. apply list_elem_of_fmap. exists (k, l).
  split; [done|]. by apply elem_of_map_to_list.
Qed.

Lemma values_NoDup room : distinct_persons room -> NoDup (values (people room)).
Proof.
  intros Hd. unfold values. apply NoDup_fmap_2_strong.
  - intros [k1 l1] [k2 l2] H1 H2. simpl. intros <-.
    apply elem_of_map_to_list in H1, H2. by rewrite (Hd k1 k2 l1).
  - apply NoDup_map_to_list.
Qed.

(** What [tick] leaves of a Person. *)
Lemma tick_people_lookup room store l :
  tick_people room store !! l =
    (fun p => Nat.iter (visits l (values (people room))) move_person
                (Nat.iter (visits l (values (people room)))
                   (enact_force (gravity room)) p)) <$> store !! l.
Proof.
  unfold tick_people. rewrite !visit_lookup. by destruct (store !! l).
Qed.

Lemma tick_people_lookup_distinct room store k l :
  distinct_persons room -> people room !! k = Some l ->
  tick_people room store !! l = tick_person (gravity room) <$> store !! l.
Proof.
  intros Hd Hk. rewrite tick_people_lookup.
  rewrite visits_NoDup; [done | by apply values_NoDup | by eapply values_elem].
Qed.

Lemma tick_people_lookup_other room store l :
  l ∉ values (people room) -> tick_people room store !! l = store !! l.
Proof.
  intros Hni. rewrite tick_people_lookup, visits_not_elem; [|done].
  by destruct (store !! l).
Qed.

(** The state [tick] leaves, whether or not a callback then throws. *)
Lemma tick_world w r room :
  room_store w !! r = Some room ->
  world_of (tick w r) =
    set_room_store
      (set_person_store w (tick_people room (person_store w)))
      (<[r := tick_time room]> (room_store w)).
Proof.
  intros Hr. unfold tick. rewrite Hr. simpl.
  by destruct (forallb _ _).
Qed.

End Loops.

Section Tick.

(** [!(a < 0)] gives [a >= 0] for every double but NaN. *)
Lemma not_lt_floor (a : float) :
  Number.lt a FLOOR_Y = false -> Number.isNaN a = false ->
  Number.ge a FLOOR_Y = true.
Proof.
  unfold Number.lt, Number.ge, Number.isNaN, is_nan.
  rewrite FloatAxioms.ltb_spec, FloatAxioms.leb_spec, FloatAxioms.eqb_spec.
  change (Prim2SF FLOOR_Y) with (S754_zero false).
  destruct (Prim2SF a) as [s|s| |s m e]; try destruct s; cbn; congruence.
Qed.

Lemma floor_check_not_below q :
  Number.lt (y (position (floor_check q))) FLOOR_Y = false.
Proof.
  unfold floor_check.
  destruct (Number.lt (y (position q)) FLOOR_Y) eqn:E; simpl;
    [reflexivity | exact E].
Qed.

Lemma floor_check_clamps q :
  Number.lt (y (position q)) FLOOR_Y = true ->
  y (position (floor_check q)) = FLOOR_Y /\
  y (velocity (floor_check q)) = 0%float.
Proof. unfold floor_check. intros ->. by simpl. Qed.

(** After at least one visit of the second loop, the Person is not below the
    floor. *)
Lemma moved_not_below n q :
  0 < n ->
  Number.lt (y (position (Nat.iter n move_person q))) FLOOR_Y = false.
Proof.
  destruct n as [|n]; [lia|]. intros _. simpl. apply floor_check_not_below.
Qed.

Lemma kept_refl p : kept p p.
Proof. by repeat split. Qed.

Lemma kept_trans p1 p2 p3 : kept p1 p2 -> kept p2 p3 -> kept p1 p3.
Proof. unfold kept. intuition congruence. Qed.

Lemma enact_force_kept g p : kept p (enact_force g p).
Proof. unfold enact_force. destruct (flying p); by repeat split. Qed.

Lemma move_person_kept p : kept p (move_person p).
Proof.
  unfold move_person, floor_check.
  destruct (Number.lt _ _); by repeat split.
Qed.

Lemma iter_kept f n p : (forall q, kept q (f q)) -> kept p (Nat.iter n f p).
Proof.
  intros Hf. induction n as [|n IH]; simpl; [apply kept_refl|].
  eapply kept_trans; [exact IH | apply Hf].
Qed.

(** C1 (as amended). After a tick of a room, every Person of the room has a
    [position.y] that is not below [FLOOR_Y]: it is [>= FLOOR_Y] unless it is
    NaN. When the Person sits in the room under one user id and the
    integration of that tick left its [position.y] below the floor, then
    after the tick [position.y] is [FLOOR_Y] and [velocity.y] is 0. This
    holds of the state the tick leaves even when a callback then throws. *)
Theorem tick_floor w r room k l p :
  room_store w !! r = Some room ->
  people room !! k = Some l ->
  person_store w !! l = Some p ->
  exists p',
    person_store (world_of (tick w r)) !! l = Some p' /\
    Number.lt (y (position p')) FLOOR_Y = false /\
    (Number.isNaN (y (position p')) = false ->
     Number.ge (y (position p')) FLOOR_Y = true) /\
    (distinct_persons room -> clamped (gravity room) p = true ->
     y (position p') = FLOOR_Y /\ y (velocity p') = 0%float).
Proof.
  intros Hr Hk Hl. rewrite (tick_world w r room Hr). simpl.
  rewrite tick_people_lookup, Hl. simpl. eexists. split; [reflexivity|].
  pose proof (visits_elem l _ (values_elem _ k l Hk)) as Hn.
  split; [by apply moved_not_below|].
  split; [intros Hnan; apply not_lt_floor; [by apply moved_not_below | done]|].
  intros Hd Hc.
  rewrite (visits_NoDup l _ (values_NoDup room Hd) (values_elem _ k l Hk)).
  simpl. apply floor_check_clamps. exact Hc.
Qed.

(** C9. A tick of a room changes, of a Person of the room, at most
    [position.x], [position.y], [position.z] and [velocity.y]: [velocity.x],
    [velocity.z], [yaw], [pitch], [username], [flying], [color] and [shape]
    are as before; and the room has the same map of user ids to Persons and
    the same gravity. *)
Theorem tick_frame w r room k l p :
  room_store w !! r = Some room ->
  people room !! k = Some l ->
  person_store w !! l = Some p ->
  exists room' p',
    room_store (world_of (tick w r)) !! r = Some room' /\
    person_store (world_of (tick w r)) !! l = Some p' /\
    x (velocity p') = x (velocity p) /\ z (velocity p') = z (velocity p) /\
    yaw p' = yaw p /\ pitch p' = pitch p /\ username p' = username p /\
    flying p' = flying p /\ color p' = color p /\ shape p' = shape p /\
    people room' = people room /\ dom (people room') = dom (people room) /\
    gravity room' = gravity room.
Proof.
  intros Hr Hk Hl. rewrite (tick_world w r room Hr). simpl.
  rewrite lookup_insert_eq, tick_people_lookup, Hl. simpl.
  eexists _, _. split; [reflexivity|]. split; [reflexivity|].
  assert (kept p
            (Nat.iter (visits l (values (people room))) move_person
               (Nat.iter (visits l (values (people room)))
                  (enact_force (gravity room)) p))) as Hkept.
  { eapply kept_trans; apply iter_kept;
      [apply enact_force_kept | apply move_person_kept]. }
  unfold kept in Hkept. simpl. intuition.
Qed.

End Tick.

Section Process.
Variable DEFAULT_GRAVITY : float.
Variables Math_cos Math_sin : float -> float.
Local Abbreviation step := (step DEFAULT_GRAVITY Math_cos Math_sin).
Local Abbreviation run := (run DEFAULT_GRAVITY Math_cos Math_sin).
Local Abbreviation act := (act DEFAULT_GRAVITY Math_cos Math_sin).
Local Abbreviation acts := (acts DEFAULT_GRAVITY Math_cos Math_sin).
Local Abbreviation on_room := (on_room DEFAULT_GRAVITY).
Local Abbreviation move_forwards_backwards_event :=
  (move_forwards_backwards_event Math_cos Math_sin).
Local Abbreviation move_right_left_event :=
  (move_right_left_event Math_cos Math_sin).

Lemma clock_refl s : clock_advances s s.
Proof. intros r room n Hr Hn. exists room, n. split; [done|]. split; [done | lia]. Qed.

Lemma clock_trans s1 s2 s3 :
  clock_advances s1 s2 -> clock_advances s2 s3 -> clock_advances s1 s3.
Proof.
  intros H12 H23 r room n Hr Hn.
  destruct (H12 r room n Hr Hn) as (room2 & n2 & Hr2 & Hn2 & Hle2).
  destruct (H23 r room2 n2 Hr2 Hn2) as (room3 & n3 & Hr3 & Hn3 & Hle3).
  exists room3, n3. split; [done|]. split; [done | lia].
Qed.

Lemma clock_alter f r0 s :
  (forall room, serverTime (f room) = serverTime room) ->
  clock_advances s (alter f r0 s).
Proof.
  intros Hf r room n Hr [Hn Ht]. destruct (decide (r0 = r)) as [->|Hne].
  - exists (f room), n. rewrite lookup_alter_eq, Hr. split; [done|].
    split; [|lia]. split; [done|]. by rewrite Hf.
  - exists room, n. rewrite lookup_alter_ne by done. split; [done|].
    split; [done | lia].
Qed.

Lemma clock_insert r0 room0 room1 s :
  s !! r0 = Some room0 -> serverTime room1 = serverTime room0 ->
  clock_advances s (<[r0 := room1]> s).
Proof.
  intros Hr0 Ht r room n Hr [Hn Hc]. destruct (decide (r0 = r)) as [->|Hne].
  - exists room1, n. rewrite lookup_insert_eq. split; [done|].
    split; [|lia]. split; [done|]. congruence.
  - exists room, n. rewrite lookup_insert_ne by done. split; [done|].
    split; [done | lia].
Qed.

Lemma clock_insert_fresh room0 s :
  clock_advances s (<[fresh (dom s) := room0]> s).
Proof.
  intros r room n Hr Hn. exists room, n. split; [|split; [done | lia]].
  rewrite lookup_insert_ne; [done|].
  intros <-. apply (is_fresh (dom s)). apply elem_of_dom. by exists room.
Qed.

Lemma clearInterval_room_store w h :
  room_store (clearInterval w h) = room_store w.
Proof. by destruct h. Qed.

Lemma stop_room_store w r : room_store (stop w r) = room_store w.
Proof.
  unfold stop.
  destruct (room_store w !! r); [apply clearInterval_room_store | done].
Qed.

Lemma removeRoom_room_store w roomId :
  room_store (removeRoom w roomId) = room_store w.
Proof.
  unfold removeRoom. destruct (rooms w !! roomId); [|done]. simpl.
  apply stop_room_store.
Qed.

Lemma removeFromRoom_clock w roomId userId :
  clock_advances (room_store w) (room_store (removeFromRoom w roomId userId)).
Proof.
  unfold removeFromRoom.
  destruct (rooms w !! roomId) as [r|]; [|apply clock_refl].
  set (w1 := set_room_store w _).
  assert (clock_advances (room_store w) (room_store w1)) as H1.
  { by apply clock_alter. }
  destruct (room_store w1 !! r) as [room|]; [|done].
  destruct (bool_decide _); [|done].
  by rewrite removeRoom_room_store.
Qed.

Lemma addToRoom_clock w roomId userId person :
  clock_advances (room_store w)
    (room_store (world_of (addToRoom w roomId userId person))).
Proof.
  unfold addToRoom. destruct person as [l|]; simpl.
  - destruct (rooms w !! roomId) as [r|]; simpl; [|apply clock_refl].
    by apply clock_alter.
  - destruct (rooms w !! roomId) as [r|]; simpl; [|apply clock_refl].
    by apply clock_alter.
Qed.

Lemma on_room_clock w s roomID_ :
  clock_advances (room_store w) (room_store (world_of (on_room w s roomID_))).
Proof.
  unfold on_room. destruct (sockets w !! s) as [c|]; [|apply clock_refl].
  set (w1 := if bool_decide (roomID c = "") then w else _).
  assert (clock_advances (room_store w) (room_store w1)) as H1.
  { unfold w1.
    destruct (bool_decide _); [apply clock_refl | apply removeFromRoom_clock]. }
  set (w2 := set_sockets w1 _).
  eapply clock_trans; [exact H1|].
  eapply clock_trans; [|apply addToRoom_clock].
  destruct (rooms w2 !! roomID_); [apply clock_refl|].
  simpl. eapply clock_trans; [apply clock_insert_fresh|].
  by apply clock_alter.
Qed.

(** One [serverTime += 1]: the next count, and the same one at [2 ^ 53]. *)
Lemma tick_time_clock n room :
  clock_at n room -> clock_at (Z.min (n + 1) (2 ^ 53))%Z (tick_time room).
Proof.
  intros [Hn Ht]. split; [lia|]. simpl. rewrite Ht.
  destruct (Z.eq_dec n (2 ^ 53)%Z) as [->|Hne]; [reflexivity|].
  rewrite Z.min_l by lia. apply count_succ. lia.
Qed.

Lemma tick_clock w r :
  clock_advances (room_store w) (room_store (world_of (tick w r))).
Proof.
  destruct (room_store w !! r) as [room|] eqn:Hr.
  - rewrite (tick_world w r room Hr). simpl. intros r' room' n Hr' Hn.
    destruct (decide (r = r')) as [->|Hne].
    + exists (tick_time room), (Z.min (n + 1) (2 ^ 53))%Z.
      rewrite lookup_insert_eq. split; [done|].
      assert (room' = room) as -> by congruence.
      split; [by apply tick_time_clock|]. destruct Hn as [Hn _]. lia.
    + exists room', n. rewrite lookup_insert_ne by done. split; [done|].
      split; [done | lia].
  - unfold tick. rewrite Hr. apply clock_refl.
Qed.

Lemma on_person_room_store w s f : room_store (on_person w s f) = room_store w.
Proof. unfold on_person. by destruct (sockets w !! s). Qed.

Lemma step_clock w e :
  clock_advances (room_store w) (room_store (world_of (step w e))).
Proof.
  destruct e; simpl; rewrite ?on_person_room_store; try apply clock_refl.
  - apply on_room_clock.
  - unfold on_disconnect.
    destruct (sockets w !! s); [apply removeFromRoom_clock | apply clock_refl].
  - unfold on_username. destruct (sockets w !! s); [|apply clock_refl].
    destruct (bool_decide _); apply clock_refl.
  - destruct (intervals w !! h) as [i|]; [|apply clock_refl].
    destruct (running i); [apply tick_clock | apply clock_refl].
Qed.

Lemma run_clock es w :
  clock_advances (room_store w) (room_store (world_of (run w es))).
Proof.
  revert w. induction es as [|e es IH]; intros w; simpl; [apply clock_refl|].
  pose proof (step_clock w e) as Hs.
  destruct (step w e) as [w'|x w']; simpl in *; [|done].
  eapply clock_trans; [exact Hs | apply IH].
Qed.

Lemma room_op_clock w r op :
  clock_advances (room_store w) (room_store (world_of (room_op w r op))).
Proof.
  unfold room_op. destruct (room_store w !! r) as [room|] eqn:Hr;
    [|apply clock_refl].
  destruct op; simpl.
  - unfold start. simpl. by apply clock_alter.
  - rewrite stop_room_store. apply clock_refl.
  - apply tick_clock.
  - by apply (clock_insert r room).
  - by apply (clock_insert r room).
Qed.

Lemma acts_clock l w :
  clock_advances (room_store w) (room_store (acts w l)).
Proof.
  revert w. induction l as [|a l IH]; intros w; [apply clock_refl|].
  change (acts w (a :: l)) with (acts (world_of (act w a)) l).
  eapply clock_trans; [|apply IH].
  destruct a as [r op|e]; [apply room_op_clock | apply step_clock].
Qed.

(** *** Every clock is a count *)

Lemma counted_alter f r0 s :
  (forall room, serverTime (f room) = serverTime room) ->
  counted s -> counted (alter f r0 s).
Proof.
  intros Hf Hs r room. destruct (decide (r0 = r)) as [->|Hne].
  - rewrite lookup_alter_eq. destruct (s !! r) as [room0|] eqn:Hr; [|done].
    intros [= <-]. destruct (Hs r room0 Hr) as (n & Hn & Ht).
    exists n. split; [done|]. by rewrite Hf.
  - rewrite lookup_alter_ne by done. apply Hs.
Qed.

Lemma counted_insert r0 room0 s :
  (exists n, clock_at n room0) -> counted s -> counted (<[r0 := room0]> s).
Proof.
  intros H0 Hs r room. destruct (decide (r0 = r)) as [->|Hne].
  - rewrite lookup_insert_eq. by intros [= <-].
  - rewrite lookup_insert_ne by done. apply Hs.
Qed.

Lemma removeFromRoom_counted w roomId userId :
  counted (room_store w) -> counted (room_store (removeFromRoom w roomId userId)).
Proof.
  intros Hw. unfold removeFromRoom.
  destruct (rooms w !! roomId) as [r|]; [|done].
  set (w1 := set_room_store w _).
  assert (counted (room_store w1)) as H1 by (by apply counted_alter).
  destruct (room_store w1 !! r) as [room|]; [|done].
  destruct (bool_decide _); [|done].
  by rewrite removeRoom_room_store.
Qed.

Lemma addToRoom_counted w roomId userId person :
  counted (room_store w) ->
  counted (room_store (world_of (addToRoom w roomId userId person))).
Proof.
  intros Hw. unfold addToRoom. destruct person as [l|]; simpl.
  - destruct (rooms w !! roomId) as [r|]; simpl; [|done].
    by apply counted_alter.
  - destruct (rooms w !! roomId) as [r|]; simpl; [|done].
    by apply counted_alter.
Qed.

Lemma on_room_counted w s roomID_ :
  counted (room_store w) ->
  counted (room_store (world_of (on_room w s roomID_))).
Proof.
  intros Hw. unfold on_room. destruct (sockets w !! s) as [c|]; [|done].
  set (w1 := if bool_decide (roomID c = "") then w else _).
  assert (counted (room_store w1)) as H1.
  { unfold w1. destruct (bool_decide _); [done|].
    by apply removeFromRoom_counted. }
  set (w2 := set_sockets w1 _).
  apply addToRoom_counted.
  destruct (rooms w2 !! roomID_); [done|].
  simpl. apply counted_alter; [done|]. apply counted_insert; [|done].
  by exists 0%Z.
Qed.

Lemma tick_counted w r :
  counted (room_store w) -> counted (room_store (world_of (tick w r))).
Proof.
  intros Hw. destruct (room_store w !! r) as [room|] eqn:Hr.
  - rewrite (tick_world w r room Hr). simpl. apply counted_insert; [|done].
    destruct (Hw r room Hr) as (n & Hn). eexists.
    by apply tick_time_clock.
  - unfold tick. by rewrite Hr.
Qed.

Lemma step_counted w e :
  counted (room_store w) -> counted (room_store (world_of (step w e))).
Proof.
  intros Hw. destruct e; simpl; rewrite ?on_person_room_store; try done.
  - by apply on_room_counted.
  - unfold on_disconnect.
    destruct (sockets w !! s); [by apply removeFromRoom_counted | done].
  - unfold on_username. destruct (sockets w !! s); [|done].
    by destruct (bool_decide _).
  - destruct (intervals w !! h) as [i|]; [|done].
    destruct (running i); [by apply tick_counted | done].
Qed.

Lemma room_op_counted w r op :
  counted (room_store w) -> counted (room_store (world_of (room_op w r op))).
Proof.
  intros Hw. unfold room_op.
  destruct (room_store w !! r) as [room|] eqn:Hr; [|done].
  destruct (Hw r room Hr) as (n & Hn & Ht).
  destruct op; simpl.
  - unfold start. simpl. by apply counted_alter.
  - by rewrite stop_room_store.
  - by apply tick_counted.
  - apply counted_insert; [by exists n | done].
  - apply counted_insert; [by exists n | done].
Qed.

Lemma acts_counted l w :
  counted (room_store w) -> counted (room_store (acts w l)).
Proof.
  revert w. induction l as [|a l IH]; intros w Hw; [done|].
  change (acts w (a :: l)) with (acts (world_of (act w a)) l).
  apply IH. destruct a as [r op|e];
    [by apply room_op_counted | by apply step_counted].
Qed.

(** A clock that is not behind, as doubles compare. *)
Lemma clock_at_ge n n' room room' :
  clock_at n room -> clock_at n' room' -> (n <= n')%Z ->
  Number.ge (serverTime room') (serverTime room) = true.
Proof.
  intros [Hn ->] [Hn' ->] Hle. unfold Number.ge.
  rewrite (leb_quanta _ _ _ _ (quanta_count n Hn) (quanta_count n' Hn')).
  apply Z.leb_le. apply Z.mul_le_mono_nonneg_r; [|done].
  apply Z.pow_nonneg. lia.
Qed.

Lemma clock_at_gt n n' room room' :
  clock_at n room -> clock_at n' room' -> (n < n')%Z ->
  Number.gt (serverTime room') (serverTime room) = true.
Proof.
  intros [Hn ->] [Hn' ->] Hlt. unfold Number.gt.
  rewrite (ltb_quanta _ _ _ _ (quanta_count n Hn) (quanta_count n' Hn')).
  apply Z.ltb_lt. apply Z.mul_lt_mono_pos_r; [|done].
  apply Z.pow_pos_nonneg; lia.
Qed.

(** C3 (as amended). Take a Room whose [serverTime] is the count [n] of the
    ticks it has had, at most [2 ^ 53]. A new Room has [serverTime] 0, the
    count 0. One execution of [tick] sets [serverTime] to the double
    [serverTime + 1]: below [2 ^ 53] that is the next count, the number
    [n + 1], which is greater, and at [2 ^ 53] it is [serverTime] itself. Over any sequence
    of calls of the methods of Rooms ([start], [stop], [tick], [onTick],
    [offTick]) and of events of the process, from any state, and over any
    run of the process, the [serverTime] of the Room is a count that is not
    less than it was. And the [serverTime] of every Room that such a
    sequence leaves, from the start of the process, is such a count. *)
Theorem serverTime_counts l es w r room n :
  room_store w !! r = Some room ->
  (0 <= n <= 2 ^ 53)%Z ->
  serverTime room = count n ->
  (forall g, serverTime (Room_new g) = 0%float /\ clock_at 0 (Room_new g)) /\
  quanta (serverTime room) = Some (n * 2 ^ 1074)%Z /\
  (exists room',
     room_store (world_of (tick w r)) !! r = Some room' /\
     serverTime room' = (serverTime room + 1)%float /\
     ((n < 2 ^ 53)%Z ->
      serverTime room' = count (n + 1) /\
      quanta (serverTime room') = Some ((n + 1) * 2 ^ 1074)%Z /\
      Number.gt (serverTime room') (serverTime room) = true) /\
     (n = (2 ^ 53)%Z -> serverTime room' = serverTime room)) /\
  (exists room' n',
     room_store (acts w l) !! r = Some room' /\
     serverTime room' = count n' /\ (n <= n' <= 2 ^ 53)%Z /\
     Number.ge (serverTime room') (serverTime room) = true) /\
  (exists room' n',
     room_store (world_of (run w es)) !! r = Some room' /\
     serverTime room' = count n' /\ (n <= n' <= 2 ^ 53)%Z /\
     Number.ge (serverTime room') (serverTime room) = true) /\
  (forall l0 r0 room0,
     room_store (acts World_init l0) !! r0 = Some room0 ->
     exists n0, (0 <= n0 <= 2 ^ 53)%Z /\ serverTime room0 = count n0).
Proof.
  intros Hr Hn Ht. assert (clock_at n room) as Hc by done.
  split; [by intros g|].
  split; [rewrite Ht; by apply quanta_count|]. split; [|split; [|split]];
    [| | |intros l0 r0 room0 Hr0;
           by apply (acts_counted l0 World_init ltac:(done) r0 room0)].
  - rewrite (tick_world w r room Hr). simpl. rewrite lookup_insert_eq.
    eexists. split; [done|]. split; [done|]. simpl. split.
    + intros Hlt. pose proof (tick_time_clock n room Hc) as Hc'.
      rewrite Z.min_l in Hc' by lia. split; [apply Hc'|]. split.
      * destruct Hc' as [_ Hc']. simpl in Hc'. rewrite Hc'.
        apply quanta_count. lia.
      * apply (clock_at_gt n (n + 1)%Z room (tick_time room)); [done..|lia].
    + intros ->. rewrite Ht. reflexivity.
  - destruct (acts_clock l w r room n Hr Hc) as (room' & n' & Hr' & Hc' & Hle).
    exists room', n'. split; [done|]. split; [apply Hc'|].
    split; [destruct Hc'; lia|]. by apply (clock_at_ge n n').
  - destruct (run_clock es w r room n Hr Hc) as (room' & n' & Hr' & Hc' & Hle).
    exists room', n'. split; [done|]. split; [apply Hc'|].
    split; [destruct Hc'; lia|]. by apply (clock_at_ge n n').
Qed.

(** *** The handlers of a socket *)

Lemma on_person_lookup w s c f p :
  sockets w !! s = Some c ->
  person_store w !! person c = Some p ->
  person_store (on_person w s f) !! person c = Some (f p) /\
  (forall l, l <> person c ->
     person_store (on_person w s f) !! l = person_store w !! l) /\
  rooms (on_person w s f) = rooms w /\
  room_store (on_person w s f) = room_store w /\
  sockets (on_person w s f) = sockets w /\
  intervals (on_person w s f) = intervals w.
Proof.
  intros Hs Hp. unfold on_person. rewrite Hs. simpl.
  rewrite lookup_alter_eq, Hp. repeat split.
  intros l Hne. by rewrite lookup_alter_ne.
Qed.

(** C7. ["move-forwards-backwards"] with a magnitude [m] replaces
    [position.z] by [position.z + m * cos(yaw)] and [position.x] by
    [position.x - m * sin(yaw)]; ["move-right-left"] replaces [position.z]
    by [position.z + m * sin(yaw)] and [position.x] by
    [position.x + m * cos(yaw)]. Both leave [position.y], [velocity], [yaw],
    [pitch] and every other field of the Person as they are, and touch no
    other Person. *)
Theorem move_events w s c p m :
  sockets w !! s = Some c ->
  person_store w !! person c = Some p ->
  (exists w',
     step w (OnMoveForwardsBackwards s m) = Return w' /\
     person_store w' !! person c =
       Some {| position :=
                 {| x := (x (position p) - m * Math_sin (yaw p))%float;
                    y := y (position p);
                    z := (z (position p) + m * Math_cos (yaw p))%float |};
               velocity := velocity p; yaw := yaw p; pitch := pitch p;
               username := username p; flying := flying p;
               color := color p; shape := shape p |} /\
     forall l, l <> person c -> person_store w' !! l = person_store w !! l) /\
  (exists w',
     step w (OnMoveRightLeft s m) = Return w' /\
     person_store w' !! person c =
       Some {| position :=
                 {| x := (x (position p) + m * Math_cos (yaw p))%float;
                    y := y (position p);
                    z := (z (position p) + m * Math_sin (yaw p))%float |};
               velocity := velocity p; yaw := yaw p; pitch := pitch p;
               username := username p; flying := flying p;
               color := color p; shape := shape p |} /\
     forall l, l <> person c -> person_store w' !! l = person_store w !! l).
Proof.
  intros Hs Hp. split.
  - destruct (on_person_lookup w s c (move_forwards_backwards_event m) p Hs Hp)
      as (H1 & H2 & _).
    eexists. split; [reflexivity|]. split; [exact H1 | exact H2].
  - destruct (on_person_lookup w s c (move_right_left_event m) p Hs Hp)
      as (H1 & H2 & _).
    eexists. split; [reflexivity|]. split; [exact H1 | exact H2].
Qed.

(** C8. ["rotate-counterclockwise"] with [radians] sets [yaw] to
    [yaw + radians] when that sum is not greater than [Math.PI * 2], and to
    [((yaw + radians) % Math.PI) * 2] when it is; nothing else of the Person
    changes. The result is not always in the range from 0 to 2 pi, 2 pi
    excluded: from a yaw of 0, a rotation by [-1] gives [-1] and a rotation
    by [Math.PI * 2] gives [Math.PI * 2]; and from the largest double, a
    rotation by as much overflows, and the rule gives NaN. On a finite sum
    the rule is exact: with [a] for the sum and [P] for the double
    [Math.PI], both counted in quanta of [2 ^ -1074], the remainder is
    [a mod P] and the new [yaw] is twice that, which is in the range. From
    a yaw of 0, a rotation by 7 gives [1.4336293856408275], by 10
    [1.1504440784612413], by [1e22] [2.1268636325523005], by the double
    after [Math.PI * 2] [2 ^ -49], and by [Math.PI * 4] 0. *)
Theorem rotate_counterclockwise_wrap :
  (forall radians p,
     rotate_counterclockwise_event radians p =
       set_yaw p
         (if Number.gt (yaw p + radians) (Math_PI * 2)
          then Number.remainder (yaw p + radians) Math_PI * 2
          else yaw p + radians)%float) /\
  (forall w s c p radians,
     sockets w !! s = Some c ->
     person_store w !! person c = Some p ->
     exists w',
       step w (OnRotateCounterclockwise s radians) = Return w' /\
       person_store w' !! person c =
         Some (rotate_counterclockwise_event radians p)) /\
  (exists radians p,
     yaw p = 0%float /\
     Number.lt (yaw (rotate_counterclockwise_event radians p)) 0%float
       = true) /\
  (exists radians p,
     yaw p = 0%float /\
     Number.lt (yaw (rotate_counterclockwise_event radians p)) (Math_PI * 2)
       = false /\
     Number.isNaN (yaw (rotate_counterclockwise_event radians p)) = false) /\
  (exists radians p,
     Number.gt (yaw p + radians) (Math_PI * 2) = true /\
     Number.isNaN (yaw (rotate_counterclockwise_event radians p)) = true) /\
  (forall radians p a,
     quanta (yaw p + radians) = Some a ->
     Number.gt (yaw p + radians) (Math_PI * 2) = true ->
     exists P,
       quanta Math_PI = Some P /\ (0 < 2 * P < a)%Z /\
       quanta (Number.remainder (yaw p + radians) Math_PI)
         = Some (a mod P)%Z /\
       quanta (yaw (rotate_counterclockwise_event radians p))
         = Some (2 * (a mod P))%Z /\
       Number.ge (yaw (rotate_counterclockwise_event radians p)) 0 = true /\
       Number.lt (yaw (rotate_counterclockwise_event radians p))
         (Math_PI * 2) = true) /\
  (forall p,
     yaw p = 0%float ->
     yaw (rotate_counterclockwise_event 7 p) = 0x1.6f0255dde974p+0%float /\
     yaw (rotate_counterclockwise_event 10 p) = 0x1.268380ccde2ep+0%float /\
     yaw (rotate_counterclockwise_event 1e22 p) = 0x1.103d11486e94p+1%float /\
     yaw (rotate_counterclockwise_event 0x1.921fb54442d19p+2 p)
       = 0x1p-49%float /\
     yaw (rotate_counterclockwise_event (Math_PI * 4) p) = 0%float).
Proof.
  assert (forall radians p,
     rotate_counterclockwise_event radians p =
       set_yaw p
         (if Number.gt (yaw p + radians) (Math_PI * 2)
          then Number.remainder (yaw p + radians) Math_PI * 2
          else yaw p + radians)%float) as Hrule.
  { intros radians p. unfold rotate_counterclockwise_event. simpl.
    by destruct (Number.gt _ _). }
  split; [exact Hrule|]. split; [|split; [|split; [|split; [|split]]]].
  - intros w s c p radians Hs Hp.
    destruct (on_person_lookup w s c (rotate_counterclockwise_event radians)
                p Hs Hp) as (H1 & _).
    eexists. split; [reflexivity | exact H1].
  - exists (-1)%float,
      (createPerson None None None None None None None None).
    split; reflexivity.
  - exists (Math_PI * 2)%float,
      (createPerson None None None None None None None None).
    repeat split; reflexivity.
  - exists 0x1.fffffffffffffp+1023%float,
      (createPerson None None None (Some 0x1.fffffffffffffp+1023%float)
         None None None None).
    split; reflexivity.
  - intros radians p a Ha Hgt. rewrite Hrule. unfold set_yaw. cbn [yaw].
    rewrite Hgt.
    destruct (quanta Math_PI) as [P|] eqn:HP; [|by vm_compute in HP].
    assert (quanta (Math_PI * 2) = Some (2 * P)%Z /\ (0 < P < 2 ^ 2000)%Z)
      as [H2P HPpos].
    { vm_compute in HP. injection HP as <-. split; [|split]; reflexivity. }
    unfold Number.gt in Hgt. rewrite (ltb_quanta _ _ _ _ H2P Ha) in Hgt.
    apply Z.ltb_lt in Hgt.
    pose proof (remainder_quanta _ _ _ _ Ha HP ltac:(lia)) as Hrem.
    rewrite Z.rem_mod_nonneg in Hrem by lia.
    pose proof (Z.mod_pos_bound a P ltac:(lia)) as Hmod.
    assert (2 ^ 2000 * 4 < 2 ^ 2098)%Z as Hbig by reflexivity.
    pose proof (mul2_quanta _ _ Hrem ltac:(lia)) as Hyaw.
    exists P. split; [done|]. split; [lia|]. split; [done|].
    split; [done|]. split.
    + unfold Number.ge.
      assert (quanta 0 = Some 0%Z) as H0 by reflexivity.
      rewrite (leb_quanta _ _ _ _ H0 Hyaw). apply Z.leb_le. lia.
    + unfold Number.lt.
      rewrite (ltb_quanta _ _ _ _ Hyaw H2P). apply Z.ltb_lt. lia.
  - intros p Hp. rewrite !Hrule. unfold set_yaw. cbn [yaw]. rewrite Hp.
    repeat split; reflexivity.
Qed.

(** C10. ["fly"] with a magnitude [m] replaces [position.y] by
    [position.y + m] and changes nothing else, of this Person or of any
    other: no floor check is made. So when [position.y + m] is below
    [FLOOR_Y], the Person is below the floor after the event; a tick of a
    room that holds the Person then leaves it not below the floor. *)
Theorem fly_event_no_clamp w s c p m :
  sockets w !! s = Some c ->
  person_store w !! person c = Some p ->
  exists w',
    step w (OnFly s m) = Return w' /\
    person_store w' !! person c =
      Some {| position :=
                {| x := x (position p); y := (y (position p) + m)%float;
                   z := z (position p) |};
              velocity := velocity p; yaw := yaw p; pitch := pitch p;
              username := username p; flying := flying p;
              color := color p; shape := shape p |} /\
    (forall l, l <> person c -> person_store w' !! l = person_store w !! l) /\
    rooms w' = rooms w /\ room_store w' = room_store w /\
    (Number.lt (y (position p) + m)%float FLOOR_Y = true ->
     exists p',
       person_store w' !! person c = Some p' /\
       Number.lt (y (position p')) FLOOR_Y = true) /\
    (forall r room k,
       room_store w' !! r = Some room ->
       people room !! k = Some (person c) ->
       exists p'',
         person_store (world_of (tick w' r)) !! person c = Some p'' /\
         Number.lt (y (position p'')) FLOOR_Y = false).
Proof.
  intros Hs Hp.
  destruct (on_person_lookup w s c (fly_event m) p Hs Hp)
    as (H1 & H2 & H3 & H4 & _).
  eexists. split; [reflexivity|].
  split; [exact H1|]. split; [exact H2|]. split; [exact H3|].
  split; [exact H4|]. split.
  - intros Hlt. eexists. split; [exact H1 | exact Hlt].
  - intros r room k Hr Hk. rewrite (tick_world _ r room Hr). simpl.
    rewrite tick_people_lookup, H1. simpl. eexists. split; [reflexivity|].
    apply moved_not_below. eapply visits_elem, values_elem, Hk.
Qed.

(** The passage of section 9 of the design notes: a yaw of 7 wraps to
    [(7 % Math.PI) * 2]. *)
Example rotate_to_7 :
  yaw (rotate_counterclockwise_event 7
         (createPerson None None None None None None None None))
  = 0x1.6f0255dde974p+0%float.
Proof. reflexivity. Qed.

(** *** The registry *)

(** C5. [addToRoom(roomId, userId, person)] throws exactly when the registry
    has no room under [roomId]; the exception is the ["Room does not exist"]
    error and the state is as before. When the registry has a Room under
    [roomId], the call returns, that Room maps [userId] to the given Person
    and is otherwise as before, and the registry, every other Room, the
    Persons, the sockets and the timers are as before. *)
Theorem addToRoom_spec w roomId userId l :
  (forall e w',
     addToRoom w roomId userId (Some l) = Throw e w' ->
     rooms w !! roomId = None) /\
  (rooms w !! roomId = None ->
   addToRoom w roomId userId (Some l) =
     Throw (Error ("Room does not exist: " ++ roomId)) w) /\
  (forall r room,
     rooms w !! roomId = Some r ->
     room_store w !! r = Some room ->
     exists w' room',
       addToRoom w roomId userId (Some l) = Return w' /\
       rooms w' = rooms w /\
       room_store w' !! r = Some room' /\
       people room' = <[userId := l]> (people room) /\
       people room' !! userId = Some l /\
       gravity room' = gravity room /\
       tickerHandle room' = tickerHandle room /\
       serverTime room' = serverTime room /\
       tickCallbacks room' = tickCallbacks room /\
       (forall r', r' <> r -> room_store w' !! r' = room_store w !! r') /\
       person_store w' = person_store w /\
       sockets w' = sockets w /\
       intervals w' = intervals w).
Proof.
  unfold addToRoom. split; [|split].
  - intros e w'. by destruct (rooms w !! roomId).
  - by intros ->.
  - intros r room Hr Hroom. rewrite Hr. eexists _, _.
    split; [reflexivity|]. simpl. rewrite lookup_alter_eq, Hroom. simpl.
    split; [done|]. split; [reflexivity|]. simpl.
    rewrite lookup_insert_eq. repeat split.
    intros r' Hne. by rewrite lookup_alter_ne.
Qed.

(** With no Person given, the default [createPerson()] is a new object, made
    before the check: it is what the room gets, or garbage when the call
    throws. The registry and the Rooms are as with a Person given. *)
Lemma addToRoom_default w roomId userId :
  let '(l, w1) :=
    new_person w (createPerson None None None None None None None None) in
  addToRoom w roomId userId None = addToRoom w1 roomId userId (Some l) /\
  person_store w !! l = None /\
  rooms w1 = rooms w /\ room_store w1 = room_store w.
Proof.
  unfold new_person. simpl. repeat split.
  apply not_elem_of_dom, is_fresh.
Qed.

(** C6 (the code departs from it). The ["username"] handler never writes a
    [username]: for a socket that has joined a room with a non-empty id,
    [rooms[roomID]] is not an entry of the registry and the handler throws
    a TypeError, the state as before; with the empty room id it skips the
    assignment. After a connection with the identifier ["u1"] joins the room
    ["A"], the event [username("Bob")] throws and the Person's [username]
    is still ["u1"]. *)
Theorem username_event_throws :
  (forall w s c name,
     sockets w !! s = Some c -> roomID c <> "" ->
     step w (OnUsername s name) = Throw TypeError w) /\
  (forall w s name, world_of (step w (OnUsername s name)) = w) /\
  (exists w room l p,
     run World_init [Connection "u1"; OnRoom 1 "A"] = Return w /\
     step w (OnUsername 1 "Bob") = Throw TypeError w /\
     rooms w !! "A" = Some 1%positive /\
     room_store w !! 1%positive = Some room /\
     people room !! "u1" = Some l /\
     person_store w !! l = Some p /\
     username p = "u1").
Proof.
  split; [|split].
  - intros w s c name Hs Hne. simpl. unfold on_username. rewrite Hs.
    by rewrite bool_decide_false.
  - intros w s name. simpl. unfold on_username.
    destruct (sockets w !! s); [|done]. by destruct (bool_decide _).
  - eexists _, _, _, _. split; [vm_compute; reflexivity|].
    repeat split; reflexivity.
Qed.

(** *** Gravity over several ticks *)

Lemma ticks_S n w r : ticks (S n) w r = ticks n (world_of (tick w r)) r.
Proof.
  unfold ticks. symmetry.
  apply (iter_shift (fun w' => world_of (tick w' r))).
Qed.

Lemma repeat_sub_S n d v : repeat_sub (S n) d v = repeat_sub n d (v - d).
Proof.
  unfold repeat_sub. symmetry.
  apply (iter_shift (fun v' => (v' - d)%float)).
Qed.

Lemma tick_person_velocity g p :
  clamped g p = false ->
  y (velocity (tick_person g p)) =
    if flying p then y (velocity p)
    else (y (velocity p) - g * TICK_LENGTH)%float.
Proof.
  unfold clamped, tick_person, move_person, floor_check. intros ->.
  unfold enact_force. by destruct (flying p).
Qed.

Lemma tick_person_flying g p : flying (tick_person g p) = flying p.
Proof.
  unfold tick_person.
  destruct (move_person_kept (enact_force g p)) as (_&_&_&_&_&H1&_).
  destruct (enact_force_kept g p) as (_&_&_&_&_&H2&_). congruence.
Qed.

Lemma distinct_persons_tick_time room :
  distinct_persons room -> distinct_persons (tick_time room).
Proof. done. Qed.

(** [n] ticks of a room, seen from one of its Persons. *)
Lemma ticks_lookup n w r room k l p :
  room_store w !! r = Some room ->
  people room !! k = Some l ->
  person_store w !! l = Some p ->
  distinct_persons room ->
  person_store (ticks n w r) !! l =
    Some (Nat.iter n (tick_person (gravity room)) p).
Proof.
  revert w room p. induction n as [|n IH]; intros w room p Hr Hk Hl Hd.
  - done.
  - rewrite ticks_S.
    change (Nat.iter (S n) (tick_person (gravity room)) p)
      with (tick_person (gravity room)
              (Nat.iter n (tick_person (gravity room)) p)).
    rewrite <- iter_shift.
    apply (IH _ (tick_time room)); try done.
    + rewrite (tick_world w r room Hr). simpl. by rewrite lookup_insert_eq.
    + rewrite (tick_world w r room Hr). simpl.
      by rewrite (tick_people_lookup_distinct room _ k l Hd Hk), Hl.
Qed.

Lemma iter_tick_person_velocity g n p :
  never_clamped g n p = true ->
  y (velocity (Nat.iter n (tick_person g) p)) =
    if flying p then y (velocity p)
    else repeat_sub n (g * TICK_LENGTH) (y (velocity p)).
Proof.
  revert p. induction n as [|n IH]; intros p Hn.
  - simpl. by destruct (flying p).
  - simpl in Hn. apply andb_true_iff in Hn as [Hc Hn].
    apply negb_true_iff in Hc.
    change (Nat.iter (S n) (tick_person g) p)
      with (tick_person g (Nat.iter n (tick_person g) p)).
    rewrite <- iter_shift, (IH _ Hn), tick_person_flying.
    rewrite (tick_person_velocity g p Hc).
    destruct (flying p); [done|]. by rewrite repeat_sub_S.
Qed.

(** [n] subtractions against the exact result: each one is off by at most
    [2 ^ -53] of what it subtracts from, in relative terms. *)
Lemma repeat_sub_bound n d v B D f0 :
  quanta d = Some D ->
  quanta v = Some f0 ->
  bounded_by B n d v = true ->
  exists fn,
    quanta (repeat_sub n d v) = Some fn /\
    (2 ^ 53 * Z.abs (fn - (f0 - Z.of_nat n * D))
     <= Z.of_nat n * (B + Z.abs D))%Z.
Proof.
  intros HD. revert v f0. induction n as [|n IH]; intros v f0 Hv Hb.
  - exists f0. split; [done|]. simpl. rewrite Z.sub_0_r, Z.sub_diag. done.
  - rewrite repeat_sub_S. simpl in Hb. rewrite Hv in Hb.
    apply andb_true_iff in Hb as [Hf0 Hb]. apply Z.leb_le in Hf0.
    destruct (quanta (v - d)) as [f1|] eqn:Hf1;
      [|by destruct n; simpl in Hb; rewrite Hf1 in Hb].
    destruct (IH (v - d)%float f1 Hf1 Hb) as (fn & Hfn & Hbound).
    exists fn. split; [done|].
    pose proof (sub_rounds v d f0 D Hv HD) as Hr. rewrite Hf1 in Hr.
    destruct Hr as [Hr _]. lia.
Qed.

(** A subtraction that is absorbed is absorbed every time. *)
Lemma repeat_sub_absorbed n d v :
  (v - d)%float = v -> repeat_sub n d v = v.
Proof.
  intros Hv. induction n as [|n IH]; [done|].
  by rewrite repeat_sub_S, Hv.
Qed.

(** A Person that a tick leaves as it is stays so, its floor check never
    firing. *)
Lemma tick_person_fixed g p n :
  tick_person g p = p -> clamped g p = false ->
  never_clamped g n p = true /\ Nat.iter n (tick_person g) p = p.
Proof.
  intros Hp Hc. induction n as [|n [IH1 IH2]]; [done|]. split.
  - simpl. by rewrite Hc, Hp.
  - simpl. by rewrite IH2.
Qed.

(** C2 (as amended). Take a Person that sits in a room under one user id,
    and [n] consecutive ticks of that room in none of which its floor check
    fires. If the Person is not flying, its [velocity.y] after the ticks is
    what [n] successive subtractions of the double [gravity * TICK_LENGTH]
    leave of the initial value, each subtraction rounded. Counted in quanta
    of [2 ^ -1074], with [D] for that double and [f0] for the initial value,
    and as long as the values on the way are finite and at most [B] in
    magnitude, it is within [n * (B + |D|) / 2 ^ 53] of [f0 - n * D]. When
    the first subtraction is absorbed by the rounding, [velocity.y] does not
    change at all. If the Person is flying, the gravity step of a tick
    leaves it as it is, and its [velocity.y] after the ticks is the initial
    one. *)
Theorem gravity_over_ticks n w r room k l p :
  room_store w !! r = Some room ->
  people room !! k = Some l ->
  person_store w !! l = Some p ->
  distinct_persons room ->
  never_clamped (gravity room) n p = true ->
  exists p',
    person_store (ticks n w r) !! l = Some p' /\
    (flying p = false ->
     y (velocity p') =
       repeat_sub n (gravity room * TICK_LENGTH) (y (velocity p)) /\
     (forall B D f0,
        quanta (gravity room * TICK_LENGTH) = Some D ->
        quanta (y (velocity p)) = Some f0 ->
        bounded_by B n (gravity room * TICK_LENGTH) (y (velocity p)) = true ->
        exists fn,
          quanta (y (velocity p')) = Some fn /\
          (2 ^ 53 * Z.abs (fn - (f0 - Z.of_nat n * D))
           <= Z.of_nat n * (B + Z.abs D))%Z) /\
     ((y (velocity p) - gravity room * TICK_LENGTH)%float = y (velocity p) ->
      y (velocity p') = y (velocity p))) /\
    (flying p = true ->
     enact_force (gravity room) p = p /\ y (velocity p') = y (velocity p)).
Proof.
  intros Hr Hk Hl Hd Hn. eexists.
  split; [by apply (ticks_lookup n w r room k l p)|].
  rewrite (iter_tick_person_velocity _ n p Hn).
  split; intros Hf; rewrite Hf.
  - split; [done|]. split.
    + intros B D f0 HD Hf0 Hb. by apply (repeat_sub_bound n _ _ B).
    + apply repeat_sub_absorbed.
  - split; [|done]. unfold enact_force. by rewrite Hf.
Qed.

(** *** The shape of [removeFromRoom] *)

Lemma removeFromRoom_eq w roomId userId r room :
  rooms w !! roomId = Some r ->
  room_store w !! r = Some room ->
  removeFromRoom w roomId userId =
    let w1 := set_room_store w (<[r := without userId room]> (room_store w)) in
    if bool_decide (delete userId (people room) = ∅) then
      set_rooms (clearInterval w1 (tickerHandle room))
        (delete roomId (rooms w))
    else w1.
Proof.
  intros Hr Hroom. unfold removeFromRoom. rewrite Hr. simpl.
  rewrite lookup_alter_eq, Hroom. simpl.
  assert (alter (fun room0 => set_people room0 (delete userId (people room0)))
            r (room_store w)
          = <[r := without userId room]> (room_store w)) as ->.
  { apply map_eq. intros r'. destruct (decide (r = r')) as [<-|Hne].
    - by rewrite lookup_alter_eq, lookup_insert_eq, Hroom.
    - by rewrite lookup_alter_ne, lookup_insert_ne. }
  rewrite (bool_decide_ext _ (delete userId (people room) = ∅))
    by apply map_size_empty_iff.
  destruct (bool_decide _); [|done].
  unfold removeRoom. simpl. rewrite Hr. unfold stop. simpl.
  rewrite lookup_insert_eq. simpl. by destruct (tickerHandle room).
Qed.

Lemma removeFromRoom_absent w roomId userId :
  rooms w !! roomId = None -> removeFromRoom w roomId userId = w.
Proof. unfold removeFromRoom. by intros ->. Qed.

Lemma without_absent userId room :
  people room !! userId = None -> without userId room = room.
Proof.
  intros Hn. unfold without. rewrite delete_id by done. by destruct room.
Qed.

Lemma set_room_store_id w r room :
  room_store w !! r = Some room ->
  set_room_store w (<[r := room]> (room_store w)) = w.
Proof. intros Hr. rewrite insert_id by done. by destruct w. Qed.


(** *** The registry and the timers *)

Lemma Timers_ok_shape w w' :
  rooms w' = rooms w -> intervals w' = intervals w ->
  (forall r, tickerHandle <$> room_store w' !! r
             = tickerHandle <$> room_store w !! r) ->
  Timers_ok w -> Timers_ok w'.
Proof.
  intros Hrooms Hint Hh (HR & HJ & HT). unfold Timers_ok.
  rewrite Hrooms, Hint. split; [|split; [done|]].
  - intros name r Hname.
    destruct (HR name r Hname) as (room & h & Hr & Hth & Hi).
    specialize (Hh r). rewrite Hr in Hh. simpl in Hh.
    destruct (room_store w' !! r) as [room'|]; [|done].
    exists room', h. simpl in Hh. split; [done|]. split; [congruence | done].
  - intros h i Hi Hrun.
    destruct (HT h i Hi Hrun) as (name & room & Hname & Hr & Hth).
    specialize (Hh (target i)). rewrite Hr in Hh. simpl in Hh.
    destruct (room_store w' !! target i) as [room'|]; [|done].
    exists name, room'. simpl in Hh. split; [done|]. split; [done | congruence].
Qed.

Lemma handle_alter (f : Room -> Room) r0 (s : gmap RoomRef Room) r :
  (forall room, tickerHandle (f room) = tickerHandle room) ->
  tickerHandle <$> alter f r0 s !! r = tickerHandle <$> s !! r.
Proof.
  intros Hf. destruct (decide (r0 = r)) as [->|Hne].
  - rewrite lookup_alter_eq. destruct (s !! r); simpl; [|done]. by rewrite Hf.
  - by rewrite lookup_alter_ne.
Qed.

Lemma handle_insert room' r0 (s : gmap RoomRef Room) room r :
  s !! r0 = Some room -> tickerHandle room' = tickerHandle room ->
  tickerHandle <$> <[r0 := room']> s !! r = tickerHandle <$> s !! r.
Proof.
  intros Hr0 Hh. destruct (decide (r0 = r)) as [->|Hne].
  - rewrite lookup_insert_eq, Hr0. simpl. by rewrite Hh.
  - by rewrite lookup_insert_ne.
Qed.

(** The last occupant leaves: the Room is stopped and its entry deleted. *)
Lemma Timers_ok_remove w roomId r room room' :
  Timers_ok w ->
  rooms w !! roomId = Some r ->
  room_store w !! r = Some room ->
  tickerHandle room' = tickerHandle room ->
  let w' :=
    set_rooms
      (clearInterval (set_room_store w (<[r := room']> (room_store w)))
         (tickerHandle room))
      (delete roomId (rooms w)) in
  Timers_ok w' /\ discarded w' r.
Proof.
  intros (HR & HJ & HT) Hname Hroom Hh.
  destruct (HR roomId r Hname) as (room0 & h & Hr0 & Hth & Hi).
  assert (room0 = room) as -> by congruence.
  rewrite Hth. simpl.
  assert (forall h' i', intervals w !! h' = Some i' -> running i' = true ->
                        target i' = r -> h' = h) as Honly.
  { intros h' i' Hi' Hrun' Ht'.
    destruct (HT h' i' Hi' Hrun') as (name' & room1 & _ & Hr1 & Hth1).
    rewrite Ht' in Hr1. congruence. }
  split; [split; [|split]|split; [|split]]; simpl.
  - intros name r' Hname'.
    apply lookup_delete_Some in Hname' as [Hne Hname'].
    destruct (HR name r' Hname') as (room1 & h1 & Hr1 & Hth1 & Hi1).
    assert (r' <> r) as Hner by (intros ->; by apply Hne, (HJ roomId name r)).
    exists room1, h1. rewrite lookup_insert_ne by done.
    split; [done|]. split; [done|].
    rewrite lookup_alter_ne; [done|].
    intros <-. rewrite Hi in Hi1. by injection Hi1.
  - intros n1 n2 r'. rewrite !lookup_delete_Some. intros [_ H1] [_ H2].
    by apply (HJ n1 n2 r').
  - intros h' i' Hi' Hrun'.
    destruct (decide (h = h')) as [<-|Hneh].
    { rewrite lookup_alter_eq, Hi in Hi'. simpl in Hi'.
      injection Hi' as <-. done. }
    rewrite lookup_alter_ne in Hi' by done.
    destruct (HT h' i' Hi' Hrun') as (name' & room1 & Hname' & Hr1 & Hth1).
    assert (target i' <> r) as Hner.
    { intros Ht'. apply Hneh. symmetry. by apply (Honly h' i'). }
    exists name', room1. rewrite lookup_insert_ne by done.
    split; [|done]. apply lookup_delete_Some. split; [|done].
    intros <-. congruence.
  - rewrite lookup_insert_eq. by eexists.
  - intros name. rewrite lookup_delete_Some. intros [Hne Hname'].
    by apply Hne, (HJ roomId name r).
  - intros h' i' Hi' Hrun' Ht'.
    destruct (decide (h = h')) as [<-|Hneh].
    { rewrite lookup_alter_eq, Hi in Hi'. simpl in Hi'.
      injection Hi' as <-. done. }
    rewrite lookup_alter_ne in Hi' by done.
    apply Hneh. symmetry. by apply (Honly h' i').
Qed.

(** A Room is made, started and registered under an id that had none. *)
Lemma Timers_ok_create w roomID_ room0 :
  Timers_ok w ->
  rooms w !! roomID_ = None ->
  let r := fresh (dom (room_store w)) in
  let w1 := start (set_room_store w (<[r := room0]> (room_store w))) r in
  Timers_ok (set_rooms w1 (<[roomID_ := r]> (rooms w1))).
Proof.
  intros (HR & HJ & HT) Hnone r w1.
  assert (room_store w !! r = None) as Hfresh.
  { apply not_elem_of_dom, is_fresh. }
  set (h := fresh (dom (intervals w))).
  assert (intervals w !! h = None) as Hfreshh.
  { apply not_elem_of_dom, is_fresh. }
  unfold w1, start. simpl. fold h.
  split; [|split]; simpl.
  - intros name r'. rewrite lookup_insert_Some.
    intros [[<- <-]|[Hne Hname]].
    + eexists _, h. rewrite lookup_alter_eq, lookup_insert_eq. simpl.
      split; [done|]. split; [done|]. by rewrite lookup_insert_eq.
    + destruct (HR name r' Hname) as (room1 & h1 & Hr1 & Hth1 & Hi1).
      assert (r <> r') by congruence. assert (h <> h1) by congruence.
      exists room1, h1. rewrite lookup_alter_ne, !lookup_insert_ne by done.
      done.
  - intros n1 n2 r'. rewrite !lookup_insert_Some.
    intros [[<- <-]|[Hne1 H1]] [[<- Heq]|[Hne2 H2]]; try done.
    + destruct (HR n2 r H2) as (? & ? & ? & _). congruence.
    + subst r'. destruct (HR n1 r H1) as (? & ? & ? & _). congruence.
    + by apply (HJ n1 n2 r').
  - intros h' i'. rewrite lookup_insert_Some.
    intros [[<- <-]|[Hneh Hi']] Hrun'; simpl.
    + eexists roomID_, _.
      rewrite lookup_insert_eq, lookup_alter_eq, lookup_insert_eq.
      done.
    + destruct (HT h' i' Hi' Hrun') as (name' & room1 & Hname' & Hr1 & Hth1).
      assert (r <> target i') by congruence.
      exists name', room1.
      rewrite lookup_alter_ne, !lookup_insert_ne by congruence.
      done.
Qed.


(** *** The sockets and the Persons *)

Lemma Sockets_ok_shape w w' :
  (forall s, (fun c => (userID c, person c)) <$> sockets w' !! s
             = (fun c => (userID c, person c)) <$> sockets w !! s) ->
  (forall l, is_Some (person_store w !! l) -> is_Some (person_store w' !! l)) ->
  (forall r room' k l,
     room_store w' !! r = Some room' -> people room' !! k = Some l ->
     (exists room, room_store w !! r = Some room /\ people room !! k = Some l)
     \/ (exists s c,
           sockets w !! s = Some c /\ userID c = k /\ person c = l)) ->
  Sockets_ok w -> Sockets_ok w'.
Proof.
  intros Hs Hp Hr (H1 & H2 & H3).
  assert (forall s c, sockets w !! s = Some c ->
            exists c', sockets w' !! s = Some c' /\
                       userID c' = userID c /\ person c' = person c) as Hto.
  { intros s c Hc. specialize (Hs s). rewrite Hc in Hs. simpl in Hs.
    destruct (sockets w' !! s) as [c'|]; [|done]. simpl in Hs.
    exists c'. split; [done|]. split; congruence. }
  assert (forall s c', sockets w' !! s = Some c' ->
            exists c, sockets w !! s = Some c /\
                      userID c' = userID c /\ person c' = person c) as Hfrom.
  { intros s c' Hc'. specialize (Hs s). rewrite Hc' in Hs. simpl in Hs.
    destruct (sockets w !! s) as [c|]; [|done]. simpl in Hs.
    exists c. split; [done|]. split; congruence. }
  split; [|split].
  - intros r room' k l Hroom' Hk.
    assert (exists s c, sockets w !! s = Some c /\ userID c = k /\ person c = l)
      as (s & c & Hc & Hu & Hpc).
    { destruct (Hr r room' k l Hroom' Hk) as [(room & Hroom & Hk')|?]; [|done].
      by apply (H1 r room). }
    destruct (Hto s c Hc) as (c' & Hc' & Hu' & Hp').
    exists s, c'. split; [done|]. split; congruence.
  - intros s1 s2 c1' c2' Hc1' Hc2' Heq.
    destruct (Hfrom s1 c1' Hc1') as (c1 & Hc1 & _ & Hp1).
    destruct (Hfrom s2 c2' Hc2') as (c2 & Hc2 & _ & Hp2).
    apply (H2 s1 s2 c1 c2); [done | done | congruence].
  - intros s c' Hc'. destruct (Hfrom s c' Hc') as (c & Hc & _ & Hpc).
    rewrite Hpc. apply Hp. by apply (H3 s c).
Qed.

Lemma Sockets_ok_connection w uuid :
  Sockets_ok w -> Sockets_ok (on_connection w uuid).
Proof.
  intros (H1 & H2 & H3). unfold on_connection. simpl.
  set (l := fresh (dom (person_store w))).
  set (s := fresh (dom (sockets w))).
  assert (person_store w !! l = None) as Hl by apply not_elem_of_dom, is_fresh.
  assert (sockets w !! s = None) as Hs by apply not_elem_of_dom, is_fresh.
  split; [|split]; simpl.
  - intros r room k l' Hroom Hk.
    destruct (H1 r room k l' Hroom Hk) as (s' & c & Hc & Hu & Hpc).
    exists s', c. rewrite lookup_insert_ne by congruence. done.
  - intros s1 s2 c1 c2. rewrite !lookup_insert_Some.
    intros [[<- <-]|[Hne1 Hc1]] [[<- <-]|[Hne2 Hc2]]; simpl; try done.
    + intros Heq. destruct (H3 s2 c2 Hc2) as [? Hsome]. congruence.
    + intros Heq. destruct (H3 s1 c1 Hc1) as [? Hsome]. congruence.
    + by apply H2.
  - intros s' c. rewrite lookup_insert_Some.
    intros [[<- <-]|[Hne Hc]]; simpl.
    + rewrite lookup_insert_eq. by eexists.
    + destruct (H3 s' c Hc) as [p Hp]. exists p.
      rewrite lookup_insert_ne by congruence. done.
Qed.

(** In a state the program reaches, no Person sits in a room twice. *)
Lemma Sockets_ok_distinct w r room :
  Sockets_ok w -> room_store w !! r = Some room -> distinct_persons room.
Proof.
  intros (H1 & H2 & _) Hroom k1 k2 l Hk1 Hk2.
  destruct (H1 r room k1 l Hroom Hk1) as (s1 & c1 & Hc1 & <- & Hp1).
  destruct (H1 r room k2 l Hroom Hk2) as (s2 & c2 & Hc2 & <- & Hp2).
  assert (s1 = s2) as -> by (apply (H2 s1 s2 c1 c2); congruence).
  congruence.
Qed.


(** *** Every turn of the event loop keeps the state in order *)

Lemma World_ok_init : World_ok World_init.
Proof.
  split; [split; [|split] | split; [|split; [|split]]]; simpl; by intros *.
Qed.

Lemma without_people_lookup userId room k l :
  people (without userId room) !! k = Some l -> people room !! k = Some l.
Proof. simpl. rewrite lookup_delete_Some. by intros [_ ?]. Qed.

Lemma removeFromRoom_ok w roomId userId :
  World_ok w -> World_ok (removeFromRoom w roomId userId).
Proof.
  intros (HT & HI & HS).
  destruct (rooms w !! roomId) as [r|] eqn:Hname;
    [|by rewrite removeFromRoom_absent].
  destruct HT as (HR & HJ & HT').
  destruct (HR roomId r Hname) as (room & h & Hroom & Hth & Hi).
  rewrite (removeFromRoom_eq w roomId userId r room Hname Hroom). simpl.
  assert (Sockets_ok (set_room_store w
            (<[r := without userId room]> (room_store w)))) as HS1.
  { revert HS. apply Sockets_ok_shape; simpl; [done | done |].
    intros r' room' k l. rewrite lookup_insert_Some.
    intros [[<- <-]|[Hne Hr']] Hk; left.
    - exists room. split; [done|]. by eapply without_people_lookup.
    - by exists room'. }
  case_bool_decide as Hempty.
  - destruct (Timers_ok_remove w roomId r room (without userId room))
      as [HT1 _]; [done..|].
    split; [exact HT1|]. split; [|destruct (tickerHandle room); exact HS1].
    intros name r' room'. simpl. rewrite lookup_delete_Some.
    intros [Hne Hname'].
    assert (r' <> r) by (intros ->; by apply Hne, (HJ roomId name r)).
    rewrite clearInterval_room_store. simpl.
    rewrite lookup_insert_ne by done. by apply (HI name r').
  - split; [|split; [|exact HS1]].
    + apply (Timers_ok_shape w); simpl; [done | done | | done].
      intros r'. by apply (handle_insert _ _ _ room).
    + intros name r' room'. simpl. rewrite lookup_insert_Some.
      intros Hname' [[<- <-]|[Hne Hr']]; [done|]. by apply (HI name r').
Qed.

Lemma on_person_ok w s f : World_ok w -> World_ok (on_person w s f).
Proof.
  intros (HT & HI & HS). unfold on_person.
  destruct (sockets w !! s) as [c|]; [|done].
  split; [|split].
  - by apply (Timers_ok_shape w).
  - exact HI.
  - revert HS. apply Sockets_ok_shape; simpl; [done | | by left; eexists].
    intros l [p Hp]. destruct (decide (person c = l)) as [<-|Hne].
    + rewrite lookup_alter_eq, Hp. by eexists.
    + rewrite lookup_alter_ne by done. by eexists.
Qed.

Lemma on_connection_ok w uuid : World_ok w -> World_ok (on_connection w uuid).
Proof.
  intros (HT & HI & HS). split; [|split].
  - by apply (Timers_ok_shape w).
  - exact HI.
  - by apply Sockets_ok_connection.
Qed.

Lemma tick_ok w r : World_ok w -> World_ok (world_of (tick w r)).
Proof.
  intros (HT & HI & HS).
  destruct (room_store w !! r) as [room|] eqn:Hroom;
    [|by unfold tick; rewrite Hroom].
  rewrite (tick_world w r room Hroom). split; [|split].
  - apply (Timers_ok_shape w); simpl; [done | done | | done].
    intros r'. by apply (handle_insert _ _ _ room).
  - intros name r' room'. simpl. rewrite lookup_insert_Some.
    intros Hname [[<- <-]|[Hne Hr']]; [|by apply (HI name r')].
    simpl. by apply (HI name r).
  - revert HS. apply Sockets_ok_shape; simpl; [done | |].
    + intros l [p Hp]. rewrite tick_people_lookup, Hp. by eexists.
    + intros r' room' k l. rewrite lookup_insert_Some.
      intros [[<- <-]|[Hne Hr']] Hk; left; by eexists.
Qed.

(** [addToRoom] with the [userID] and the [person] of a socket, in a state
    where only the room it adds to may be empty. *)
Lemma addToRoom_ok w roomId r s c :
  Timers_ok w -> Sockets_ok w ->
  (forall name r' room, name <> roomId -> rooms w !! name = Some r' ->
     room_store w !! r' = Some room -> people room <> ∅) ->
  rooms w !! roomId = Some r ->
  sockets w !! s = Some c ->
  exists w',
    addToRoom w roomId (userID c) (Some (person c)) = Return w' /\ World_ok w'.
Proof.
  intros HT HS HI Hname Hc. unfold addToRoom. rewrite Hname.
  eexists. split; [reflexivity|]. split; [|split].
  - apply (Timers_ok_shape w); simpl; [done | done | | done].
    intros r'. by apply handle_alter.
  - intros name r' room'. simpl. intros Hname'.
    destruct (decide (r = r')) as [<-|Hne].
    + rewrite lookup_alter_eq. destruct (room_store w !! r); [|done].
      simpl. intros [= <-]. simpl. apply insert_non_empty.
    + rewrite lookup_alter_ne by done. apply (HI name r').
      * intros ->. congruence.
      * done.
  - revert HS. apply Sockets_ok_shape; simpl; [done | done |].
    intros r' room' k l.
    destruct (decide (r = r')) as [<-|Hne].
    + rewrite lookup_alter_eq.
      destruct (room_store w !! r) as [room|]; [|done].
      simpl. intros [= <-]. simpl. rewrite lookup_insert_Some.
      intros [[<- <-]|[Hnek Hk]]; [right; by exists s, c | left; by eexists].
    + rewrite lookup_alter_ne by done. intros Hr' Hk. left. by eexists.
Qed.

Lemma on_room_ok w s roomID_ :
  World_ok w ->
  exists w', on_room w s roomID_ = Return w' /\ World_ok w'.
Proof.
  intros Hok. unfold on_room.
  destruct (sockets w !! s) as [c|] eqn:Hc; [|by eexists].
  set (w1 := if bool_decide (roomID c = "") then w else _).
  assert (World_ok w1) as Hok1.
  { unfold w1. destruct (bool_decide _); [done | by apply removeFromRoom_ok]. }
  assert (sockets w1 = sockets w) as Hs1.
  { unfold w1. destruct (bool_decide _); [done|].
    unfold removeFromRoom. destruct (rooms w !! roomID c); [|done].
    simpl. destruct (alter _ _ _ !! _); [|done].
    destruct (bool_decide _); [|done].
    unfold removeRoom. simpl. destruct (rooms w !! roomID c); [|done].
    simpl. unfold stop. simpl. destruct (alter _ _ _ !! _); [|done].
    by destruct (tickerHandle _). }
  set (c' := set_roomID c roomID_).
  set (w2 := set_sockets w1 (<[s := c']> (sockets w1))).
  assert (World_ok w2) as (HT2 & HI2 & HS2).
  { destruct Hok1 as (HT1 & HI1 & HS1). split; [|split].
    - by apply (Timers_ok_shape w1).
    - exact HI1.
    - revert HS1. apply Sockets_ok_shape; simpl; [| done | by left; eexists].
      intros s'. destruct (decide (s = s')) as [<-|Hne].
      + by rewrite lookup_insert_eq, Hs1, Hc.
      + by rewrite lookup_insert_ne. }
  assert (sockets w2 !! s = Some c') as Hc2.
  { unfold w2. simpl. by rewrite lookup_insert_eq. }
  change (userID c) with (userID c'). change (person c) with (person c').
  destruct (rooms w2 !! roomID_) as [r|] eqn:Hname.
  - apply (addToRoom_ok w2 roomID_ r s c'); try done.
    intros name r' room _. apply HI2.
  - set (r := fresh (dom (room_store w2))).
    eapply (addToRoom_ok _ roomID_ r s c').
    + by apply Timers_ok_create.
    + revert HS2. apply Sockets_ok_shape; simpl; [done | done |].
      intros r' room' k l. destruct (decide (r = r')) as [<-|Hne].
      * rewrite lookup_alter_eq, lookup_insert_eq. simpl. intros [= <-].
        simpl. by rewrite lookup_empty.
      * rewrite lookup_alter_ne, lookup_insert_ne by done.
        intros Hr' Hk. left. by eexists.
    + intros name r' room Hne. simpl. rewrite lookup_insert_ne by done.
      intros Hname'. destruct HT2 as (HR2 & _).
      destruct (HR2 name r' Hname') as (room1 & _ & Hr1 & _).
      assert (r <> r').
      { intros <-. pose proof (is_fresh (dom (room_store w2))) as Hf.
        apply Hf, elem_of_dom. by eexists. }
      rewrite lookup_alter_ne, lookup_insert_ne by done.
      by apply (HI2 name r').
    + simpl. by rewrite lookup_insert_eq.
    + simpl. exact Hc2.
Qed.

Lemma step_ok w e : World_ok w -> World_ok (world_of (step w e)).
Proof.
  intros Hok. destruct e; simpl; try (by apply on_person_ok).
  - by apply on_connection_ok.
  - destruct (on_room_ok w s roomID_ Hok) as (w' & -> & Hok'). done.
  - unfold on_disconnect. destruct (sockets w !! s); [|done].
    by apply removeFromRoom_ok.
  - unfold on_username. destruct (sockets w !! s); [|done].
    by destruct (bool_decide _).
  - destruct (intervals w !! h) as [i|]; [|done].
    destruct (running i); [by apply tick_ok | done].
Qed.

Lemma run_ok es w : World_ok w -> World_ok (world_of (run w es)).
Proof.
  revert w. induction es as [|e es IH]; intros w Hok; simpl; [done|].
  pose proof (step_ok w e Hok) as Hs.
  destruct (step w e) as [w'|x w']; simpl in *; [by apply IH | done].
Qed.


(** *** A discarded Room stays discarded *)

Lemma discarded_mono w w' r :
  (is_Some (room_store w !! r) -> is_Some (room_store w' !! r)) ->
  (forall name, rooms w' !! name = Some r -> rooms w !! name = Some r) ->
  (forall h i, intervals w' !! h = Some i -> running i = true ->
               target i = r ->
               exists i0, intervals w !! h = Some i0 /\ running i0 = true /\
                          target i0 = r) ->
  discarded w r -> discarded w' r.
Proof.
  intros Hs Hr Hi (D1 & D2 & D3). split; [by apply Hs|]. split.
  - intros name Hname. by apply (D2 name), Hr.
  - intros h i Hi' Hrun Ht.
    destruct (Hi h i Hi' Hrun Ht) as (i0 & Hi0 & Hrun0 & Ht0).
    by apply (D3 h i0).
Qed.

Lemma clearInterval_running w handle h i :
  intervals (clearInterval w handle) !! h = Some i -> running i = true ->
  intervals w !! h = Some i.
Proof.
  destruct handle as [h0|]; [|done]. simpl.
  destruct (decide (h0 = h)) as [->|Hne].
  - rewrite lookup_alter_eq. destruct (intervals w !! h); [|done].
    simpl. by intros [= <-].
  - by rewrite lookup_alter_ne.
Qed.

Lemma removeFromRoom_discarded w roomId userId r :
  World_ok w -> discarded w r -> discarded (removeFromRoom w roomId userId) r.
Proof.
  intros ((HR & _) & _).
  destruct (rooms w !! roomId) as [r0|] eqn:Hname;
    [|by rewrite removeFromRoom_absent].
  destruct (HR roomId r0 Hname) as (room & h & Hroom & Hth & Hi).
  rewrite (removeFromRoom_eq w roomId userId r0 room Hname Hroom). simpl.
  assert (is_Some (room_store w !! r) ->
          is_Some (<[r0 := without userId room]> (room_store w) !! r)) as Hs.
  { intros [x Hx]. destruct (decide (r0 = r)) as [->|Hne].
    - rewrite lookup_insert_eq. by eexists.
    - rewrite lookup_insert_ne by done. by eexists. }
  destruct (bool_decide _).
  - apply discarded_mono; simpl.
    + by rewrite clearInterval_room_store.
    + intros name. rewrite lookup_delete_Some. by intros [_ ?].
    + intros h' i' Hi' Hrun Ht. exists i'.
      split; [|done]. exact (clearInterval_running _ _ _ _ Hi' Hrun).
  - apply discarded_mono; simpl; [done | done |].
    intros h' i' Hi' Hrun Ht. by exists i'.
Qed.

Lemma on_room_discarded w s roomID_ r :
  World_ok w -> discarded w r ->
  discarded (world_of (on_room w s roomID_)) r.
Proof.
  intros Hok Hd. unfold on_room.
  destruct (sockets w !! s) as [c|]; [|done].
  set (w1 := if bool_decide (roomID c = "") then w else _).
  assert (discarded w1 r) as Hd1.
  { unfold w1. destruct (bool_decide _);
      [done | by apply removeFromRoom_discarded]. }
  set (w2 := set_sockets w1 _).
  assert (discarded w2 r) as Hd2 by done.
  set (w3 := match rooms w2 !! roomID_ with Some _ => w2 | None => _ end).
  assert (discarded w3 r) as Hd3.
  { unfold w3. destruct (rooms w2 !! roomID_); [done|].
    destruct Hd2 as (D1 & D2 & D3).
    assert (fresh (dom (room_store w2)) <> r) as Hne.
    { intros <-. by apply (is_fresh (dom (room_store w2))), elem_of_dom. }
    split; [|split]; simpl.
    - by rewrite lookup_alter_ne, lookup_insert_ne.
    - intros name. rewrite lookup_insert_Some.
      intros [[_ ?]|[_ ?]]; [done | by apply (D2 name)].
    - intros h i. rewrite lookup_insert_Some.
      intros [[_ <-]|[_ Hi]] Hrun; [done | by apply (D3 h i)]. }
  revert Hd3. generalize w3. intros w4. unfold addToRoom.
  destruct (rooms w4 !! roomID_) as [r4|]; [|done].
  apply discarded_mono; simpl; [| done | by intros h i; exists i].
  intros [x Hx]. destruct (decide (r4 = r)) as [->|Hne].
  - rewrite lookup_alter_eq, Hx. by eexists.
  - rewrite lookup_alter_ne by done. by eexists.
Qed.

Lemma step_discarded w e r :
  World_ok w -> discarded w r -> discarded (world_of (step w e)) r.
Proof.
  intros Hok Hd.
  assert (forall s f, discarded (on_person w s f) r) as Hp.
  { intros s f. unfold on_person. by destruct (sockets w !! s). }
  destruct e; simpl; try apply Hp.
  - done.
  - by apply on_room_discarded.
  - unfold on_disconnect. destruct (sockets w !! s); [|done].
    by apply removeFromRoom_discarded.
  - unfold on_username. destruct (sockets w !! s); [|done].
    by destruct (bool_decide _).
  - destruct (intervals w !! h) as [i|]; [|done].
    destruct (running i); [|done].
    destruct (room_store w !! target i) as [room|] eqn:Hroom;
      [|by unfold tick; rewrite Hroom].
    rewrite (tick_world w _ room Hroom).
    revert Hd.
    apply discarded_mono; simpl; [| done | by intros h' i'; exists i'].
    intros [x Hx]. destruct (decide (target i = r)) as [->|Hne].
    + rewrite lookup_insert_eq. by eexists.
    + rewrite lookup_insert_ne by done. by eexists.
Qed.

Lemma run_discarded es w r :
  World_ok w -> discarded w r ->
  World_ok (world_of (run w es)) /\ discarded (world_of (run w es)) r.
Proof.
  revert w. induction es as [|e es IH]; intros w Hok Hd; simpl; [done|].
  pose proof (step_ok w e Hok) as Hok'.
  pose proof (step_discarded w e r Hok Hd) as Hd'.
  destruct (step w e) as [w'|x w']; simpl in *; [by apply IH | done].
Qed.

(** A discarded Room is ticked by no event. *)
Lemma discarded_not_ticked w r e : discarded w r -> ticked w e <> Some r.
Proof.
  intros (_ & _ & D3). destruct e; simpl; try done.
  destruct (intervals w !! h) as [i|] eqn:Hi; [|done].
  destruct (running i) eqn:Hrun; [|done].
  intros [= Ht]. by apply (D3 h i).
Qed.


(** *** Leaving a room *)

Lemma removeFromRoom_fields w roomId userId :
  dom (room_store (removeFromRoom w roomId userId)) = dom (room_store w) /\
  (forall name, rooms w !! name = None ->
                rooms (removeFromRoom w roomId userId) !! name = None) /\
  sockets (removeFromRoom w roomId userId) = sockets w /\
  person_store (removeFromRoom w roomId userId) = person_store w.
Proof.
  unfold removeFromRoom.
  destruct (rooms w !! roomId) as [r|] eqn:Hname; [|done].
  simpl. destruct (alter _ _ _ !! _) eqn:Hroom;
    [|by simpl; rewrite dom_alter_L].
  destruct (bool_decide _); [|by simpl; rewrite dom_alter_L].
  unfold removeRoom. simpl. rewrite Hname. simpl. unfold stop. simpl.
  rewrite Hroom.
  assert (forall w0 h, room_store (clearInterval w0 h) = room_store w0 /\
                       rooms (clearInterval w0 h) = rooms w0 /\
                       sockets (clearInterval w0 h) = sockets w0 /\
                       person_store (clearInterval w0 h) = person_store w0)
    as Hc by (by intros w0 [h|]).
  destruct (Hc (set_room_store w
                  (alter (fun room => set_people room
                                        (delete userId (people room)))
                     r (room_store w))) (tickerHandle r0))
    as (-> & -> & -> & ->).
  simpl. rewrite dom_alter_L. repeat split.
  intros name Hn. by rewrite lookup_delete_None; right.
Qed.

(** The first ["room"] event for an id that the registry does not have
    makes a Room: a new object, with [serverTime] 0, holding the one
    Person. *)
Lemma on_room_creates w s c roomId :
  sockets w !! s = Some c ->
  rooms w !! roomId = None ->
  exists w' r' room',
    on_room w s roomId = Return w' /\
    rooms w' !! roomId = Some r' /\
    room_store w !! r' = None /\
    room_store w' !! r' = Some room' /\
    serverTime room' = 0%float /\
    gravity room' = DEFAULT_GRAVITY /\
    people room' = {[userID c := person c]}.
Proof.
  intros Hc Hnone. unfold on_room. rewrite Hc.
  set (w1 := if bool_decide (roomID c = "") then w else _).
  assert (dom (room_store w1) = dom (room_store w) /\
          rooms w1 !! roomId = None) as [Hdom Hnone1].
  { unfold w1. destruct (bool_decide _); [done|].
    destruct (removeFromRoom_fields w (roomID c) (userID c)) as (? & Hn & _).
    split; [done | by apply Hn]. }
  simpl. rewrite Hnone1. unfold addToRoom. simpl.
  rewrite lookup_insert_eq. rewrite Hdom.
  eexists _, _, _. split; [reflexivity|]. simpl.
  rewrite lookup_insert_eq. split; [reflexivity|].
  split; [apply not_elem_of_dom, is_fresh|].
  rewrite !lookup_alter_eq, lookup_insert_eq. simpl.
  split; [reflexivity|]. simpl. repeat split.
Qed.


(** C4. In a state the program reaches, [removeFromRoom(roomId, userId)]
    does nothing when the registry has no room under [roomId] or when that
    room has no occupant [userId]. Otherwise the occupant is deleted from
    the Room's map. If the map is still not empty, the registry and the
    timers are as before. If it is empty, the entry [roomId] is deleted from
    the registry and the Room's timer is cleared: whatever the events that
    follow, no timer ticks that Room again and the registry never names it
    again; and a ["room"] event for [roomId] that finds the registry without
    it makes a new Room object, whose [serverTime] is 0. *)
Theorem removeFromRoom_teardown es w roomId userId :
  run World_init es = Return w ->
  (rooms w !! roomId = None -> removeFromRoom w roomId userId = w) /\
  (forall r room,
     rooms w !! roomId = Some r ->
     room_store w !! r = Some room ->
     (people room !! userId = None -> removeFromRoom w roomId userId = w) /\
     (exists room',
        room_store (removeFromRoom w roomId userId) !! r = Some room' /\
        people room' = delete userId (people room)) /\
     (delete userId (people room) <> ∅ ->
      rooms (removeFromRoom w roomId userId) = rooms w /\
      intervals (removeFromRoom w roomId userId) = intervals w) /\
     (delete userId (people room) = ∅ ->
      rooms (removeFromRoom w roomId userId) = delete roomId (rooms w) /\
      forall es',
        let w' := world_of (run (removeFromRoom w roomId userId) es') in
        (forall e, ticked w' e <> Some r) /\
        (forall name, rooms w' !! name <> Some r) /\
        (forall s c,
           sockets w' !! s = Some c ->
           rooms w' !! roomId = None ->
           exists w'' r' room',
             on_room w' s roomId = Return w'' /\
             rooms w'' !! roomId = Some r' /\
             r' <> r /\
             room_store w' !! r' = None /\
             room_store w'' !! r' = Some room' /\
             serverTime room' = 0%float /\
             people room' = {[userID c := person c]}))).
Proof.
  intros Hrun.
  assert (World_ok w) as Hok.
  { pose proof (run_ok es World_init World_ok_init) as H.
    by rewrite Hrun in H. }
  split; [apply removeFromRoom_absent|].
  intros r room Hname Hroom.
  pose proof (removeFromRoom_ok w roomId userId Hok) as Hok'.
  revert Hok'.
  rewrite (removeFromRoom_eq w roomId userId r room Hname Hroom). simpl.
  intros Hok'. split; [|split; [|split]].
  - intros Hnone. rewrite (without_absent userId room Hnone).
    rewrite delete_id by done.
    destruct Hok as (_ & HI & _).
    rewrite bool_decide_false by (by apply (HI roomId r room)).
    by apply set_room_store_id.
  - exists (without userId room). split; [|done].
    destruct (bool_decide _); simpl.
    + by rewrite clearInterval_room_store; simpl; rewrite lookup_insert_eq.
    + by rewrite lookup_insert_eq.
  - intros Hne. by rewrite bool_decide_false.
  - intros Hempty. revert Hok'. rewrite bool_decide_true by done.
    intros Hok'. split; [done|]. intros es'.
    set (w' := world_of (run _ es')).
    destruct (Timers_ok_remove w roomId r room (without userId room))
      as [_ Hd]; [by destruct Hok | done | done | done |].
    destruct (run_discarded es' _ r Hok' Hd) as [Hok'' (D1 & D2 & D3)].
    fold w' in Hok'', D1, D2, D3.
    split; [|split; [done|]].
    + intros e. by apply discarded_not_ticked.
    + intros s c Hc Hnone.
      destruct (on_room_creates w' s c roomId Hc Hnone)
        as (w'' & r' & room' & H1 & H2 & H3 & H4 & H5 & _ & H6).
      exists w'', r', room'. repeat split; try done.
      intros ->. rewrite H3 in D1. by destruct D1.
Qed.

(** In a state the program reaches, no Person sits in a room twice: the
    hypothesis of the statements on [tick] above holds of every Room. *)
Lemma run_distinct_persons es w r room :
  run World_init es = Return w ->
  room_store w !! r = Some room ->
  distinct_persons room.
Proof.
  intros Hrun Hroom.
  pose proof (run_ok es World_init World_ok_init) as (_ & _ & HS).
  rewrite Hrun in HS. by apply (Sockets_ok_distinct w r room).
Qed.

End Process.

(** * The statements at concrete inputs *)

Example joined_world_reached :
  run EARTH cos0 sin0 World_init joining = Return joined_world.
Proof. vm_compute. reflexivity. Qed.

Example flown_world_reached :
  run EARTH cos0 sin0 World_init (joining ++ [OnFly 1 (-3)])
  = Return (flown_world (-3)) /\
  run EARTH cos0 sin0 World_init (joining ++ [OnFly 1 100])
  = Return (flown_world 100).
Proof. split; vm_compute; reflexivity. Qed.

Lemma joined_room_distinct : distinct_persons joined_room.
Proof.
  intros k1 k2 l. simpl. rewrite !lookup_singleton_Some.
  intros [<- _] [<- _]. reflexivity.
Qed.

(** Doubles and their quanta. *)
Example quanta_examples :
  quanta 1 = Some (2 ^ 1074)%Z /\
  quanta 0x1p-1074 = Some 1%Z /\
  quanta (-0.5) = Some (- 2 ^ 1073)%Z /\
  quanta (-0) = Some 0%Z /\
  quanta infinity = None /\
  quanta nan = None /\
  count 5 = 5%float /\
  count (2 ^ 53) = 9007199254740992%float.
Proof. repeat split; vm_compute; reflexivity. Qed.

(** C1 at a Person that a ["fly"] event left 3 below the floor: the tick
    clamps it. *)
Lemma tick_floor_witness :
  (room_store (flown_world (-3)) !! 1%positive = Some joined_room /\
   people joined_room !! "u1" = Some 1%positive /\
   person_store (flown_world (-3)) !! 1%positive = Some (flown_person (-3))) /\
  exists p',
    person_store (world_of (tick (flown_world (-3)) 1)) !! 1%positive
      = Some p' /\
    Number.lt (y (position p')) FLOOR_Y = false /\
    (Number.isNaN (y (position p')) = false ->
     Number.ge (y (position p')) FLOOR_Y = true) /\
    (distinct_persons joined_room ->
     clamped (gravity joined_room) (flown_person (-3)) = true ->
     y (position p') = FLOOR_Y /\ y (velocity p') = 0%float).
Proof.
  split; [repeat split|].
  apply (tick_floor (flown_world (-3)) 1 joined_room "u1" 1
           (flown_person (-3))); reflexivity.
Defined.

(** C1 as first stated fails: two ["fly"] events, by [Infinity] and by
    [-Infinity], leave [position.y] NaN; [NaN < FLOOR_Y] is false, the tick
    leaves the NaN where it is, and [NaN >= FLOOR_Y] is false too. *)
Lemma tick_floor_nan :
  exists w room p p',
    run EARTH cos0 sin0 World_init
      (joining ++ [OnFly 1 infinity; OnFly 1 neg_infinity]) = Return w /\
    room_store w !! 1%positive = Some room /\
    people room !! "u1" = Some 1%positive /\
    person_store w !! 1%positive = Some p /\
    person_store (world_of (tick w 1)) !! 1%positive = Some p' /\
    Number.isNaN (y (position p')) = true /\
    Number.ge (y (position p')) FLOOR_Y = false.
Proof.
  eexists _, _, _, _. split; [vm_compute; reflexivity|].
  repeat split; vm_compute; reflexivity.
Qed.

(** C9 at the same tick. *)
Lemma tick_frame_witness :
  (room_store (flown_world (-3)) !! 1%positive = Some joined_room /\
   people joined_room !! "u1" = Some 1%positive /\
   person_store (flown_world (-3)) !! 1%positive = Some (flown_person (-3))) /\
  exists room' p',
    room_store (world_of (tick (flown_world (-3)) 1)) !! 1%positive
      = Some room' /\
    person_store (world_of (tick (flown_world (-3)) 1)) !! 1%positive
      = Some p' /\
    x (velocity p') = x (velocity (flown_person (-3))) /\
    z (velocity p') = z (velocity (flown_person (-3))) /\
    yaw p' = yaw (flown_person (-3)) /\
    pitch p' = pitch (flown_person (-3)) /\
    username p' = username (flown_person (-3)) /\
    flying p' = flying (flown_person (-3)) /\
    color p' = color (flown_person (-3)) /\
    shape p' = shape (flown_person (-3)) /\
    people room' = people joined_room /\
    dom (people room') = dom (people joined_room) /\
    gravity room' = gravity joined_room.
Proof.
  split; [repeat split|].
  apply (tick_frame (flown_world (-3)) 1 joined_room "u1" 1
           (flown_person (-3))); reflexivity.
Defined.

(** C2 at a Person 100 above the floor and not flying, over 14 ticks, the
    values on the way at most 3 in magnitude: [velocity.y] is within
    [14 * (3 + 9.8 / 60) / 2 ^ 53] of [0 - 14 * (9.8 * TICK_LENGTH)]. And
    at a flying Person that has jumped, over 14 ticks: [velocity.y] is
    the 3 of the jump. And at a Person whose [velocity.y] is [2 ^ 53],
    which absorbs the subtraction: it is [2 ^ 53] after the 14 ticks. *)
Lemma gravity_over_ticks_witness :
  (room_store (flown_world 100) !! 1%positive = Some joined_room /\
   people joined_room !! "u1" = Some 1%positive /\
   person_store (flown_world 100) !! 1%positive = Some (flown_person 100) /\
   distinct_persons joined_room /\
   never_clamped (gravity joined_room) 14 (flown_person 100) = true /\
   flying (flown_person 100) = false /\
   quanta (y (velocity (flown_person 100))) = Some 0%Z /\
   bounded_by (3 * 2 ^ 1074) 14 (gravity joined_room * TICK_LENGTH)
     (y (velocity (flown_person 100))) = true) /\
  (exists p' D fn,
     person_store (ticks 14 (flown_world 100) 1) !! 1%positive = Some p' /\
     y (velocity p') = (-0x1.24b17e4b17e4ap+1)%float /\
     quanta (gravity joined_room * TICK_LENGTH) = Some D /\
     quanta (y (velocity p')) = Some fn /\
     (2 ^ 53 * Z.abs (fn - (0 - 14 * D)) <= 14 * (3 * 2 ^ 1074 + Z.abs D))%Z) /\
  (person_store hovering_world !! 1%positive = Some hovering_person /\
   never_clamped (gravity joined_room) 14 hovering_person = true /\
   flying hovering_person = true) /\
  (exists p',
     person_store (ticks 14 hovering_world 1) !! 1%positive = Some p' /\
     enact_force (gravity joined_room) hovering_person = hovering_person /\
     y (velocity p') = 3%float) /\
  (person_store heavy_world !! 1%positive = Some heavy_person /\
   never_clamped (gravity joined_room) 14 heavy_person = true /\
   flying heavy_person = false /\
   (y (velocity heavy_person) - gravity joined_room * TICK_LENGTH)%float
   = y (velocity heavy_person)) /\
  (exists p',
     person_store (ticks 14 heavy_world 1) !! 1%positive = Some p' /\
     y (velocity p') = 0x1p+53%float).
Proof.
  split.
  { split; [reflexivity|]. split; [reflexivity|]. split; [reflexivity|].
    split; [apply joined_room_distinct|].
    split; [vm_compute; reflexivity|]. split; [reflexivity|].
    split; vm_compute; reflexivity. }
  split.
  { destruct (gravity_over_ticks 14 (flown_world 100) 1 joined_room "u1" 1
                (flown_person 100)) as (p' & Hp' & Hfalls & _);
      [reflexivity | reflexivity | reflexivity | apply joined_room_distinct
      | vm_compute; reflexivity |].
    destruct (Hfalls eq_refl) as (Hy & Hbound & _).
    destruct (quanta (gravity joined_room * TICK_LENGTH)) as [D|] eqn:HD;
      [|by vm_compute in HD].
    destruct (Hbound (3 * 2 ^ 1074)%Z D 0%Z eq_refl) as (fn & Hfn & Hle);
      [vm_compute; reflexivity | vm_compute; reflexivity |].
    exists p', D, fn. split; [exact Hp'|].
    split; [rewrite Hy; vm_compute; reflexivity|].
    split; [reflexivity|]. split; [exact Hfn | exact Hle]. }
  split.
  { split; [reflexivity|]. split; [vm_compute; reflexivity | reflexivity]. }
  split.
  { destruct (gravity_over_ticks 14 hovering_world 1 joined_room "u1" 1
                hovering_person) as (p' & Hp' & _ & Hflies);
      [reflexivity | reflexivity | reflexivity | apply joined_room_distinct
      | vm_compute; reflexivity |].
    destruct (Hflies eq_refl) as (He & Hy).
    exists p'. split; [exact Hp'|]. split; [exact He | exact Hy]. }
  split.
  { split; [reflexivity|]. split; [vm_compute; reflexivity|].
    split; reflexivity. }
  destruct (gravity_over_ticks 14 heavy_world 1 joined_room "u1" 1
              heavy_person) as (p' & Hp' & Hfalls & _);
    [reflexivity | reflexivity | reflexivity | apply joined_room_distinct
    | vm_compute; reflexivity |].
  destruct (Hfalls eq_refl) as (_ & _ & Habsorbed).
  exists p'. split; [exact Hp'|]. exact (Habsorbed eq_refl).
Defined.

Lemma heavy_person_fixed :
  tick_person (gravity joined_room) heavy_person = heavy_person /\
  clamped (gravity joined_room) heavy_person = false.
Proof. split; vm_compute; reflexivity. Qed.

(** C2 as first stated fails, whatever the tolerance. After [jump(2 ^ 53)]
    and [fly(2 ^ 110)] the Person of ["u1"] is not flying, and a tick leaves
    it as it is: [2 ^ 53 - 9.8 * TICK_LENGTH] rounds to [2 ^ 53], and the
    floor check does not fire. So [velocity.y] is [2 ^ 53] after any number
    of ticks, where [initial - gravity * TICK_LENGTH * N] is less by more
    than [0.16 * N]: by 9.8 after the 60 ticks of a second, and below zero
    after [10 ^ 17] ticks. *)
Lemma gravity_absorbed :
  run EARTH cos0 sin0 World_init
    (joining ++ [OnJump 1 (Some 0x1p+53%float); OnFly 1 0x1p+110])
    = Return heavy_world /\
  room_store heavy_world !! 1%positive = Some joined_room /\
  people joined_room !! "u1" = Some 1%positive /\
  person_store heavy_world !! 1%positive = Some heavy_person /\
  flying heavy_person = false /\
  y (velocity heavy_person) = 0x1p+53%float /\
  (forall n,
     never_clamped (gravity joined_room) n heavy_person = true /\
     person_store (ticks n heavy_world 1) !! 1%positive = Some heavy_person) /\
  (exists D,
     quanta (gravity joined_room * TICK_LENGTH) = Some D /\
     quanta (y (velocity heavy_person)) = Some (2 ^ 53 * 2 ^ 1074)%Z /\
     (16 * 2 ^ 1074 < 100 * D)%Z /\
     (2 ^ 53 * 2 ^ 1074 - 10 ^ 17 * D < 0)%Z) /\
  (y (velocity heavy_person) - gravity joined_room * TICK_LENGTH * 60
   =? 0x1p+53 - 10)%float = true /\
  (y (velocity heavy_person) - gravity joined_room * TICK_LENGTH * 1e17
   <? 0)%float = true.
Proof.
  split; [vm_compute; reflexivity|]. split; [reflexivity|].
  split; [reflexivity|]. split; [reflexivity|]. split; [reflexivity|].
  split; [reflexivity|]. split.
  { intros n. destruct heavy_person_fixed as [Hfix Hc].
    destruct (tick_person_fixed _ _ n Hfix Hc) as [Hn Hi].
    split; [exact Hn|].
    rewrite (ticks_lookup n heavy_world 1 joined_room "u1" 1
               heavy_person eq_refl eq_refl eq_refl joined_room_distinct).
    by rewrite Hi. }
  split.
  { eexists. split; [vm_compute; reflexivity|].
    split; vm_compute; [reflexivity|]. split; reflexivity. }
  split; vm_compute; reflexivity.
Qed.

(** C3 at the Room of ["A"], not yet ticked: over calls of its methods with
    a ["fly"] event and the firing of its second timer among them, and
    over a run of two ticks, a ["fly"] event between them, and the
    disconnection that discards the Room. And at that Room with a clock of
    [2 ^ 53], which a tick leaves as it is. *)
Lemma serverTime_counts_witness :
  ((room_store joined_world !! 1%positive = Some joined_room /\
    (0 <= 0 <= 2 ^ 53)%Z /\
    serverTime joined_room = count 0) /\
   (forall g, serverTime (Room_new g) = 0%float /\ clock_at 0 (Room_new g)) /\
   quanta (serverTime joined_room) = Some (0 * 2 ^ 1074)%Z /\
   (exists room',
      room_store (world_of (tick joined_world 1)) !! 1%positive = Some room' /\
      serverTime room' = (serverTime joined_room + 1)%float /\
      ((0 < 2 ^ 53)%Z ->
       serverTime room' = count (0 + 1) /\
       quanta (serverTime room') = Some ((0 + 1) * 2 ^ 1074)%Z /\
       Number.gt (serverTime room') (serverTime joined_room) = true) /\
      (0%Z = (2 ^ 53)%Z -> serverTime room' = serverTime joined_room)) /\
   (exists room' n',
      room_store
        (acts EARTH cos0 sin0 joined_world
           [Method 1 Tick; Method 1 Stop; Deliver (OnFly 1 2); Method 1 Start;
            Method 1 (OnTick (SendRoomInfo 1));
            Method 1 (OffTick (SendRoomInfo 1)); Method 1 Tick;
            Deliver (IntervalFires 2)])
        !! 1%positive = Some room' /\
      serverTime room' = count n' /\ (0 <= n' <= 2 ^ 53)%Z /\
      Number.ge (serverTime room') (serverTime joined_room) = true) /\
   (exists room' n',
      room_store
        (world_of
           (run EARTH cos0 sin0 joined_world
              [IntervalFires 1; OnFly 1 2; IntervalFires 1; OnDisconnect 1]))
        !! 1%positive = Some room' /\
      serverTime room' = count n' /\ (0 <= n' <= 2 ^ 53)%Z /\
      Number.ge (serverTime room') (serverTime joined_room) = true) /\
   (forall l0 r0 room0,
      room_store (acts EARTH cos0 sin0 World_init l0) !! r0 = Some room0 ->
      exists n0, (0 <= n0 <= 2 ^ 53)%Z /\ serverTime room0 = count n0)) /\
  (room_store aged_world !! 1%positive = Some aged_room /\
   (0 <= 2 ^ 53 <= 2 ^ 53)%Z /\
   serverTime aged_room = count (2 ^ 53)) /\
  (exists room',
     room_store (world_of (tick aged_world 1)) !! 1%positive = Some room' /\
     serverTime room' = (serverTime aged_room + 1)%float /\
     serverTime room' = serverTime aged_room).
Proof.
  split.
  { split; [split; [reflexivity|]; split; [lia | reflexivity]|].
    apply (serverTime_counts EARTH cos0 sin0
             [Method 1 Tick; Method 1 Stop; Deliver (OnFly 1 2);
              Method 1 Start; Method 1 (OnTick (SendRoomInfo 1));
              Method 1 (OffTick (SendRoomInfo 1)); Method 1 Tick;
              Deliver (IntervalFires 2)]
             [IntervalFires 1; OnFly 1 2; IntervalFires 1; OnDisconnect 1]
             joined_world 1 joined_room 0); [reflexivity | lia | reflexivity]. }
  split; [split; [reflexivity|]; split; [lia | reflexivity]|].
  destruct (serverTime_counts EARTH cos0 sin0 [] [] aged_world 1 aged_room
              (2 ^ 53)%Z) as (_ & _ & (room' & Hr' & Ht' & _ & Hsame) & _);
    [reflexivity | lia | reflexivity |].
  exists room'. split; [exact Hr'|]. split; [exact Ht'|]. exact (Hsame eq_refl).
Defined.

(** What these sequences leave of the clock: 3 after the three ticks of the
    first, 2 after the two ticks of the second. *)
Example serverTime_counted :
  serverTime <$>
    room_store
      (acts EARTH cos0 sin0 joined_world
         [Method 1 Tick; Method 1 Stop; Deliver (OnFly 1 2); Method 1 Start;
          Method 1 (OnTick (SendRoomInfo 1));
          Method 1 (OffTick (SendRoomInfo 1)); Method 1 Tick;
          Deliver (IntervalFires 2)]) !! 1%positive = Some 3%float /\
  serverTime <$>
    room_store
      (world_of
         (run EARTH cos0 sin0 joined_world
            [IntervalFires 1; OnFly 1 2; IntervalFires 1; OnDisconnect 1]))
      !! 1%positive = Some 2%float /\
  count 3 = 3%float /\ count 2 = 2%float.
Proof. repeat split; vm_compute; reflexivity. Qed.

(** A Room that has just been made and is ticked [n] times, at most
    [2 ^ 53]: its clock is [n]. *)
Lemma ticked_clock g n :
  (0 <= n <= 2 ^ 53)%Z ->
  serverTime (Nat.iter (Z.to_nat n) tick_time (Room_new g)) = count n.
Proof.
  intros Hn.
  assert (forall k : nat,
            (Z.of_nat k <= 2 ^ 53)%Z ->
            clock_at (Z.of_nat k) (Nat.iter k tick_time (Room_new g))) as H.
  { induction k as [|k IH]; intros Hk; [done|].
    change (Nat.iter (S k) tick_time (Room_new g))
      with (tick_time (Nat.iter k tick_time (Room_new g))).
    pose proof (tick_time_clock _ _ (IH ltac:(lia))) as Hc.
    rewrite Z.min_l in Hc by lia.
    by replace (Z.of_nat (S k)) with (Z.of_nat k + 1)%Z by lia. }
  destruct (H (Z.to_nat n) ltac:(lia)) as [_ Ht].
  by rewrite Z2Nat.id in Ht by lia.
Qed.

(** C3 as first stated fails at a clock of [2 ^ 53], 9007199254740992,
    which is the clock of a Room after that many ticks: the tick leaves
    [serverTime] as it is, [2 ^ 53 + 1] being no double. *)
Lemma serverTime_absorbed :
  serverTime (Nat.iter (Z.to_nat (2 ^ 53)) tick_time (Room_new None))
    = count (2 ^ 53) /\
  count (2 ^ 53) = 0x1p+53%float /\
  room_store aged_world !! 1%positive = Some aged_room /\
  serverTime aged_room = 0x1p+53%float /\
  serverTime <$> room_store (world_of (tick aged_world 1)) !! 1%positive
    = Some 0x1p+53%float.
Proof.
  split; [apply ticked_clock; lia|].
  split; [reflexivity|]. split; [reflexivity|]. split; [reflexivity|].
  vm_compute. reflexivity.
Qed.

(** C8 at a yaw of 0 and a rotation by 7, which is more than 2 pi: the new
    [yaw] is twice the remainder of 7 by the double [Math.PI], exactly. *)
Lemma rotate_counterclockwise_wrap_witness :
  (quanta (yaw joined_person + 7) = Some (7 * 2 ^ 1074)%Z /\
   Number.gt (yaw joined_person + 7) (Math_PI * 2) = true) /\
  exists P,
    quanta Math_PI = Some P /\ (0 < 2 * P < 7 * 2 ^ 1074)%Z /\
    quanta (Number.remainder (yaw joined_person + 7) Math_PI)
      = Some ((7 * 2 ^ 1074) mod P)%Z /\
    quanta (yaw (rotate_counterclockwise_event 7 joined_person))
      = Some (2 * ((7 * 2 ^ 1074) mod P))%Z /\
    Number.ge (yaw (rotate_counterclockwise_event 7 joined_person)) 0 = true /\
    Number.lt (yaw (rotate_counterclockwise_event 7 joined_person))
      (Math_PI * 2) = true.
Proof.
  split; [split; vm_compute; reflexivity|].
  destruct (rotate_counterclockwise_wrap EARTH cos0 sin0)
    as (_ & _ & _ & _ & _ & Hwrap & _).
  apply (Hwrap 7%float joined_person (7 * 2 ^ 1074)%Z);
    vm_compute; reflexivity.
Defined.

(** C7 from the yaw 0, with the magnitude 2. *)
Lemma move_events_witness :
  (sockets joined_world !! 1%positive = Some joined_socket /\
   person_store joined_world !! person joined_socket = Some joined_person) /\
  (exists w',
     step EARTH cos0 sin0 joined_world (OnMoveForwardsBackwards 1 2)
       = Return w' /\
     person_store w' !! person joined_socket =
       Some {| position :=
                 {| x := (x (position joined_person)
                          - 2 * sin0 (yaw joined_person))%float;
                    y := y (position joined_person);
                    z := (z (position joined_person)
                          + 2 * cos0 (yaw joined_person))%float |};
               velocity := velocity joined_person;
               yaw := yaw joined_person; pitch := pitch joined_person;
               username := username joined_person;
               flying := flying joined_person;
               color := color joined_person; shape := shape joined_person |} /\
     forall l, l <> person joined_socket ->
               person_store w' !! l = person_store joined_world !! l) /\
  (exists w',
     step EARTH cos0 sin0 joined_world (OnMoveRightLeft 1 2) = Return w' /\
     person_store w' !! person joined_socket =
       Some {| position :=
                 {| x := (x (position joined_person)
                          + 2 * cos0 (yaw joined_person))%float;
                    y := y (position joined_person);
                    z := (z (position joined_person)
                          + 2 * sin0 (yaw joined_person))%float |};
               velocity := velocity joined_person;
               yaw := yaw joined_person; pitch := pitch joined_person;
               username := username joined_person;
               flying := flying joined_person;
               color := color joined_person; shape := shape joined_person |} /\
     forall l, l <> person joined_socket ->
               person_store w' !! l = person_store joined_world !! l).
Proof.
  split; [split; reflexivity|].
  apply (move_events EARTH cos0 sin0 joined_world 1 joined_socket
           joined_person 2); reflexivity.
Defined.

(** The movement check of the design notes: from the yaw 0, a move forwards
    by 1 adds 1 to [position.z] and leaves [position.x]. *)
Example move_forwards_from_yaw_0 :
  position (move_forwards_backwards_event cos0 sin0 1 joined_person)
  = {| x := 0; y := 0; z := 1 |}.
Proof. reflexivity. Qed.

(** C10 with the magnitude [-3] from the floor. *)
Lemma fly_event_no_clamp_witness :
  (sockets joined_world !! 1%positive = Some joined_socket /\
   person_store joined_world !! person joined_socket = Some joined_person) /\
  exists w',
    step EARTH cos0 sin0 joined_world (OnFly 1 (-3)) = Return w' /\
    person_store w' !! person joined_socket =
      Some {| position :=
                {| x := x (position joined_person);
                   y := (y (position joined_person) + -3)%float;
                   z := z (position joined_person) |};
              velocity := velocity joined_person;
              yaw := yaw joined_person; pitch := pitch joined_person;
              username := username joined_person;
              flying := flying joined_person;
              color := color joined_person; shape := shape joined_person |} /\
    (forall l, l <> person joined_socket ->
               person_store w' !! l = person_store joined_world !! l) /\
    rooms w' = rooms joined_world /\
    room_store w' = room_store joined_world /\
    (Number.lt (y (position joined_person) + -3)%float FLOOR_Y = true ->
     exists p',
       person_store w' !! person joined_socket = Some p' /\
       Number.lt (y (position p')) FLOOR_Y = true) /\
    (forall r room k,
       room_store w' !! r = Some room ->
       people room !! k = Some (person joined_socket) ->
       exists p'',
         person_store (world_of (tick w' r)) !! person joined_socket
           = Some p'' /\
         Number.lt (y (position p'')) FLOOR_Y = false).
Proof.
  split; [split; reflexivity|].
  apply (fly_event_no_clamp EARTH cos0 sin0 joined_world 1 joined_socket
           joined_person (-3)); reflexivity.
Defined.

(** The Person is indeed below the floor between the event and the tick. *)
Example flown_below_floor :
  Number.lt (y (position (flown_person (-3)))) FLOOR_Y = true /\
  y (position (tick_person EARTH (flown_person (-3)))) = FLOOR_Y.
Proof. split; reflexivity. Qed.

(** C4 when the only occupant of ["A"] leaves it. *)
Lemma removeFromRoom_teardown_witness :
  run EARTH cos0 sin0 World_init joining = Return joined_world /\
  (rooms joined_world !! "A" = None ->
   removeFromRoom joined_world "A" "u1" = joined_world) /\
  (forall r room,
     rooms joined_world !! "A" = Some r ->
     room_store joined_world !! r = Some room ->
     (people room !! "u1" = None ->
      removeFromRoom joined_world "A" "u1" = joined_world) /\
     (exists room',
        room_store (removeFromRoom joined_world "A" "u1") !! r = Some room' /\
        people room' = delete "u1" (people room)) /\
     (delete "u1" (people room) <> ∅ ->
      rooms (removeFromRoom joined_world "A" "u1") = rooms joined_world /\
      intervals (removeFromRoom joined_world "A" "u1")
        = intervals joined_world) /\
     (delete "u1" (people room) = ∅ ->
      rooms (removeFromRoom joined_world "A" "u1")
        = delete "A" (rooms joined_world) /\
      forall es',
        let w' :=
          world_of
            (run EARTH cos0 sin0 (removeFromRoom joined_world "A" "u1") es')
        in
        (forall e, ticked w' e <> Some r) /\
        (forall name, rooms w' !! name <> Some r) /\
        (forall s c,
           sockets w' !! s = Some c ->
           rooms w' !! "A" = None ->
           exists w'' r' room',
             on_room EARTH w' s "A" = Return w'' /\
             rooms w'' !! "A" = Some r' /\
             r' <> r /\
             room_store w' !! r' = None /\
             room_store w'' !! r' = Some room' /\
             serverTime room' = 0%float /\
             people room' = {[userID c := person c]}))).
Proof.
  split; [vm_compute; reflexivity|].
  apply (removeFromRoom_teardown EARTH cos0 sin0 joining joined_world "A" "u1").
  vm_compute. reflexivity.
Defined.

(** The same run, event by event: the Room of ["A"] is stopped and
    discarded when ["u1"] disconnects, its timer does nothing when it is
    tried, and the next join makes the Room at a new address, with
    [serverTime] 0 and a timer of its own. *)
Example teardown_and_rejoin :
  let w :=
    world_of
      (run EARTH cos0 sin0 joined_world
         [IntervalFires 1; IntervalFires 1; OnDisconnect 1; IntervalFires 1;
          Connection "u2"; OnRoom 2 "A"]) in
  rooms w = {["A" := 2%positive]} /\
  serverTime <$> room_store w !! 1%positive = Some 2%float /\
  serverTime <$> room_store w !! 2%positive = Some 0%float /\
  running <$> intervals w !! 1%positive = Some false /\
  running <$> intervals w !! 2%positive = Some true /\
  ticked w (IntervalFires 1) = None /\
  ticked w (IntervalFires 2) = Some 2%positive.
Proof. vm_compute. repeat split; reflexivity. Qed.

(** * More of the code: the timers, the registry, the process *)

Section More.
Variable DEFAULT_GRAVITY : float.
Variables Math_cos Math_sin : float -> float.
Local Abbreviation step := (step DEFAULT_GRAVITY Math_cos Math_sin).
Local Abbreviation run := (run DEFAULT_GRAVITY Math_cos Math_sin).
Local Abbreviation on_room := (on_room DEFAULT_GRAVITY).
Local Abbreviation person_event := (person_event Math_cos Math_sin).

(** *** [room.ts]: the timer of a Room *)

Lemma start_fields w r room :
  room_store w !! r = Some room ->
  let h := fresh (dom (intervals w)) in
  intervals w !! h = None /\
  room_store (start w r) !! r = Some (set_tickerHandle room (Some h)) /\
  intervals (start w r) !! h = Some {| target := r; running := true |} /\
  (forall h', h' <> h -> intervals (start w r) !! h' = intervals w !! h') /\
  (forall r', r' <> r -> room_store (start w r) !! r' = room_store w !! r').
Proof.
  intros Hr h. unfold start. simpl. fold h.
  split; [apply not_elem_of_dom, is_fresh|].
  rewrite lookup_alter_eq, Hr, lookup_insert_eq. simpl.
  split; [done|]. split; [done|]. split.
  - intros h' Hne. by rewrite lookup_insert_ne.
  - intros r' Hne. by rewrite lookup_alter_ne.
Qed.

(** X1. [stop] clears the timer that [start] made and nothing else: after
    [start] and [stop] on a Room, the new timer ticks no Room, every other
    timer is as before, and the Room differs from before only by the handle
    it holds. [stop] on a Room that was never started changes nothing, and
    a second [stop] changes nothing more. *)
Theorem stop_after_start w r room :
  room_store w !! r = Some room ->
  let h := fresh (dom (intervals w)) in
  let w' := stop (start w r) r in
  intervals w !! h = None /\
  ticked (start w r) (IntervalFires h) = Some r /\
  ticked w' (IntervalFires h) = None /\
  (forall h', h' <> h -> intervals w' !! h' = intervals w !! h') /\
  room_store w' !! r = Some (set_tickerHandle room (Some h)) /\
  (forall r', r' <> r -> room_store w' !! r' = room_store w !! r') /\
  rooms w' = rooms w /\ person_store w' = person_store w /\
  sockets w' = sockets w /\
  stop w' r = w' /\
  (tickerHandle room = None -> stop w r = w).
Proof.
  intros Hr h w'.
  destruct (start_fields w r room Hr) as (Hf & Hr1 & Hi1 & Hio & Hro).
  fold h in Hf, Hr1, Hi1, Hio.
  assert (w' = set_intervals (start w r)
                 (alter (fun i => {| target := target i; running := false |})
                    h (intervals (start w r)))) as Hw'.
  { unfold w', stop. by rewrite Hr1. }
  split; [done|]. split; [by unfold ticked; rewrite Hi1|].
  rewrite Hw'. simpl.
  split; [by rewrite lookup_alter_eq, lookup_insert_eq|].
  split.
  { intros h' Hne. by rewrite lookup_alter_ne, lookup_insert_ne. }
  rewrite lookup_alter_eq, Hr. simpl.
  split; [done|]. split.
  { intros r' Hne. by rewrite lookup_alter_ne. }
  split; [done|]. split; [done|]. split; [done|]. split.
  - unfold stop. simpl. rewrite lookup_alter_eq, Hr. simpl.
    f_equal. apply map_eq. intros h'.
    destruct (decide (h = h')) as [<-|Hne].
    + by rewrite !lookup_alter_eq, lookup_insert_eq.
    + by rewrite !lookup_alter_ne.
  - intros Hnone. unfold stop. by rewrite Hr, Hnone.
Qed.

(** X2. [start] on a Room that is already started makes a second timer and
    overwrites the handle of the first: [stop] then clears the second only,
    and the first keeps ticking the Room, with no handle left to clear it. *)
Theorem start_twice_leaks w r room :
  room_store w !! r = Some room ->
  let h1 := fresh (dom (intervals w)) in
  let h2 := fresh (dom (intervals (start w r))) in
  let w' := stop (start (start w r) r) r in
  h1 <> h2 /\
  ticked w' (IntervalFires h2) = None /\
  ticked w' (IntervalFires h1) = Some r /\
  ticked (stop w' r) (IntervalFires h1) = Some r /\
  (exists room', room_store w' !! r = Some room' /\
                 tickerHandle room' = Some h2).
Proof.
  intros Hr h1 h2 w'.
  destruct (start_fields w r room Hr) as (Hf1 & Hr1 & Hi1 & Hio1 & _).
  fold h1 in Hf1, Hr1, Hi1, Hio1.
  destruct (start_fields (start w r) r _ Hr1) as (Hf2 & Hr2 & Hi2 & Hio2 & _).
  fold h2 in Hf2, Hr2, Hi2, Hio2.
  assert (h1 <> h2) as Hne by congruence.
  assert (w' = set_intervals (start (start w r) r)
                 (alter (fun i => {| target := target i; running := false |})
                    h2 (intervals (start (start w r) r)))) as Hw'.
  { unfold w', stop. by rewrite Hr2. }
  assert (room_store w' !! r
          = Some (set_tickerHandle (set_tickerHandle room (Some h1)) (Some h2)))
    as Hr'.
  { by rewrite Hw'. }
  assert (intervals w' !! h1 = Some {| target := r; running := true |}) as Hi'.
  { rewrite Hw'. cbn [intervals set_intervals].
    rewrite lookup_alter_ne by done. rewrite <- Hi1. by apply Hio2. }
  split; [done|]. split.
  { rewrite Hw'. unfold ticked. cbn [intervals set_intervals].
    by rewrite lookup_alter_eq, Hi2. }
  split; [by unfold ticked; rewrite Hi'|]. split.
  - unfold stop. rewrite Hr'. unfold ticked, clearInterval.
    cbn [tickerHandle set_tickerHandle intervals set_intervals].
    rewrite lookup_alter_ne by done. by rewrite Hi'.
  - eexists. split; [exact Hr' | done].
Qed.


(** X3. [removeRoom] does nothing for an id the registry does not have.
    For a registered Room it deletes the entry and clears the Room's timer,
    whether or not the Room has occupants: the Room object with its map of
    occupants, the Persons, the sockets and every other timer are as before.
    A second call changes nothing more. *)
Theorem removeRoom_spec w roomId :
  (rooms w !! roomId = None -> removeRoom w roomId = w) /\
  (forall r room,
     rooms w !! roomId = Some r ->
     room_store w !! r = Some room ->
     rooms (removeRoom w roomId) = delete roomId (rooms w) /\
     room_store (removeRoom w roomId) = room_store w /\
     person_store (removeRoom w roomId) = person_store w /\
     sockets (removeRoom w roomId) = sockets w /\
     (forall h, tickerHandle room = Some h ->
                ticked (removeRoom w roomId) (IntervalFires h) = None) /\
     (forall h, tickerHandle room <> Some h ->
                intervals (removeRoom w roomId) !! h = intervals w !! h)) /\
  removeRoom (removeRoom w roomId) roomId = removeRoom w roomId.
Proof.
  split; [|split].
  - unfold removeRoom. by intros ->.
  - intros r room Hname Hroom. unfold removeRoom, stop.
    rewrite Hname, Hroom.
    destruct (tickerHandle room) as [h0|] eqn:Hh; simpl.
    + repeat split.
      * intros h [= <-]. rewrite lookup_alter_eq.
        by destruct (intervals w !! h0).
      * intros h Hne. rewrite lookup_alter_ne; [done | congruence].
    + by repeat split.
  - unfold removeRoom at 1.
    assert (rooms (removeRoom w roomId) !! roomId = None) as ->; [|done].
    unfold removeRoom. destruct (rooms w !! roomId) eqn:Hname; [|done].
    simpl. apply lookup_delete_eq.
Qed.

(** X4. Adding an occupant that a Room does not have and removing it again
    gives back the state, when the Room had other occupants; when it had
    none, the removal discards the Room. *)
Theorem addToRoom_removeFromRoom w roomId userId l r room :
  rooms w !! roomId = Some r ->
  room_store w !! r = Some room ->
  people room !! userId = None ->
  exists w1,
    addToRoom w roomId userId (Some l) = Return w1 /\
    (people room <> ∅ -> removeFromRoom w1 roomId userId = w) /\
    (people room = ∅ ->
     rooms (removeFromRoom w1 roomId userId) = delete roomId (rooms w) /\
     forall h, tickerHandle room = Some h ->
               ticked (removeFromRoom w1 roomId userId) (IntervalFires h)
               = None).
Proof.
  intros Hname Hroom Hnone. unfold addToRoom. rewrite Hname.
  eexists. split; [reflexivity|].
  set (room1 := set_people room (<[userId := l]> (people room))).
  set (w1 := set_room_store w _).
  assert (room_store w1 !! r = Some room1) as Hroom1.
  { unfold w1. simpl. by rewrite lookup_alter_eq, Hroom. }
  assert (without userId room1 = room) as Hback.
  { unfold without, room1. simpl. rewrite delete_insert_id by done.
    by destruct room. }
  assert (delete userId (people room1) = people room) as Hdel.
  { unfold room1. simpl. by rewrite delete_insert_id. }
  assert (set_room_store w1 (<[r := room]> (room_store w1)) = w) as Hw.
  { assert (<[r := room]> (room_store w1) = room_store w) as ->.
    { apply map_eq. intros r'. unfold w1. simpl.
      destruct (decide (r = r')) as [<-|Hne].
      - by rewrite lookup_insert_eq.
      - by rewrite lookup_insert_ne, lookup_alter_ne. }
    unfold w1. by destruct w. }
  rewrite (removeFromRoom_eq w1 roomId userId r room1 Hname Hroom1).
  rewrite Hback, Hdel. cbn zeta. rewrite Hw. split.
  - intros Hne. by rewrite bool_decide_false.
  - intros Hempty. rewrite bool_decide_true by done.
    split; [done|]. intros h Hh. unfold ticked, room1. simpl. rewrite Hh.
    simpl. rewrite lookup_alter_eq. by destruct (intervals w !! h).
Qed.

(** *** [room.ts]: what a tick leaves alone *)

(** X5. A tick of a Room touches that Room's clock and the Persons of that
    Room only: the registry, the sockets, the timers, every other Room and
    every Person that is in no entry of the Room are as before, and no
    Person appears or disappears. Of the Room itself only [serverTime]
    changes, to [serverTime + 1]: its occupants, its gravity, its timer
    handle and its callbacks are as before. *)
Theorem tick_other_rooms w r room :
  room_store w !! r = Some room ->
  rooms (world_of (tick w r)) = rooms w /\
  sockets (world_of (tick w r)) = sockets w /\
  intervals (world_of (tick w r)) = intervals w /\
  (forall r', r' <> r ->
     room_store (world_of (tick w r)) !! r' = room_store w !! r') /\
  (forall l, (forall k, people room !! k <> Some l) ->
     person_store (world_of (tick w r)) !! l = person_store w !! l) /\
  dom (person_store (world_of (tick w r))) = dom (person_store w) /\
  (exists room',
     room_store (world_of (tick w r)) !! r = Some room' /\
     serverTime room' = (serverTime room + 1)%float /\
     people room' = people room /\
     gravity room' = gravity room /\
     tickerHandle room' = tickerHandle room /\
     tickCallbacks room' = tickCallbacks room).
Proof.
  intros Hr. rewrite (tick_world w r room Hr). simpl.
  split; [done|]. split; [done|]. split; [done|]. split; [|split; [|split]].
  - intros r' Hne. by rewrite lookup_insert_ne.
  - intros l Hl. apply tick_people_lookup_other.
    unfold values. rewrite list_elem_of_fmap. intros ([k l'] & -> & Hin).
    apply elem_of_map_to_list in Hin. by apply (Hl k).
  - apply set_eq. intros l. rewrite !elem_of_dom, tick_people_lookup.
    by rewrite fmap_is_Some.
  - exists (tick_time room). by rewrite lookup_insert_eq.
Qed.

(** X6. What the two loops of [tick] leave does not depend on the order in
    which the Map yields the Persons; and when no Person sits in the room
    twice, one loop that does both steps Person by Person leaves the same. *)
Theorem tick_order_independent room store refs :
  refs ≡ₚ values (people room) ->
  visit move_person refs (visit (enact_force (gravity room)) refs store)
  = tick_people room store /\
  (distinct_persons room ->
   visit (tick_person (gravity room)) refs store = tick_people room store).
Proof.
  intros Hp. unfold tick_people. split.
  - rewrite (visit_order _ refs _ _ Hp).
    by rewrite (visit_order _ refs _ _ Hp).
  - intros Hd. rewrite (visit_order _ refs _ _ Hp).
    apply map_eq. intros l. rewrite !visit_lookup.
    destruct (decide (l ∈ values (people room))) as [Hin|Hni].
    + rewrite (visits_NoDup l _ (values_NoDup room Hd) Hin).
      by destruct (store !! l).
    + rewrite (visits_not_elem l _ Hni). by destruct (store !! l).
Qed.



(** *** [index.ts]: what holds of every state of the process *)

Lemma reached_ok es : World_ok (world_of (run World_init es)).
Proof. apply run_ok, World_ok_init. Qed.

(** X8. In every state the process reaches, each id of the registry names a
    Room that has at least one occupant and holds the handle of a timer that
    ticks it; no Room is registered under two ids; a timer ticks
    registered Rooms only; and no Room is ticked by two timers. *)
Theorem reached_registry es :
  let w := world_of (run World_init es) in
  (forall name r,
     rooms w !! name = Some r ->
     exists room h,
       room_store w !! r = Some room /\ people room <> ∅ /\
       tickerHandle room = Some h /\
       ticked w (IntervalFires h) = Some r) /\
  (forall n1 n2 r,
     rooms w !! n1 = Some r -> rooms w !! n2 = Some r -> n1 = n2) /\
  (forall e r, ticked w e = Some r -> exists name, rooms w !! name = Some r) /\
  (forall h1 h2 r,
     ticked w (IntervalFires h1) = Some r ->
     ticked w (IntervalFires h2) = Some r -> h1 = h2).
Proof.
  intros w. destruct (reached_ok es) as ((HR & HJ & HT) & HI & _).
  fold w in HR, HJ, HT, HI. split; [|split; [exact HJ|split]].
  - intros name r Hname.
    destruct (HR name r Hname) as (room & h & Hroom & Hh & Hi).
    exists room, h. split; [done|]. split; [by apply (HI name r)|].
    split; [done|]. unfold ticked. by rewrite Hi.
  - intros e r. destruct e; try done. unfold ticked.
    destruct (intervals w !! h) as [i|] eqn:Hi; [|done].
    destruct (running i) eqn:Hrun; [|done]. intros [= <-].
    destruct (HT h i Hi Hrun) as (name & _ & Hname & _). by exists name.
  - assert (forall h r, ticked w (IntervalFires h) = Some r ->
              exists room, room_store w !! r = Some room /\
                           tickerHandle room = Some h) as Hh.
    { intros h r. unfold ticked.
      destruct (intervals w !! h) as [i|] eqn:Hi; [|done].
      destruct (running i) eqn:Hrun; [|done]. intros [= <-].
      destruct (HT h i Hi Hrun) as (_ & room & _ & Hroom & Hth).
      by exists room. }
    intros h1 h2 r H1 H2.
    destruct (Hh h1 r H1) as (room1 & Hr1 & Ht1).
    destruct (Hh h2 r H2) as (room2 & Hr2 & Ht2). congruence.
Qed.

(** X9. In every state the process reaches, an entry of a Room is the
    [userID] and the [person] of some socket, the Person is in the store, and
    no other id of that Room maps to the same Person. *)
Theorem reached_occupants es r room k l :
  room_store (world_of (run World_init es)) !! r = Some room ->
  people room !! k = Some l ->
  (exists s c,
     sockets (world_of (run World_init es)) !! s = Some c /\
     userID c = k /\ person c = l) /\
  is_Some (person_store (world_of (run World_init es)) !! l) /\
  (forall k', people room !! k' = Some l -> k' = k).
Proof.
  intros Hroom Hk. destruct (reached_ok es) as (_ & _ & HS).
  pose proof (Sockets_ok_distinct _ r room HS Hroom) as Hd.
  destruct HS as (H1 & _ & H3).
  destruct (H1 r room k l Hroom Hk) as (s & c & Hc & Hu & Hp).
  split; [by exists s, c|]. split.
  - rewrite <- Hp. by apply (H3 s c).
  - intros k' Hk'. by apply (Hd k' k l).
Qed.

Lemma removeFromRoom_other w roomId userId name r0 :
  World_ok w -> name <> roomId -> rooms w !! name = Some r0 ->
  rooms (removeFromRoom w roomId userId) !! name = Some r0 /\
  room_store (removeFromRoom w roomId userId) !! r0 = room_store w !! r0.
Proof.
  intros ((HR & HJ & _) & _) Hne Hname.
  destruct (rooms w !! roomId) as [r|] eqn:Hid;
    [|by rewrite removeFromRoom_absent].
  destruct (HR roomId r Hid) as (room & h & Hroom & _).
  assert (r <> r0) as Hner.
  { intros ->. by apply Hne, (HJ name roomId r0). }
  rewrite (removeFromRoom_eq w roomId userId r room Hid Hroom). cbn zeta.
  destruct (bool_decide _); simpl.
  - rewrite lookup_delete_ne by done. rewrite clearInterval_room_store. simpl.
    by rewrite lookup_insert_ne.
  - by rewrite lookup_insert_ne.
Qed.

(** The ["room"] handler, step by step: [w1] is the state once the old room
    is left. *)
Lemma on_room_shape w s c roomID_ :
  World_ok w ->
  sockets w !! s = Some c ->
  let w1 := if bool_decide (roomID c = "") then w
            else removeFromRoom w (roomID c) (userID c) in
  exists w' r room,
    on_room w s roomID_ = Return w' /\
    World_ok w1 /\ World_ok w' /\
    sockets w' = <[s := set_roomID c roomID_]> (sockets w) /\
    person_store w' = person_store w /\
    rooms w' = <[roomID_ := r]> (rooms w1) /\
    room_store w' !! r = Some room /\
    people room !! userID c = Some (person c) /\
    (forall r', r' <> r -> room_store w' !! r' = room_store w1 !! r') /\
    match rooms w1 !! roomID_ with
    | Some r1 =>
        r = r1 /\ intervals w' = intervals w1 /\
        exists room1,
          room_store w1 !! r1 = Some room1 /\
          room = set_people room1 (<[userID c := person c]> (people room1))
    | None =>
        room_store w1 !! r = None /\ serverTime room = 0%float /\
        people room = {[userID c := person c]} /\
        exists h,
          intervals w1 !! h = None /\ tickerHandle room = Some h /\
          intervals w'
          = <[h := {| target := r; running := true |}]> (intervals w1)
    end.
Proof.
  intros Hok Hc w1.
  assert (World_ok w1) as Hok1.
  { unfold w1. destruct (bool_decide _); [done | by apply removeFromRoom_ok]. }
  assert (sockets w1 = sockets w /\ person_store w1 = person_store w)
    as [Hs1 Hp1].
  { unfold w1. destruct (bool_decide _); [done|].
    by destruct (removeFromRoom_fields w (roomID c) (userID c))
      as (_ & _ & ? & ?). }
  destruct (on_room_ok DEFAULT_GRAVITY w s roomID_ Hok) as (w'' & Hret & Hok'').
  revert Hret. unfold on_room. rewrite Hc. fold w1. rewrite Hs1. simpl.
  destruct (rooms w1 !! roomID_) as [r|] eqn:Hname1.
  - destruct Hok1 as ((HR1 & ?) & ?).
    destruct (HR1 roomID_ r Hname1) as (room1 & h & Hroom1 & _).
    unfold addToRoom. simpl. rewrite Hname1. intros [= <-].
    eexists _, r, _. split; [reflexivity|]. simpl.
    rewrite lookup_alter_eq, Hroom1. simpl.
    split; [done|]. split; [done|]. split; [done|]. split; [done|].
    split; [by rewrite insert_id|]. split; [reflexivity|].
    simpl. rewrite lookup_insert_eq. split; [done|]. split.
    { intros r' Hne. by rewrite lookup_alter_ne. }
    split; [done|]. split; [done|]. by exists room1.
  - unfold addToRoom. simpl. rewrite lookup_insert_eq. intros [= <-].
    eexists _, _, _. split; [reflexivity|]. simpl.
    rewrite !lookup_alter_eq, !lookup_insert_eq. simpl.
    split; [done|]. split; [done|]. split; [done|]. split; [done|].
    split; [done|]. split; [reflexivity|].
    simpl. rewrite lookup_insert_eq. split; [done|]. split.
    { intros r' Hne. by rewrite !lookup_alter_ne, lookup_insert_ne. }
    split; [apply not_elem_of_dom, is_fresh|]. split; [done|].
    split; [done|]. eexists. split; [|split; [reflexivity|done]].
    apply not_elem_of_dom, is_fresh.
Qed.

(** X10. In every state the process reaches, the ["room"] handler returns:
    the error of [addToRoom] cannot occur there. Afterwards the socket's
    [roomID] is the id asked for, the registry has a Room under that id,
    and that Room maps the socket's [userID] to the socket's Person; no
    Person changed, and no other socket. If the id named a Room and the
    socket comes from another room, it is that same Room, with its clock
    and its other occupants. *)
Theorem room_event_joins es s c roomID_ :
  sockets (world_of (run World_init es)) !! s = Some c ->
  exists w' r room,
    on_room (world_of (run World_init es)) s roomID_ = Return w' /\
    sockets w'
    = <[s := set_roomID c roomID_]> (sockets (world_of (run World_init es))) /\
    person_store w' = person_store (world_of (run World_init es)) /\
    rooms w' !! roomID_ = Some r /\
    room_store w' !! r = Some room /\
    people room !! userID c = Some (person c) /\
    (forall r0 room0,
       roomID c <> roomID_ ->
       rooms (world_of (run World_init es)) !! roomID_ = Some r0 ->
       room_store (world_of (run World_init es)) !! r0 = Some room0 ->
       r = r0 /\
       room = set_people room0 (<[userID c := person c]> (people room0))).
Proof.
  set (w := world_of (run World_init es)). intros Hc.
  pose proof (reached_ok es) as Hok. fold w in Hok.
  destruct (on_room_shape w s c roomID_ Hok Hc)
    as (w' & r & room & Hret & Hok1 & _ & Hs & Hp & Hrooms & Hroom & Hk & _
        & Hcase).
  exists w', r, room. split; [done|]. split; [done|]. split; [done|].
  split; [by rewrite Hrooms, lookup_insert_eq|]. split; [done|].
  split; [done|]. intros r0 room0 Hne Hname Hroom0.
  set (w1 := if bool_decide (roomID c = "") then w else _) in *.
  assert (rooms w1 !! roomID_ = Some r0 /\
          room_store w1 !! r0 = room_store w !! r0) as [Hn Hr].
  { unfold w1. destruct (bool_decide _); [done|].
    apply removeFromRoom_other; done. }
  rewrite Hn in Hcase. destruct Hcase as (-> & _ & room1 & Hroom1 & ->).
  split; [done|]. congruence.
Qed.


(** X11. A tick throws exactly when the [serverTime] it has just
    incremented is even, [serverTime % 2 === 0], and the [roomID] variable
    of the socket of one of the Room's callbacks names no Room of the
    registry; it then throws a TypeError, after the physics and the clock
    are done. Otherwise it returns. For a Room that has been ticked [n]
    times, fewer than [2 ^ 53], the test is that [n + 1] is even. *)
Theorem tick_throws w r room :
  room_store w !! r = Some room ->
  (tick w r = Throw TypeError (world_of (tick w r)) <->
   Number.strict_eq (Number.remainder (serverTime room + 1) 2) 0 = true /\
   exists s c,
     SendRoomInfo s ∈ tickCallbacks room /\
     sockets w !! s = Some c /\ rooms w !! roomID c = None) /\
  (tick w r <> Throw TypeError (world_of (tick w r)) ->
   tick w r = Return (world_of (tick w r))) /\
  (forall n,
     clock_at n room -> (n < 2 ^ 53)%Z ->
     Number.strict_eq (Number.remainder (serverTime room + 1) 2) 0 = true <->
     ((n + 1) mod 2 = 0)%Z).
Proof.
  intros Hr.
  assert (forall n,
            clock_at n room -> (n < 2 ^ 53)%Z ->
            Number.strict_eq (Number.remainder (serverTime room + 1) 2) 0
              = true <->
            ((n + 1) mod 2 = 0)%Z) as Hparity.
  { intros n [Hn ->] Hlt. rewrite count_succ, count_parity by lia.
    apply Z.eqb_eq. }
  apply and_assoc. split; [|exact Hparity]. clear Hparity.
  unfold tick. rewrite Hr. cbn zeta.
  set (w2 := set_room_store _ _).
  assert (forall fn,
            run_callback w2 (tick_time room) fn = false <->
            Number.strict_eq (Number.remainder (serverTime room + 1) 2) 0
              = true /\
            exists s c, fn = SendRoomInfo s /\
                        sockets w !! s = Some c /\
                        rooms w !! roomID c = None) as Hcb.
  { intros [s]. unfold run_callback. simpl.
    destruct (Number.strict_eq (Number.remainder (serverTime room + 1) 2) 0)
      eqn:He.
    - destruct (sockets w !! s) as [c|] eqn:Hc.
      + rewrite bool_decide_eq_false, <- eq_None_not_Some. split.
        * intros Hn. split; [done|]. by exists s, c.
        * intros (_ & s' & c' & [= <-] & Hc' & Hn). congruence.
      + split; [done|]. intros (_ & s' & c' & [= <-] & Hc' & _). congruence.
    - split; [done|]. by intros [? _]. }
  destruct (forallb _ _) eqn:Hall; simpl.
  - split; [|done]. split; [done|].
    intros (He & s & c & Hin & Hc & Hn). exfalso.
    rewrite forallb_forall in Hall.
    assert (run_callback w2 (tick_time room) (SendRoomInfo s) = false) as Hf.
    { apply Hcb. split; [done|]. by exists s, c. }
    rewrite Hall in Hf; [done|]. by apply list_elem_of_In.
  - split; [|done]. split; [|done]. intros _.
    assert (~ Forall (fun fn => run_callback w2 (tick_time room) fn = true)
              (tickCallbacks room)) as Hnot.
    { rewrite Forall_forall. intros Hf.
      assert (forallb (run_callback w2 (tick_time room)) (tickCallbacks room)
              = true); [|congruence].
      apply forallb_forall. intros fn Hin. by apply Hf, list_elem_of_In. }
    apply not_Forall_Exists in Hnot; [|intros fn; apply _].
    apply Exists_exists in Hnot as (fn & Hin & Hfn). simpl in Hfn.
    apply not_true_is_false in Hfn.
    apply Hcb in Hfn as (He & s & c & -> & Hc & Hn).
    split; [done|]. by exists s, c.
Qed.

(** X12. A socket whose [roomID] is the empty string is not taken out of
    the room [""] by the ["room"] handler, which tests [if (roomID)]: after
    joining [""] and then another id, it is an occupant of both Rooms, with
    the same Person; and its disconnection takes it out of the second only,
    the Room of [""] staying registered with that occupant and its timer. *)
Theorem empty_roomID_is_not_left es s c roomID_ r0 room0 :
  sockets (world_of (run World_init es)) !! s = Some c ->
  roomID c = "" ->
  roomID_ <> "" ->
  rooms (world_of (run World_init es)) !! "" = Some r0 ->
  room_store (world_of (run World_init es)) !! r0 = Some room0 ->
  people room0 !! userID c = Some (person c) ->
  exists w' r room,
    on_room (world_of (run World_init es)) s roomID_ = Return w' /\
    rooms w' !! "" = Some r0 /\
    room_store w' !! r0 = Some room0 /\
    rooms w' !! roomID_ = Some r /\
    r <> r0 /\
    room_store w' !! r = Some room /\
    people room !! userID c = Some (person c) /\
    rooms (on_disconnect w' s) !! "" = Some r0 /\
    room_store (on_disconnect w' s) !! r0 = Some room0 /\
    (forall h, tickerHandle room0 = Some h ->
               ticked (on_disconnect w' s) (IntervalFires h) = Some r0).
Proof.
  set (w := world_of (run World_init es)).
  intros Hc Hempty Hne Hname0 Hroom0 Hk0.
  pose proof (reached_ok es) as Hok. fold w in Hok.
  destruct (on_room_shape w s c roomID_ Hok Hc)
    as (w' & r & room & Hret & _ & Hok' & Hs & Hp & Hrooms & Hroom & Hk
        & Hother & _).
  rewrite bool_decide_true in Hrooms, Hother by done.
  assert (rooms w' !! "" = Some r0) as Hname0'.
  { by rewrite Hrooms, lookup_insert_ne. }
  assert (rooms w' !! roomID_ = Some r) as Hname'.
  { by rewrite Hrooms, lookup_insert_eq. }
  assert (r <> r0) as Hner.
  { intros ->. destruct Hok' as ((_ & HJ & _) & _).
    by apply Hne, (HJ roomID_ "" r0). }
  assert (room_store w' !! r0 = Some room0) as Hroom0'.
  { by rewrite Hother. }
  exists w', r, room. repeat (split; [done|]).
  unfold on_disconnect. rewrite Hs, lookup_insert_eq. simpl.
  destruct (removeFromRoom_other w' roomID_ (userID c) "" r0 Hok')
    as [H1 H2]; [done | done |].
  split; [done|]. split; [by rewrite H2|].
  intros h Hh.
  pose proof (removeFromRoom_ok w' roomID_ (userID c) Hok')
    as ((HR & _) & _).
  destruct (HR "" r0 H1) as (room0' & h' & Hr0' & Hh' & Hi').
  rewrite H2, Hroom0' in Hr0'. injection Hr0' as <-.
  assert (h' = h) as -> by congruence.
  unfold ticked. by rewrite Hi'.
Qed.

(** X13. A connection that joins an id the registry does not have, and
    disconnects, leaves the registry and the Persons as they were and no
    timer running that was not: the Room it made is discarded with its
    timer. *)
Theorem join_then_disconnect es s c roomID_ :
  sockets (world_of (run World_init es)) !! s = Some c ->
  roomID c = "" ->
  rooms (world_of (run World_init es)) !! roomID_ = None ->
  exists w' r,
    on_room (world_of (run World_init es)) s roomID_ = Return w' /\
    rooms w' !! roomID_ = Some r /\
    rooms (on_disconnect w' s) = rooms (world_of (run World_init es)) /\
    person_store (on_disconnect w' s)
    = person_store (world_of (run World_init es)) /\
    (forall e, ticked (on_disconnect w' s) e
               = ticked (world_of (run World_init es)) e) /\
    (forall e, ticked (on_disconnect w' s) e <> Some r).
Proof.
  set (w := world_of (run World_init es)). intros Hc Hempty Hnone.
  pose proof (reached_ok es) as Hok. fold w in Hok.
  destruct (on_room_shape w s c roomID_ Hok Hc)
    as (w' & r & room & Hret & _ & Hok' & Hs & Hp & Hrooms & Hroom & Hk
        & Hother & Hcase).
  rewrite bool_decide_true in Hrooms, Hother, Hcase by done.
  rewrite Hnone in Hcase.
  destruct Hcase as (Hfresh & _ & Hpeople & h & Hh & Hth & Hint).
  assert (rooms w' !! roomID_ = Some r) as Hname'.
  { by rewrite Hrooms, lookup_insert_eq. }
  exists w', r. split; [done|]. split; [done|].
  unfold on_disconnect. rewrite Hs, lookup_insert_eq. simpl.
  rewrite (removeFromRoom_eq w' roomID_ (userID c) r room Hname' Hroom).
  cbn zeta. rewrite Hpeople, delete_singleton_eq, bool_decide_true by done.
  rewrite Hth. simpl. rewrite Hrooms, delete_insert_id by done.
  split; [done|]. split; [done|].
  assert (forall e,
            ticked (set_rooms
                      (set_intervals
                         (set_room_store w'
                            (<[r := without (userID c) room]> (room_store w')))
                         (alter
                            (fun i => {| target := target i;
                                         running := false |})
                            h (intervals w')))
                      (rooms w)) e = ticked w e) as Hsame.
  { intros e. destruct e; try done. unfold ticked. simpl. rewrite Hint.
    destruct (decide (h = h0)) as [<-|Hneq].
    - by rewrite lookup_alter_eq, lookup_insert_eq, Hh.
    - by rewrite lookup_alter_ne, lookup_insert_ne. }
  split; [exact Hsame|].
  intros e. rewrite Hsame. intros Ht.
  destruct Hok as ((HR & _ & HT) & _).
  destruct e; try done. unfold ticked in Ht.
  destruct (intervals w !! h0) as [i|] eqn:Hi; [|done].
  destruct (running i) eqn:Hrun; [|done]. injection Ht as Ht.
  destruct (HT h0 i Hi Hrun) as (_ & room' & _ & Hroom' & _). congruence.
Qed.

(** X14. A socket that is the only occupant of its room and sends ["room"]
    with the id of that room again does not stay in the Room: leaving
    discards the Room and stops its timer, and the join makes a new Room
    for the id, whose [serverTime] starts again at 0. *)
Theorem rejoin_alone_restarts es s c r0 room0 :
  sockets (world_of (run World_init es)) !! s = Some c ->
  roomID c <> "" ->
  rooms (world_of (run World_init es)) !! roomID c = Some r0 ->
  room_store (world_of (run World_init es)) !! r0 = Some room0 ->
  people room0 = {[userID c := person c]} ->
  exists w' r room,
    on_room (world_of (run World_init es)) s (roomID c) = Return w' /\
    rooms w' !! roomID c = Some r /\
    r <> r0 /\
    room_store w' !! r = Some room /\
    serverTime room = 0%float /\
    people room = {[userID c := person c]} /\
    (forall e, ticked w' e <> Some r0) /\
    (forall h, tickerHandle room = Some h ->
               ticked w' (IntervalFires h) = Some r).
Proof.
  set (w := world_of (run World_init es)).
  intros Hc Hne Hname0 Hroom0 Hpeople0.
  pose proof (reached_ok es) as Hok. fold w in Hok.
  destruct (on_room_shape w s c (roomID c) Hok Hc)
    as (w' & r & room & Hret & Hok1 & Hok' & Hs & Hp & Hrooms & Hroom & Hk
        & Hother & Hcase).
  rewrite bool_decide_false in Hok1, Hrooms, Hother, Hcase by done.
  revert Hok1 Hrooms Hother Hcase.
  rewrite (removeFromRoom_eq w (roomID c) (userID c) r0 room0 Hname0 Hroom0).
  cbn zeta. rewrite Hpeople0, delete_singleton_eq, bool_decide_true by done.
  set (w1 := set_rooms _ _). intros Hok1 Hrooms Hother Hcase.
  destruct (Timers_ok_remove w (roomID c) r0 room0
              (without (userID c) room0)) as [_ Hd];
    [by destruct Hok | done | done | done |].
  fold w1 in Hd. destruct Hd as (D1 & D2 & D3).
  assert (rooms w1 !! roomID c = None) as Hnone.
  { unfold w1. simpl. apply lookup_delete_eq. }
  rewrite Hnone in Hcase.
  destruct Hcase as (Hfresh & Htime & Hpeople & h & Hh & Hth & Hint).
  assert (r <> r0) as Hner.
  { intros ->. rewrite Hfresh in D1. by destruct D1. }
  exists w', r, room. split; [done|].
  split; [by rewrite Hrooms, lookup_insert_eq|].
  split; [done|]. split; [done|]. split; [done|]. split; [done|]. split.
  - intros e. destruct e; try done. unfold ticked. rewrite Hint.
    destruct (decide (h = h0)) as [<-|Hneq].
    + rewrite lookup_insert_eq. simpl. congruence.
    + rewrite lookup_insert_ne by done.
      destruct (intervals w1 !! h0) as [i|] eqn:Hi; [|done].
      destruct (running i) eqn:Hrun; [|done]. intros [= Ht].
      by apply (D3 h0 i).
  - intros h' Hh'. assert (h' = h) as -> by congruence.
    unfold ticked. by rewrite Hint, lookup_insert_eq.
Qed.


(** *** [index.ts]: the events of different sockets *)

Lemma step_person_event w e s f :
  person_event e = Some (s, f) -> step w e = Return (on_person w s f).
Proof. destruct e; simpl; intros [= <- <-]; reflexivity. Qed.

(** X15. The handlers that write to the Person of their socket
    (["set-flying"], ["jump"], ["fly"], ["color"], ["shape"], the two moves,
    the rotation, ["set-yaw"], ["set-pitch"]) return and leave the registry,
    the Rooms, the sockets, the timers and every other Person as they are;
    and in every state the process reaches, two such events of two different
    sockets give the same state in either order. *)
Theorem person_events_commute es e1 e2 s1 s2 f1 f2 :
  person_event e1 = Some (s1, f1) ->
  person_event e2 = Some (s2, f2) ->
  s1 <> s2 ->
  run (world_of (run World_init es)) [e1; e2]
  = run (world_of (run World_init es)) [e2; e1] /\
  exists w',
    step (world_of (run World_init es)) e1 = Return w' /\
    rooms w' = rooms (world_of (run World_init es)) /\
    room_store w' = room_store (world_of (run World_init es)) /\
    sockets w' = sockets (world_of (run World_init es)) /\
    intervals w' = intervals (world_of (run World_init es)) /\
    forall c l,
      sockets (world_of (run World_init es)) !! s1 = Some c ->
      l <> person c ->
      person_store w' !! l
      = person_store (world_of (run World_init es)) !! l.
Proof.
  set (w := world_of (run World_init es)). intros He1 He2 Hne.
  destruct (reached_ok es) as (_ & _ & (_ & HD & _)). fold w in HD.
  split.
  - simpl. rewrite (step_person_event w e1 s1 f1 He1).
    rewrite (step_person_event w e2 s2 f2 He2).
    rewrite (step_person_event _ e2 s2 f2 He2).
    rewrite (step_person_event _ e1 s1 f1 He1). f_equal.
    unfold on_person.
    destruct (sockets w !! s1) as [c1|] eqn:Hc1;
      destruct (sockets w !! s2) as [c2|] eqn:Hc2; simpl;
      rewrite ?Hc1, ?Hc2; simpl; try done.
    f_equal. apply alter_alter_ne. intros Heq.
    by apply Hne, (HD s1 s2 c1 c2).
  - rewrite (step_person_event w e1 s1 f1 He1). eexists.
    split; [reflexivity|]. unfold on_person.
    destruct (sockets w !! s1) as [c1|]; simpl; [|by repeat split].
    repeat split. intros c l [= <-] Hl. by rewrite lookup_alter_ne.
Qed.

(** *** [room.ts]: the physics over several ticks *)

Lemma tick_person_kept g p : kept p (tick_person g p).
Proof.
  eapply kept_trans; [apply enact_force_kept | apply move_person_kept].
Qed.

Lemma tick_person_horizontal g p :
  x (position (tick_person g p))
  = (x (position p) + x (velocity p) * TICK_LENGTH)%float /\
  z (position (tick_person g p))
  = (z (position p) + z (velocity p) * TICK_LENGTH)%float.
Proof.
  unfold tick_person, move_person, floor_check.
  destruct (Number.lt _ _); simpl; unfold enact_force;
    destruct (flying p); by simpl.
Qed.

Lemma iter_tick_person_horizontal g n p :
  x (position (Nat.iter n (tick_person g) p))
  = repeat_add n (x (velocity p) * TICK_LENGTH) (x (position p)) /\
  z (position (Nat.iter n (tick_person g) p))
  = repeat_add n (z (velocity p) * TICK_LENGTH) (z (position p)).
Proof.
  induction n as [|n [IHx IHz]]; [done|].
  change (Nat.iter (S n) (tick_person g) p)
    with (tick_person g (Nat.iter n (tick_person g) p)).
  destruct (tick_person_horizontal g (Nat.iter n (tick_person g) p))
    as [-> ->].
  destruct (iter_kept (tick_person g) n p (tick_person_kept g))
    as (-> & -> & _).
  rewrite IHx, IHz. done.
Qed.

(** X16. Over [n] consecutive ticks of its room, a Person that sits there
    under one user id moves along x and z by [n] successive additions of
    [velocity.x * TICK_LENGTH] and [velocity.z * TICK_LENGTH], whatever the
    gravity, [flying] and the floor do to y; and [velocity.x] and
    [velocity.z] are as at the start. *)
Theorem horizontal_motion n w r room k l p :
  room_store w !! r = Some room ->
  people room !! k = Some l ->
  person_store w !! l = Some p ->
  distinct_persons room ->
  exists p',
    person_store (ticks n w r) !! l = Some p' /\
    x (position p')
    = repeat_add n (x (velocity p) * TICK_LENGTH) (x (position p)) /\
    z (position p')
    = repeat_add n (z (velocity p) * TICK_LENGTH) (z (position p)) /\
    x (velocity p') = x (velocity p) /\
    z (velocity p') = z (velocity p).
Proof.
  intros Hr Hk Hl Hd. eexists.
  split; [by apply (ticks_lookup n w r room k l p)|].
  destruct (iter_tick_person_horizontal (gravity room) n p) as [-> ->].
  destruct (iter_kept (tick_person (gravity room)) n p
              (tick_person_kept (gravity room))) as (-> & -> & _).
  done.
Qed.

Lemma tick_person_rest g p :
  Number.lt (0 + (0 - g * TICK_LENGTH) * TICK_LENGTH) FLOOR_Y = true ->
  flying p = false ->
  y (position p) = 0%float ->
  y (velocity p) = 0%float ->
  flying (tick_person g p) = false /\
  y (position (tick_person g p)) = 0%float /\
  y (velocity (tick_person g p)) = 0%float.
Proof.
  intros Hg Hf Hy Hv.
  unfold tick_person, move_person, floor_check, enact_force.
  rewrite Hf. simpl. rewrite Hy, Hv, Hg. by simpl.
Qed.

(** X17. Under a gravity that takes a Person at rest below the floor in one
    tick (9.8 does), a Person that is not flying and is at rest on the
    floor, [position.y] and [velocity.y] both 0, is there again after every
    tick of its room: the fall of each tick is clamped away. *)
Theorem at_rest_on_the_floor n w r room k l p :
  room_store w !! r = Some room ->
  people room !! k = Some l ->
  person_store w !! l = Some p ->
  distinct_persons room ->
  Number.lt (0 + (0 - gravity room * TICK_LENGTH) * TICK_LENGTH) FLOOR_Y
  = true ->
  flying p = false ->
  y (position p) = 0%float ->
  y (velocity p) = 0%float ->
  exists p',
    person_store (ticks n w r) !! l = Some p' /\
    flying p' = false /\
    y (position p') = 0%float /\
    y (velocity p') = 0%float.
Proof.
  intros Hr Hk Hl Hd Hg Hf Hy Hv. eexists.
  split; [by apply (ticks_lookup n w r room k l p)|].
  induction n as [|n IH]; [done|].
  change (Nat.iter (S n) (tick_person (gravity room)) p)
    with (tick_person (gravity room)
            (Nat.iter n (tick_person (gravity room)) p)).
  destruct IH as (IH1 & IH2 & IH3). by apply tick_person_rest.
Qed.

(** *** [index.ts]: what a tick sends *)

(** X18. The callback that the ["room"] handler gives a Room sends nothing
    when the Room's [serverTime] is odd, [serverTime % 2 === 0] being
    false. When it is even, it sends one update for each occupant of the
    Room that the [roomID] variable of the creating socket names at that
    time, to that id: the Room that ticks is not consulted. For a Room that
    has been ticked [n] times, the test is that [n] is even. *)
Theorem callback_reports w room s c :
  sockets w !! s = Some c ->
  (Number.strict_eq (Number.remainder (serverTime room) 2) 0 = false ->
   callback_sends w room (SendRoomInfo s) = []) /\
  (forall r' room',
     Number.strict_eq (Number.remainder (serverTime room) 2) 0 = true ->
     rooms w !! roomID c = Some r' ->
     room_store w !! r' = Some room' ->
     length (callback_sends w room (SendRoomInfo s)) = size (people room') /\
     forall to k l,
       (to, k, l) ∈ callback_sends w room (SendRoomInfo s) <->
       to = roomID c /\ people room' !! k = Some l) /\
  (forall n,
     clock_at n room ->
     Number.strict_eq (Number.remainder (serverTime room) 2) 0 = true <->
     (n mod 2 = 0)%Z).
Proof.
  intros Hc. unfold callback_sends. rewrite Hc. split; [|split].
  - by intros ->.
  - intros r' room' Heven Hname Hroom. rewrite Heven, Hname, Hroom. simpl.
    split; [by rewrite length_fmap, length_map_to_list|].
    intros to k l. rewrite list_elem_of_fmap. split.
    + intros ([k' l'] & [= -> -> ->] & Hin).
      split; [done|]. by apply elem_of_map_to_list.
    + intros [-> Hk]. exists (k, l). split; [done|].
      by apply elem_of_map_to_list.
  - intros n [Hn ->]. rewrite count_parity by done. apply Z.eqb_eq.
Qed.


(** *** [index.ts]: connecting and disconnecting *)

(** X19. In every state the process reaches, after the ["disconnect"] of a
    socket, the room that its [roomID] names, if it is still registered,
    does not have the socket's [userID]; every room under another id is as
    before, and so are the sockets and the Persons. *)
Theorem disconnect_leaves es s c :
  sockets (world_of (run World_init es)) !! s = Some c ->
  (forall r room,
     rooms (on_disconnect (world_of (run World_init es)) s) !! roomID c
     = Some r ->
     room_store (on_disconnect (world_of (run World_init es)) s) !! r
     = Some room ->
     people room !! userID c = None) /\
  (forall name r0,
     name <> roomID c ->
     rooms (world_of (run World_init es)) !! name = Some r0 ->
     rooms (on_disconnect (world_of (run World_init es)) s) !! name = Some r0 /\
     room_store (on_disconnect (world_of (run World_init es)) s) !! r0
     = room_store (world_of (run World_init es)) !! r0) /\
  sockets (on_disconnect (world_of (run World_init es)) s)
  = sockets (world_of (run World_init es)) /\
  person_store (on_disconnect (world_of (run World_init es)) s)
  = person_store (world_of (run World_init es)).
Proof.
  set (w := world_of (run World_init es)). intros Hc.
  pose proof (reached_ok es) as Hok. fold w in Hok.
  unfold on_disconnect. rewrite Hc.
  split; [|split; [|by destruct (removeFromRoom_fields w (roomID c)
                                   (userID c)) as (_ & _ & ? & ?)]].
  - destruct (rooms w !! roomID c) as [r0|] eqn:Hname.
    + destruct Hok as ((HR & _) & _).
      destruct (HR _ r0 Hname) as (room0 & _ & Hroom0 & _).
      rewrite (removeFromRoom_eq w _ (userID c) r0 room0 Hname Hroom0).
      cbn zeta. intros r room. destruct (bool_decide _); simpl.
      * by rewrite lookup_delete_eq.
      * rewrite Hname. intros [= <-]. rewrite lookup_insert_eq.
        intros [= <-]. simpl. apply lookup_delete_eq.
    + rewrite removeFromRoom_absent by done. intros r room. by rewrite Hname.
  - intros name r0 Hne Hname. by apply removeFromRoom_other.
Qed.

(** X20. A connection makes a socket and a Person that no socket and no
    room had: the Person is named after the identifier drawn, at the
    origin, at rest and not flying; the socket is in no room ([roomID] is
    empty). The registry, the Rooms, the timers, the other sockets and the
    other Persons are as before. *)
Theorem connection_makes_person es uuid :
  let w := world_of (run World_init es) in
  exists s l,
    sockets w !! s = None /\
    person_store w !! l = None /\
    (forall s' c', sockets w !! s' = Some c' -> person c' <> l) /\
    (forall r room k, room_store w !! r = Some room ->
                      people room !! k <> Some l) /\
    sockets (on_connection w uuid)
    = <[s := {| userID := uuid; roomID := ""; person := l |}]> (sockets w) /\
    person_store (on_connection w uuid)
    = <[l := {| position := {| x := 0; y := 0; z := 0 |};
                velocity := {| x := 0; y := 0; z := 0 |};
                yaw := 0; pitch := 0; username := uuid; flying := false;
                color := "#ff7700"; shape := "cube" |}]> (person_store w) /\
    rooms (on_connection w uuid) = rooms w /\
    room_store (on_connection w uuid) = room_store w /\
    intervals (on_connection w uuid) = intervals w.
Proof.
  intros w. destruct (reached_ok es) as (_ & _ & (H1 & _ & H3)).
  fold w in H1, H3.
  exists (fresh (dom (sockets w))), (fresh (dom (person_store w))).
  assert (person_store w !! fresh (dom (person_store w)) = None) as Hl
    by apply not_elem_of_dom, is_fresh.
  split; [apply not_elem_of_dom, is_fresh|]. split; [done|].
  split; [|split; [|done]].
  - intros s' c' Hc' Heq. destruct (H3 s' c' Hc') as [p Hp]. congruence.
  - intros r room k Hroom Hk.
    destruct (H1 r room k _ Hroom Hk) as (s' & c' & Hc' & _ & Heq).
    destruct (H3 s' c' Hc') as [p Hp]. congruence.
Qed.

(** X21. In every state the process reaches, the only events whose handler
    throws are ["username"], which then leaves the state as it is, and the
    firing of a timer; what is thrown is a TypeError: the ["Room does not
    exist"] error of [addToRoom] is never raised. *)
Theorem only_username_and_ticks_throw es e x w' :
  step (world_of (run World_init es)) e = Throw x w' ->
  x = TypeError /\
  ((exists s name, e = OnUsername s name /\ w' = world_of (run World_init es))
   \/ (exists h r, e = IntervalFires h /\
                   ticked (world_of (run World_init es)) e = Some r)).
Proof.
  set (w := world_of (run World_init es)).
  pose proof (reached_ok es) as Hok. fold w in Hok.
  destruct e; simpl; try discriminate.
  - destruct (on_room_ok DEFAULT_GRAVITY w s roomID_ Hok) as (w'' & -> & _).
    discriminate.
  - unfold on_username. destruct (sockets w !! s); [|discriminate].
    destruct (bool_decide _); [discriminate|]. intros [= <- <-].
    split; [done|]. left. by eexists _, _.
  - destruct (intervals w !! h) as [i|]; [|discriminate].
    destruct (running i); [|discriminate]. unfold tick.
    destruct (room_store w !! target i); [|discriminate].
    destruct (forallb _ _); [discriminate|]. intros [= <- <-].
    split; [done|]. right. by eexists _, _.
Qed.

(** *** [index.ts]: no handler writes a horizontal velocity *)







End More.

(** * The further statements at concrete inputs *)

Example reached_examples :
  reached joining = joined_world /\
  room_store (reached sharing) !! 1%positive = Some shared_room /\
  room_store (reached moving) !! 1%positive = Some (left_room 0) /\
  sockets (reached moving) !! 1%positive = Some moved_socket /\
  room_store (reached abandoning) !! 1%positive = Some (left_room 1) /\
  sockets (reached abandoning) !! 1%positive = Some moved_socket /\
  rooms (reached abandoning) = {["A" := 1%positive]}.
Proof. repeat split; vm_compute; reflexivity. Qed.

(** X1 on a Room that was made and not started. *)
Lemma stop_after_start_witness :
  room_store made_world !! 1%positive = Some (Room_new None) /\
  let h := fresh (dom (intervals made_world)) in
  let w' := stop (start made_world 1) 1 in
  intervals made_world !! h = None /\
  ticked (start made_world 1) (IntervalFires h) = Some 1%positive /\
  ticked w' (IntervalFires h) = None /\
  (forall h', h' <> h -> intervals w' !! h' = intervals made_world !! h') /\
  room_store w' !! 1%positive
  = Some (set_tickerHandle (Room_new None) (Some h)) /\
  (forall r', r' <> 1%positive ->
              room_store w' !! r' = room_store made_world !! r') /\
  rooms w' = rooms made_world /\
  person_store w' = person_store made_world /\
  sockets w' = sockets made_world /\
  stop w' 1 = w' /\
  (tickerHandle (Room_new None) = None -> stop made_world 1 = made_world).
Proof.
  split; [reflexivity|].
  apply (stop_after_start made_world 1 (Room_new None)). reflexivity.
Defined.

(** X2 on the same Room. *)
Lemma start_twice_leaks_witness :
  room_store made_world !! 1%positive = Some (Room_new None) /\
  let h1 := fresh (dom (intervals made_world)) in
  let h2 := fresh (dom (intervals (start made_world 1))) in
  let w' := stop (start (start made_world 1) 1) 1 in
  h1 <> h2 /\
  ticked w' (IntervalFires h2) = None /\
  ticked w' (IntervalFires h1) = Some 1%positive /\
  ticked (stop w' 1) (IntervalFires h1) = Some 1%positive /\
  (exists room', room_store w' !! 1%positive = Some room' /\
                 tickerHandle room' = Some h2).
Proof.
  split; [reflexivity|].
  apply (start_twice_leaks made_world 1 (Room_new None)). reflexivity.
Defined.

(** X4 with a second occupant of ["A"]. *)
Lemma addToRoom_removeFromRoom_witness :
  (rooms joined_world !! "A" = Some 1%positive /\
   room_store joined_world !! 1%positive = Some joined_room /\
   people joined_room !! "u2" = None) /\
  exists w1,
    addToRoom joined_world "A" "u2" (Some 2%positive) = Return w1 /\
    (people joined_room <> ∅ -> removeFromRoom w1 "A" "u2" = joined_world) /\
    (people joined_room = ∅ ->
     rooms (removeFromRoom w1 "A" "u2") = delete "A" (rooms joined_world) /\
     forall h, tickerHandle joined_room = Some h ->
               ticked (removeFromRoom w1 "A" "u2") (IntervalFires h) = None).
Proof.
  split; [repeat split|].
  apply (addToRoom_removeFromRoom joined_world "A" "u2" 2 1 joined_room);
    reflexivity.
Defined.

(** X5 on the Room of ["A"]. *)
Lemma tick_other_rooms_witness :
  room_store joined_world !! 1%positive = Some joined_room /\
  rooms (world_of (tick joined_world 1)) = rooms joined_world /\
  sockets (world_of (tick joined_world 1)) = sockets joined_world /\
  intervals (world_of (tick joined_world 1)) = intervals joined_world /\
  (forall r', r' <> 1%positive ->
     room_store (world_of (tick joined_world 1)) !! r'
     = room_store joined_world !! r') /\
  (forall l, (forall k, people joined_room !! k <> Some l) ->
     person_store (world_of (tick joined_world 1)) !! l
     = person_store joined_world !! l) /\
  dom (person_store (world_of (tick joined_world 1)))
  = dom (person_store joined_world) /\
  (exists room',
     room_store (world_of (tick joined_world 1)) !! 1%positive = Some room' /\
     serverTime room' = (serverTime joined_room + 1)%float /\
     people room' = people joined_room /\
     gravity room' = gravity joined_room /\
     tickerHandle room' = tickerHandle joined_room /\
     tickCallbacks room' = tickCallbacks joined_room).
Proof.
  split; [reflexivity|].
  apply (tick_other_rooms joined_world 1 joined_room). reflexivity.
Defined.

(** X6 on a Room of two, visited in the other order. *)
Lemma tick_order_independent_witness :
  [2%positive; 1%positive] ≡ₚ values (people shared_room) /\
  forall store,
    visit move_person [2%positive; 1%positive]
      (visit (enact_force (gravity shared_room)) [2%positive; 1%positive]
         store)
    = tick_people shared_room store /\
    (distinct_persons shared_room ->
     visit (tick_person (gravity shared_room)) [2%positive; 1%positive] store
     = tick_people shared_room store).
Proof.
  assert ([2%positive; 1%positive] ≡ₚ values (people shared_room)) as Hp.
  { change (values (people shared_room)) with [1%positive; 2%positive].
    apply perm_swap. }
  split; [exact Hp|]. intros store.
  apply (tick_order_independent shared_room store [2%positive; 1%positive] Hp).
Defined.

(** X9 for the entry of ["u2"] in the Room of ["A"]. *)
Lemma reached_occupants_witness :
  (room_store (reached sharing) !! 1%positive = Some shared_room /\
   people shared_room !! "u2" = Some 2%positive) /\
  (exists s c,
     sockets (reached sharing) !! s = Some c /\
     userID c = "u2" /\ person c = 2%positive) /\
  is_Some (person_store (reached sharing) !! 2%positive) /\
  (forall k', people shared_room !! k' = Some 2%positive -> k' = "u2").
Proof.
  split; [split; vm_compute; reflexivity|].
  apply (reached_occupants EARTH cos0 sin0 sharing 1 shared_room "u2" 2);
    vm_compute; reflexivity.
Defined.

(** X10 when ["u1"], in ["A"] with ["u2"], asks for ["B"] and when ["u2"]
    asks for ["A"] again. *)
Lemma room_event_joins_witness :
  sockets (reached sharing) !! 1%positive = Some joined_socket /\
  exists w' r room,
    on_room EARTH (reached sharing) 1 "B" = Return w' /\
    sockets w'
    = <[1%positive := set_roomID joined_socket "B"]>
        (sockets (reached sharing)) /\
    person_store w' = person_store (reached sharing) /\
    rooms w' !! "B" = Some r /\
    room_store w' !! r = Some room /\
    people room !! userID joined_socket = Some (person joined_socket) /\
    (forall r0 room0,
       roomID joined_socket <> "B" ->
       rooms (reached sharing) !! "B" = Some r0 ->
       room_store (reached sharing) !! r0 = Some room0 ->
       r = r0 /\
       room = set_people room0
                (<[userID joined_socket := person joined_socket]>
                   (people room0))).
Proof.
  split; [vm_compute; reflexivity|].
  apply (room_event_joins EARTH cos0 sin0 sharing 1 joined_socket "B").
  vm_compute. reflexivity.
Defined.

(** X11 on the Room of ["A"] once its creator has moved to ["B"] and
    disconnected: its second tick throws. *)
Lemma tick_throws_witness :
  room_store (reached abandoning) !! 1%positive = Some (left_room 1) /\
  (tick (reached abandoning) 1
   = Throw TypeError (world_of (tick (reached abandoning) 1)) <->
   Number.strict_eq (Number.remainder (serverTime (left_room 1) + 1) 2) 0
     = true /\
   exists s c,
     SendRoomInfo s ∈ tickCallbacks (left_room 1) /\
     sockets (reached abandoning) !! s = Some c /\
     rooms (reached abandoning) !! roomID c = None) /\
  (tick (reached abandoning) 1
   <> Throw TypeError (world_of (tick (reached abandoning) 1)) ->
   tick (reached abandoning) 1
   = Return (world_of (tick (reached abandoning) 1))) /\
  (forall n,
     clock_at n (left_room 1) -> (n < 2 ^ 53)%Z ->
     Number.strict_eq (Number.remainder (serverTime (left_room 1) + 1) 2) 0
       = true <->
     ((n + 1) mod 2 = 0)%Z).
Proof.
  split; [vm_compute; reflexivity|].
  apply (tick_throws (reached abandoning) 1 (left_room 1)).
  vm_compute. reflexivity.
Defined.

(** The run of X11 to its end: the process dies of the TypeError. *)
Example abandoned_room_throws :
  exists w,
    run EARTH cos0 sin0 World_init (abandoning ++ [IntervalFires 1])
    = Throw TypeError w /\
    serverTime <$> room_store w !! 1%positive = Some 2%float.
Proof. eexists. split; vm_compute; reflexivity. Qed.

(** X12 for a connection that joins [""] and then ["B"]. *)
Lemma empty_roomID_is_not_left_witness :
  (sockets (reached [Connection "u1"; OnRoom 1 ""]) !! 1%positive
   = Some {| userID := "u1"; roomID := ""; person := 1 |} /\
   rooms (reached [Connection "u1"; OnRoom 1 ""]) !! "" = Some 1%positive /\
   room_store (reached [Connection "u1"; OnRoom 1 ""]) !! 1%positive
   = Some joined_room) /\
  exists w' r room,
    on_room EARTH (reached [Connection "u1"; OnRoom 1 ""]) 1 "B"
    = Return w' /\
    rooms w' !! "" = Some 1%positive /\
    room_store w' !! 1%positive = Some joined_room /\
    rooms w' !! "B" = Some r /\
    r <> 1%positive /\
    room_store w' !! r = Some room /\
    people room !! "u1" = Some 1%positive /\
    rooms (on_disconnect w' 1) !! "" = Some 1%positive /\
    room_store (on_disconnect w' 1) !! 1%positive = Some joined_room /\
    (forall h, tickerHandle joined_room = Some h ->
               ticked (on_disconnect w' 1) (IntervalFires h)
               = Some 1%positive).
Proof.
  split; [repeat split; vm_compute; reflexivity|].
  apply (empty_roomID_is_not_left EARTH cos0 sin0
           [Connection "u1"; OnRoom 1 ""] 1
           {| userID := "u1"; roomID := ""; person := 1 |} "B" 1 joined_room);
    try (vm_compute; reflexivity).
  discriminate.
Defined.

(** X13 for a first connection and the id ["A"]. *)
Lemma join_then_disconnect_witness :
  (sockets (reached [Connection "u1"]) !! 1%positive
   = Some {| userID := "u1"; roomID := ""; person := 1 |} /\
   rooms (reached [Connection "u1"]) !! "A" = None) /\
  exists w' r,
    on_room EARTH (reached [Connection "u1"]) 1 "A" = Return w' /\
    rooms w' !! "A" = Some r /\
    rooms (on_disconnect w' 1) = rooms (reached [Connection "u1"]) /\
    person_store (on_disconnect w' 1)
    = person_store (reached [Connection "u1"]) /\
    (forall e, ticked (on_disconnect w' 1) e
               = ticked (reached [Connection "u1"]) e) /\
    (forall e, ticked (on_disconnect w' 1) e <> Some r).
Proof.
  split; [split; vm_compute; reflexivity|].
  apply (join_then_disconnect EARTH cos0 sin0 [Connection "u1"] 1
           {| userID := "u1"; roomID := ""; person := 1 |} "A");
    vm_compute; reflexivity.
Defined.

(** X14 for ["u1"], alone in ["A"] after two ticks. *)
Lemma rejoin_alone_restarts_witness :
  (sockets (reached (joining ++ [IntervalFires 1; IntervalFires 1]))
     !! 1%positive = Some joined_socket /\
   rooms (reached (joining ++ [IntervalFires 1; IntervalFires 1])) !! "A"
   = Some 1%positive /\
   serverTime
     <$> room_store (reached (joining ++ [IntervalFires 1; IntervalFires 1]))
           !! 1%positive = Some 2%float) /\
  exists w' r room,
    on_room EARTH (reached (joining ++ [IntervalFires 1; IntervalFires 1]))
      1 (roomID joined_socket) = Return w' /\
    rooms w' !! roomID joined_socket = Some r /\
    r <> 1%positive /\
    room_store w' !! r = Some room /\
    serverTime room = 0%float /\
    people room = {[userID joined_socket := person joined_socket]} /\
    (forall e, ticked w' e <> Some 1%positive) /\
    (forall h, tickerHandle room = Some h ->
               ticked w' (IntervalFires h) = Some r).
Proof.
  split; [repeat split; vm_compute; reflexivity|].
  apply (rejoin_alone_restarts EARTH cos0 sin0
           (joining ++ [IntervalFires 1; IntervalFires 1]) 1 joined_socket 1
           (set_serverTime joined_room 2));
    try (vm_compute; reflexivity).
  discriminate.
Defined.

(** X15 for a ["fly"] of one socket and a ["jump"] of another. *)
Lemma person_events_commute_witness :
  (person_event cos0 sin0 (OnFly 1 2) = Some (1%positive, fly_event 2) /\
   person_event cos0 sin0 (OnJump 2 None)
   = Some (2%positive, jump_event None) /\
   1%positive <> 2%positive) /\
  run EARTH cos0 sin0 (reached sharing) [OnFly 1 2; OnJump 2 None]
  = run EARTH cos0 sin0 (reached sharing) [OnJump 2 None; OnFly 1 2] /\
  exists w',
    step EARTH cos0 sin0 (reached sharing) (OnFly 1 2) = Return w' /\
    rooms w' = rooms (reached sharing) /\
    room_store w' = room_store (reached sharing) /\
    sockets w' = sockets (reached sharing) /\
    intervals w' = intervals (reached sharing) /\
    forall c l,
      sockets (reached sharing) !! 1%positive = Some c ->
      l <> person c ->
      person_store w' !! l = person_store (reached sharing) !! l.
Proof.
  split; [repeat split; discriminate|].
  apply (person_events_commute EARTH cos0 sin0 sharing (OnFly 1 2)
           (OnJump 2 None) 1 2 (fly_event 2) (jump_event None));
    [reflexivity | reflexivity | discriminate].
Defined.

(** X16 for a Person that drifts, over 3 ticks. *)
Lemma horizontal_motion_witness :
  (room_store drifting_world !! 1%positive = Some joined_room /\
   people joined_room !! "u1" = Some 1%positive /\
   person_store drifting_world !! 1%positive = Some drifting_person /\
   distinct_persons joined_room) /\
  exists p',
    person_store (ticks 3 drifting_world 1) !! 1%positive = Some p' /\
    x (position p')
    = repeat_add 3 (x (velocity drifting_person) * TICK_LENGTH)
        (x (position drifting_person)) /\
    z (position p')
    = repeat_add 3 (z (velocity drifting_person) * TICK_LENGTH)
        (z (position drifting_person)) /\
    x (velocity p') = x (velocity drifting_person) /\
    z (velocity p') = z (velocity drifting_person).
Proof.
  split.
  { split; [reflexivity|]. split; [reflexivity|]. split; [reflexivity|].
    apply joined_room_distinct. }
  apply (horizontal_motion 3 drifting_world 1 joined_room "u1" 1
           drifting_person);
    [reflexivity | reflexivity | reflexivity | apply joined_room_distinct].
Defined.

(** X17 for the Person of ["u1"], who joined at rest on the floor, over 60
    ticks under the gravity 9.8. *)
Lemma at_rest_on_the_floor_witness :
  (room_store joined_world !! 1%positive = Some joined_room /\
   people joined_room !! "u1" = Some 1%positive /\
   person_store joined_world !! 1%positive = Some joined_person /\
   distinct_persons joined_room /\
   Number.lt (0 + (0 - gravity joined_room * TICK_LENGTH) * TICK_LENGTH)
     FLOOR_Y = true /\
   flying joined_person = false /\
   y (position joined_person) = 0%float /\
   y (velocity joined_person) = 0%float) /\
  exists p',
    person_store (ticks 60 joined_world 1) !! 1%positive = Some p' /\
    flying p' = false /\
    y (position p') = 0%float /\
    y (velocity p') = 0%float.
Proof.
  split.
  { split; [reflexivity|]. split; [reflexivity|]. split; [reflexivity|].
    split; [apply joined_room_distinct|]. repeat split. }
  apply (at_rest_on_the_floor 60 joined_world 1 joined_room "u1" 1
           joined_person); try reflexivity.
  apply joined_room_distinct.
Defined.

(** X18 for the Room of ["A"] once its creator has moved to ["B"]: its
    callback reports the one occupant of ["B"], to ["B"]. *)
Lemma callback_reports_witness :
  sockets (reached moving) !! 1%positive = Some moved_socket /\
  (Number.strict_eq (Number.remainder (serverTime (left_room 0)) 2) 0 = false ->
   callback_sends (reached moving) (left_room 0) (SendRoomInfo 1) = []) /\
  (forall r' room',
     Number.strict_eq (Number.remainder (serverTime (left_room 0)) 2) 0 = true ->
     rooms (reached moving) !! roomID moved_socket = Some r' ->
     room_store (reached moving) !! r' = Some room' ->
     length (callback_sends (reached moving) (left_room 0) (SendRoomInfo 1))
     = size (people room') /\
     forall to k l,
       (to, k, l)
         ∈ callback_sends (reached moving) (left_room 0) (SendRoomInfo 1) <->
       to = roomID moved_socket /\ people room' !! k = Some l) /\
  (forall n,
     clock_at n (left_room 0) ->
     Number.strict_eq (Number.remainder (serverTime (left_room 0)) 2) 0 = true
     <-> (n mod 2 = 0)%Z).
Proof.
  split; [vm_compute; reflexivity|].
  apply (callback_reports (reached moving) (left_room 0) 1 moved_socket).
  vm_compute. reflexivity.
Defined.

Example callback_reports_the_other_room :
  callback_sends (reached moving) (left_room 0) (SendRoomInfo 1)
  = [("B", "u1", 1%positive)].
Proof. vm_compute. reflexivity. Qed.

(** X19 when ["u2"] disconnects from the Room it shares with ["u1"]. *)
Lemma disconnect_leaves_witness :
  sockets (reached sharing) !! 2%positive
  = Some {| userID := "u2"; roomID := "A"; person := 2 |} /\
  (forall r room,
     rooms (on_disconnect (reached sharing) 2) !! "A" = Some r ->
     room_store (on_disconnect (reached sharing) 2) !! r = Some room ->
     people room !! "u2" = None) /\
  (forall name r0,
     name <> "A" ->
     rooms (reached sharing) !! name = Some r0 ->
     rooms (on_disconnect (reached sharing) 2) !! name = Some r0 /\
     room_store (on_disconnect (reached sharing) 2) !! r0
     = room_store (reached sharing) !! r0) /\
  sockets (on_disconnect (reached sharing) 2) = sockets (reached sharing) /\
  person_store (on_disconnect (reached sharing) 2)
  = person_store (reached sharing).
Proof.
  split; [vm_compute; reflexivity|].
  apply (disconnect_leaves EARTH cos0 sin0 sharing 2
           {| userID := "u2"; roomID := "A"; person := 2 |}).
  vm_compute. reflexivity.
Defined.

(** X21 at the ["username"] event of C6. *)
Lemma only_username_and_ticks_throw_witness :
  step EARTH cos0 sin0 (reached joining) (OnUsername 1 "Bob")
  = Throw TypeError joined_world /\
  TypeError = TypeError /\
  ((exists s name,
      OnUsername 1 "Bob" = OnUsername s name /\
      joined_world = reached joining)
   \/ (exists h r,
         OnUsername 1 "Bob" = IntervalFires h /\
         ticked (reached joining) (OnUsername 1 "Bob") = Some r)).
Proof.
  split; [vm_compute; reflexivity|].
  apply (only_username_and_ticks_throw EARTH cos0 sin0 joining
           (OnUsername 1 "Bob") TypeError joined_world).
  vm_compute. reflexivity.
Defined.

